(** * Cyber-range lifecycle daemon (crld), port daemon (portd) and name
    validation (crl.helpers): a shallow embedding and its properties.

    Layout:
    - [Re]       : the fragment of Python's [re] that the name pattern uses;
    - [Config]   : the constants of [crl/config.py];
    - [Helpers]  : [validate_name] of [crl/helpers.py];
    - [Portd]    : the request handler of [portd/portd.py];
    - [Crld]     : the world FSM, the reconciler, the blocking-op executor and
                   the HTTP handlers of [crld/crld.py];
    - [Spec]     : the tables of the specification, in its own words;
    - [Demo]     : a small outside world to run the daemon on;
    - [Executor] : [call_fsm_blocking] again, over operations that may raise
                   what [except Exception] does not catch;
    - the properties, module by module.

    Modelling choices.
    - Strings are sequences of 8-bit characters.  The character class of the
      name pattern holds ASCII letters and digits only, so a name with any
      other character is refused whatever that character is.
    - The daemon is a coroutine program on one event loop.  The model follows
      one request from start to end: [await] runs what it waits for, the
      worker pool is a call, and the request that queues a create or a stop
      waits while the worker takes its item.  The state map, the log, the
      configuration directory and the outside world are threaded through a
      state monad with exceptions.
    - An exception of [Crld] is an instance of [Exception], which
      [except Exception] catches.  [Executor] has [call_fsm_blocking] over
      operations that may also raise what it does not catch ([SystemExit],
      a cancellation), and dispatches to the FSM of [Crld].
    - [user_fsm], [checking_state] and [call_fsm_blocking] call each other;
      [user_fsm] is defined over a bound on the nesting of dispatches, and
      two levels are shown to be enough for every signal. *)

From Stdlib Require Import ZArith Ascii String List Bool Lia.
From stdpp Require Import gmap strings list.

Local Open Scope string_scope.

(* ===================================================================== *)
(** ** Regular expressions: the fragment used by [USER_ALLOWED_REGEX]     *)
(* ===================================================================== *)

Module Re.

(** Pattern items: [^], [$] and a character class under [+]. *)
Inductive atom : Type :=
| Bol
| Eol
| Plus (cls : ascii -> bool).

Definition pattern := list atom.

(** Python's [$] (no MULTILINE flag) matches at the end of the string and
    also just before a newline that is the last character. *)
Definition at_eol (s : string) : bool :=
  match s with
  | EmptyString => true
  | String c EmptyString => Ascii.eqb c "010"%char
  | _ => false
  end.

(** [cls+] followed by the rest of the pattern, [k]: one character of the
    class, then either more of them or the rest.  Every number (at least
    one) of repetitions is tried, as a backtracking matcher does. *)
Fixpoint match_plus (cls : ascii -> bool) (k : string -> bool) (s : string) : bool :=
  match s with
  | EmptyString => false
  | String c s' => cls c && (match_plus cls k s' || k s')
  end.

(** [match_here pat pos0 s]: can [pat] match starting at the current
    position, where [s] is the rest of the subject and [pos0] tells whether
    the current position is the start of the subject. *)
Fixpoint match_here (pat : pattern) (pos0 : bool) (s : string) {struct pat} : bool :=
  match pat with
  | [] => true
  | Bol :: p => pos0 && match_here p pos0 s
  | Eol :: p => at_eol s && match_here p pos0 s
  | Plus cls :: p => match_plus cls (match_here p false) s
  end.

(** [re.compile(pat).match(s)] is truthy iff the pattern matches at the
    start of [s]. *)
Definition re_match (pat : pattern) (s : string) : bool := match_here pat true s.

(** The class [[A-Za-z0-9]]. *)
Definition in_range (lo hi c : ascii) : bool :=
  (N_of_ascii lo <=? N_of_ascii c)%N && (N_of_ascii c <=? N_of_ascii hi)%N.

Definition class_alnum (c : ascii) : bool :=
  in_range "A" "Z" c || in_range "a" "z" c || in_range "0" "9" c.

End Re.

(* ===================================================================== *)
(** ** crl/config.py                                                      *)
(* ===================================================================== *)

Module Config.

(** [USER_ALLOWED_REGEX = "^[A-Za-z0-9]+$$"]: the pattern ends in two [$]. *)
Definition USER_ALLOWED_REGEX : Re.pattern :=
  [Re.Bol; Re.Plus Re.class_alnum; Re.Eol; Re.Eol].
Definition USER_MAX_LEN : nat := 32.
Definition USER_MIN_LEN : nat := 4.
Definition USER_CASE_SENSITIVE : bool := false.

End Config.

(* ===================================================================== *)
(** ** crl/helpers.py: validate_name                                      *)
(* ===================================================================== *)

Module Helpers.

(** [str.lower], where [validate_name] applies it: the name has passed the
    pattern, so its letters are ASCII letters, and on such a name
    [str.lower] shifts [A-Z] to [a-z] and keeps every other character.
    [lower] does that to every string of the model; on a character outside
    ASCII it is this folding of the ASCII letters, not [str.lower], which
    is never asked there. *)
Definition lower_char (c : ascii) : ascii :=
  if Re.in_range "A" "Z" c then ascii_of_N (N_of_ascii c + 32) else c.

Fixpoint lower (s : string) : string :=
  match s with
  | EmptyString => EmptyString
  | String c s' => String (lower_char c) (lower s')
  end.

(** [validate_name]: [None] stands for the [ValueError] the source raises. *)
Definition validate_name (name : string) : option string :=
  if negb (Re.re_match Config.USER_ALLOWED_REGEX name)
     || (Config.USER_MAX_LEN <? String.length name)%nat
     || (String.length name <? Config.USER_MIN_LEN)%nat
  then None
  else Some (if Config.USER_CASE_SENSITIVE then name else lower name).

(** Strings made of letters and digits only. *)
Fixpoint all_alnum (s : string) : bool :=
  match s with
  | EmptyString => true
  | String c s' => Re.class_alnum c && all_alnum s'
  end.

(** Occurrence of a character in a string. *)
Fixpoint contains (c : ascii) (s : string) : bool :=
  match s with
  | EmptyString => false
  | String d s' => Ascii.eqb c d || contains c s'
  end.

Definition newline : string := String "010"%char EmptyString.

(** Strings without an upper-case letter. *)
Fixpoint no_upper (s : string) : bool :=
  match s with
  | EmptyString => true
  | String c s' => negb (Re.in_range "A" "Z" c) && no_upper s'
  end.

End Helpers.

(* ===================================================================== *)
(** ** portd/portd.py                                                     *)
(* ===================================================================== *)

Module Portd.

Section Handle.

(** The kernel as the handler sees it: [kernel i] is the port that
    [getsockname] reports after the [i]-th [bind(("", 0))] of a request.  A
    bound TCP port is a positive number. *)
Variable kernel : nat -> positive.

(** [while port in blacklist: ... port = int(s.getsockname()[1])].
    [binds] counts the sockets bound so far; [fuel] bounds the number of
    loop tests. *)
Fixpoint handle_loop (fuel : nat) (blacklist : gset Z) (port : Z) (binds : nat)
  : option Z :=
  match fuel with
  | O => None
  | S fuel' =>
      if decide (port ∈ blacklist)
      then handle_loop fuel' blacklist (Z.pos (kernel binds)) (S binds)
      else Some port
  end.

(** [handle]: [query] holds the values [int(v)] of the [blacklist]
    parameters of the request; the result is the integer whose decimal text
    is the body of the response. *)
Definition handle (fuel : nat) (query : list Z) : option Z :=
  let blacklist : gset Z := list_to_set query in
  let port := (-1)%Z in
  let blacklist := {[ port ]} ∪ blacklist in
  handle_loop fuel blacklist port 0.

End Handle.

End Portd.

(* ===================================================================== *)
(** ** crld/crld.py                                                       *)
(* ===================================================================== *)

Module Crld.

Inductive WorldState : Type :=
| notfound | checking | creating | stopped | starting | running | stopping.

Inductive WorldSignal : Type :=
| create | start | stop | fail | check | up | down.

Module WorldHealth.
Inductive t : Type := up | degraded | down.
End WorldHealth.

#[global] Instance WorldState_eq_dec : EqDecision WorldState.
Proof. solve_decision. Defined.
#[global] Instance WorldSignal_eq_dec : EqDecision WorldSignal.
Proof. solve_decision. Defined.
#[global] Instance WorldHealth_eq_dec : EqDecision WorldHealth.t.
Proof. solve_decision. Defined.

(** A [pathlib.Path], as the sequence of its components. *)
Definition Path : Type := list string.

(** What [inspect] reports for one service: the value under the key [up],
    when the key is present. *)
Record service : Type := { svc_up : option bool }.

(** [world_info]: host name to service record, in iteration order. *)
Definition world_info : Type := list (string * service).

(** Result of a blocking operation run on the worker pool. *)
Inductive op_result : Type :=
| Returns (res : bool)
| Raises (ex : string).

(** Lines of the log that the model keeps: the INFO line of
    [set_fsm_state] and the line of [log.exception]. *)
Inductive log_record : Type :=
| LogTransition (event user : string) (old_state new_state : WorldState)
                (signal : WorldSignal)
| LogException (ex : string).

(** HTTP responses: [web.Response(text=c)] has status 200. *)
Inductive body : Type :=
| NoBody
| Text (s : string)
| Json (fields : list (string * string)).

Record Response : Type := { status : nat; resp_body : body }.

(** The part of a request that the handlers read. *)
Record Request : Type := { match_info_event : string; match_info_user : string }.

(** *** The world outside the daemon

    [Env] is the state of the file system and of the orchestrator.
    [read_file] gives the contents of a regular file.  [inspect] is
    [crl.world.inspect], whose source is not with the daemon's: it is a
    parameter and, as the adapter of the specification, it answers with a
    record, which is empty when the call fails.  The four commands of
    [crl/crl.py] shell out to the orchestrator; they are parameters too:
    called with [event], [worlds] and [config_dir], they return or raise
    and leave the outside world in a new state.  [wireguard_vips] is the
    orchestrator's answer to [get_wireguard_network]: the virtual IP of the
    VPN service per attached network, or nothing when the service is not
    there. *)
Definition blocking_op (Env : Type) : Type :=
  string -> list string -> string -> Env -> op_result * Env.

Class Outside : Type := {
  Env : Type;
  read_file : Env -> Path -> option string;
  inspect : Env -> Path -> string -> world_info;
  cmd_create : blocking_op Env;
  cmd_start : blocking_op Env;
  cmd_stop : blocking_op Env;
  cmd_delete : blocking_op Env;
  wireguard_vips : Env -> string -> string -> option (list (string * string))
}.

Section Daemon.

Context {outside : Outside}.

(** *** Process state: the module globals and the outside world *)
Record World : Type := {
  world_state : gmap (string * string) WorldState;
  running_configdir : string;
  log : list log_record;
  env : Env
}.

Definition with_world_state (m : gmap (string * string) WorldState) (w : World) : World :=
  {| world_state := m; running_configdir := running_configdir w;
     log := log w; env := env w |}.

Definition with_log (l : list log_record) (w : World) : World :=
  {| world_state := world_state w; running_configdir := running_configdir w;
     log := l; env := env w |}.

Definition with_env (e : Env) (w : World) : World :=
  {| world_state := world_state w; running_configdir := running_configdir w;
     log := log w; env := e |}.

(** *** Coroutines as state transformers that may raise

    One request is followed from its start to its end: an [await] runs
    what it waits for.  [OutOfFuel] is the model's own bound on the
    nesting of FSM dispatches. *)
Inductive result (A : Type) : Type :=
| Done (a : A) (w : World)
| Raised (ex : string) (w : World)
| OutOfFuel.
Arguments Done {A} a w.
Arguments Raised {A} ex w.
Arguments OutOfFuel {A}.

Definition M (A : Type) : Type := World -> result A.

Definition ret {A} (a : A) : M A := fun w => Done a w.

Definition bind {A B} (m : M A) (k : A -> M B) : M B :=
  fun w =>
    match m w with
    | Done a w' => k a w'
    | Raised ex w' => Raised ex w'
    | OutOfFuel => OutOfFuel
    end.

(** [try: body / except Exception as e: handler e]. *)
Definition try_except {A} (body : M A) (handler : string -> M A) : M A :=
  fun w =>
    match body w with
    | Raised ex w' => handler ex w'
    | r => r
    end.

Definition when (b : bool) (m : M unit) : M unit := if b then m else ret tt.

Notation "'let!' x ':=' m 'in' k" := (bind m (fun x => k))
  (at level 10, x name, m at level 100, k at level 200).
Notation "m '>>' k" := (bind m (fun _ => k))
  (at level 90, right associativity).

(** *** State map and log *)

(** [world_state.setdefault((event, user), WorldState.notfound)]: a
    missing entry is inserted. *)
Definition get_fsm_state (event user : string) : M WorldState :=
  fun w =>
    match world_state w !! (event, user) with
    | Some s => Done s w
    | None => Done notfound
                (with_world_state (<[(event, user) := notfound]> (world_state w)) w)
    end.

Definition log_info (r : log_record) : M unit :=
  fun w => Done tt (with_log ((log w ++ [r])%list) w).

Definition set_fsm_state (event user : string) (new_state : WorldState)
    (signal : WorldSignal) : M unit :=
  let! old_state := get_fsm_state event user in
  (fun w => Done tt (with_world_state (<[(event, user) := new_state]> (world_state w)) w)) >>
  log_info (LogTransition event user old_state new_state signal).

(** *** Config store *)

Definition get_world_path (event user : string) (w : World) : Path :=
  [running_configdir w; "Events"; event; user].

Definition get_config_path (event user : string) (w : World) : Path :=
  (get_world_path event user w ++ ["peer"; "peer_" +:+ user +:+ ".conf"])%list.

(** [Path.exists] on the peer config: the file system of the model
    holds regular files. *)
Definition path_exists (p : Path) (w : World) : bool :=
  bool_decide (is_Some (read_file (env w) p)).

(** [open(config).read()], with [FileNotFoundError] turned into [None]. *)
Definition get_user_config (event user : string) : M (option string) :=
  fun w => Done (read_file (env w) (get_config_path event user w)) w.

(** *** Health *)

Definition service_get_up (s : service) : bool := default false (svc_up s).

Definition services_status (info : world_info) : list bool :=
  map (fun hs => service_get_up (snd hs))
      (filter (fun hs => fst hs ≠ "wireguard"%string) info).

(** Truth value of a list: false exactly for the empty one. *)
Definition nonempty {A} (l : list A) : bool :=
  match l with
  | [] => false
  | _ :: _ => true
  end.

Definition all (l : list bool) : bool := forallb id l.
Definition any (l : list bool) : bool := existsb id l.

(** The chain of tests of [determine_world_health], on the list it
    builds; the last line is the source's [return None]. *)
Definition health_of_status (st : list bool) : option WorldHealth.t :=
  if negb (nonempty st) then Some WorldHealth.down
  else if all st then Some WorldHealth.up
  else if any st then Some WorldHealth.degraded
  else if negb (any st) then Some WorldHealth.down
  else None.

Definition determine_world_health (event user : string) (w : World)
  : option WorldHealth.t :=
  let info := inspect (env w) (get_world_path event user w)
                ("crl-" +:+ event +:+ "-" +:+ user)%string in
  health_of_status (services_status info).

Definition get_health (event user : string) : M (option WorldHealth.t) :=
  fun w => Done (determine_world_health event user w) w.

(** *** Dispatch: the functions below call [user_fsm], which calls them
    back; they take the dispatcher as [fsm]. *)
Definition dispatcher : Type := string -> string -> WorldSignal -> M unit.

(** [elif health:] holds for every health value and fails for [None]. *)
Definition checking_state (fsm : dispatcher) (event user : string) : M unit :=
  let! health := get_health event user in
  if bool_decide (health = Some WorldHealth.down) then fsm event user down
  else if bool_decide (is_Some health) then fsm event user up
  else fsm event user fail.

(** [loop.run_in_executor(None, partial(op, event=event, worlds=[user],
    config_dir=running_configdir))]. *)
Definition run_in_executor (op : blocking_op Env) (event user : string) : M bool :=
  fun w =>
    match op event [user] (running_configdir w) (env w) with
    | (Returns res, e') => Done res (with_env e' w)
    | (Raises ex, e') => Raised ex (with_env e' w)
    end.

(** [if sig: await user_fsm(event, user, sig)]: every signal is truthy,
    [None] is not. *)
Definition send (fsm : dispatcher) (event user : string) (sig : option WorldSignal)
  : M unit :=
  match sig with
  | Some s => fsm event user s
  | None => ret tt
  end.

Definition call_fsm_blocking (fsm : dispatcher) (event user : string)
    (op : blocking_op Env) (ok fail : option WorldSignal) : M unit :=
  try_except
    (let! res := run_in_executor op event user in
     if res then send fsm event user ok else send fsm event user fail)
    (fun ex =>
       log_info (LogException ex) >>
       send fsm event user fail).

(** One turn of [worker_create] / [worker_stop] for the item that the
    request has just queued; the request waits for it. *)
Definition worker_create (fsm : dispatcher) (event user : string) : M unit :=
  call_fsm_blocking fsm event user cmd_create (Some down) (Some fail).

Definition worker_stop (fsm : dispatcher) (event user : string) : M unit :=
  call_fsm_blocking fsm event user cmd_stop (Some down) (Some fail).

Fixpoint user_fsm (fuel : nat) (event user : string) (signal : WorldSignal)
  : M unit :=
  match fuel with
  | O => fun _ => OutOfFuel
  | S fuel' =>
      let fsm := user_fsm fuel' in
      let _state := fun s => set_fsm_state event user s signal in
      let! current_state := get_fsm_state event user in
      match current_state, signal with
      | notfound, create =>
          _state creating >> worker_create fsm event user
      | notfound, check =>
          _state checking >> checking_state fsm event user
      | creating, down => _state stopped
      | creating, fail =>
          call_fsm_blocking fsm event user cmd_delete None None >>
          _state notfound
      | checking, up => _state running
      | checking, down => _state stopped
      | checking, fail => _state notfound
      | stopped, check =>
          _state checking >> checking_state fsm event user
      | stopped, start =>
          _state starting >>
          call_fsm_blocking fsm event user cmd_start (Some up) (Some fail)
      | starting, up => _state running
      | starting, fail => _state stopped
      | running, check =>
          _state checking >> checking_state fsm event user
      | running, stop =>
          _state stopping >> worker_stop fsm event user
      | stopping, down => _state stopped
      | stopping, fail => _state stopped
      | _, _ => _state current_state
      end
  end.

Definition check_fsm_integrity (fsm : dispatcher) (event user : string) : M unit :=
  let! curr_state := get_fsm_state event user in
  fun w =>
    let curr_config := path_exists (get_config_path event user w) w in
    if curr_config && bool_decide (curr_state = notfound)
    then fsm event user check w
    else if negb curr_config && bool_decide (curr_state ≠ notfound)
    then fsm event user check w
    else Done tt w.

(** *** HTTP handlers *)

Definition truthy (c : option string) : bool :=
  match c with
  | Some s => negb (bool_decide (s = ""%string))
  | None => false
  end.

Definition config_response (c : option string) : Response :=
  match c with
  | Some s => if truthy c then {| status := 200; resp_body := Text s |}
              else {| status := 404; resp_body := NoBody |}
  | None => {| status := 404; resp_body := NoBody |}
  end.

Definition validate_world_args (func : string -> string -> M Response)
    (req : Request) : M Response :=
  match Helpers.validate_name (match_info_event req) with
  | None => ret {| status := 415; resp_body := NoBody |}
  | Some event =>
      match Helpers.validate_name (match_info_user req) with
      | None => ret {| status := 415; resp_body := NoBody |}
      | Some user => func event user
      end
  end.

Definition world_create_body (fuel : nat) (event user : string) : M Response :=
  check_fsm_integrity (user_fsm fuel) event user >>
  let! s := get_fsm_state event user in
  when (bool_decide (s = notfound)) (user_fsm fuel event user create) >>
  let! s := get_fsm_state event user in
  when (bool_decide (s = stopped)) (user_fsm fuel event user start) >>
  let! c := get_user_config event user in
  ret (config_response c).

Definition world_create (fuel : nat) : Request -> M Response :=
  validate_world_args (world_create_body fuel).

Definition world_config_body (fuel : nat) (event user : string) : M Response :=
  check_fsm_integrity (user_fsm fuel) event user >>
  let! c := get_user_config event user in
  ret (config_response c).

Definition world_config (fuel : nat) : Request -> M Response :=
  validate_world_args (world_config_body fuel).

Definition state_name (s : WorldState) : string :=
  match s with
  | notfound => "notfound" | checking => "checking" | creating => "creating"
  | stopped => "stopped" | starting => "starting" | running => "running"
  | stopping => "stopping"
  end.

Definition health_name (h : WorldHealth.t) : string :=
  match h with
  | WorldHealth.up => "up"
  | WorldHealth.degraded => "degraded"
  | WorldHealth.down => "down"
  end.

Definition world_status_response (event user : string) : M Response :=
  let! s := get_fsm_state event user in
  let! resp_obj :=
    (if bool_decide (s = running)
     then let! health := get_health event user in
          ret (match health with
               | Some h => [("state", state_name s); ("health", health_name h)]
               | None => [("state", state_name s)]
               end)
     else ret [("state", state_name s)]) in
  ret {| status := 200; resp_body := Json resp_obj |}.

Definition world_reset_body (fuel : nat) (event user : string) : M Response :=
  check_fsm_integrity (user_fsm fuel) event user >>
  let! s := get_fsm_state event user in
  when (bool_decide (s = running)) (user_fsm fuel event user stop) >>
  let! s := get_fsm_state event user in
  when (bool_decide (s = stopped)) (user_fsm fuel event user start) >>
  world_status_response event user.

Definition world_reset (fuel : nat) : Request -> M Response :=
  validate_world_args (world_reset_body fuel).

Definition world_status_body (fuel : nat) (event user : string) : M Response :=
  check_fsm_integrity (user_fsm fuel) event user >>
  world_status_response event user.

Definition world_status (fuel : nat) : Request -> M Response :=
  validate_world_args (world_status_body fuel).

Definition wireguard_network_body (fuel : nat) (event user : string) : M Response :=
  check_fsm_integrity (user_fsm fuel) event user >>
  fun w =>
    match wireguard_vips (env w) event user with
    | Some (n :: ns) => Done {| status := 200; resp_body := Json (n :: ns) |} w
    | _ => Done {| status := 404; resp_body := NoBody |} w
    end.

Definition wireguard_network (fuel : nat) : Request -> M Response :=
  validate_world_args (wireguard_network_body fuel).

End Daemon.

Arguments Done {outside A} a w.
Arguments Raised {outside A} ex w.
Arguments OutOfFuel {outside A}.

(** The state of a world as a reader of the state map sees it: a missing
    entry reads as [notfound]. *)
Definition state_of `{Outside} (w : World) (event user : string) : WorldState :=
  default notfound (world_state w !! (event, user)).

(** The transition lines of a log, in order. *)
Definition transition : Type :=
  (string * string * WorldState * WorldState * WorldSignal)%type.

Fixpoint transitions (l : list log_record) : list transition :=
  match l with
  | [] => []
  | LogTransition e u old new sig :: l' => (e, u, old, new, sig) :: transitions l'
  | LogException _ :: l' => transitions l'
  end.

Definition signal_of (t : transition) : WorldSignal := snd t.

(** Number of dispatches of a signal among transition lines. *)
Definition count_signal (sig : WorldSignal) (l : list transition) : nat :=
  length (filter (fun t => signal_of t = sig) l).

(** [get_fsm_state] leaves this world behind: the entry is there. *)
Definition touch `{Outside} (event user : string) (w : World) : World :=
  with_world_state (<[(event, user) := state_of w event user]> (world_state w)) w.

(** [set_fsm_state] leaves this world behind. *)
Definition write `{Outside} (event user : string) (new_state : WorldState)
    (signal : WorldSignal) (w : World) : World :=
  {| world_state := <[(event, user) := new_state]> (world_state w);
     running_configdir := running_configdir w;
     log := log w ++ [LogTransition event user (state_of w event user) new_state signal];
     env := env w |}.

(** The world has an entry in the state map. *)
Definition tracked `{Outside} (event user : string) (w : World) : Prop :=
  is_Some (world_state w !! (event, user)).

(** A dispatcher that never raises. *)
Definition never_raises `{Outside} (fsm : dispatcher) : Prop :=
  forall event user sig w ex w', fsm event user sig w <> Raised ex w'.

(** Signals that the side effects of a transition send. *)
Definition terminal (sig : WorldSignal) : bool :=
  match sig with
  | up | down | fail => true
  | _ => false
  end.

(** Dispatch depth that every request fits in: a signal and the signal
    that its side effect sends. *)
Definition enough_fuel : nat := 2.

End Crld.

(* ===================================================================== *)
(** ** The specification's tables, in its own words                       *)
(* ===================================================================== *)

Module Spec.

Import Crld.

(** Transition table of the world FSM: [None] is an empty cell. *)
Definition table (s : WorldState) (sig : WorldSignal) : option WorldState :=
  match s, sig with
  | notfound, create => Some creating
  | notfound, check => Some checking
  | checking, up => Some running
  | checking, down => Some stopped
  | checking, fail => Some notfound
  | creating, down => Some stopped
  | creating, fail => Some notfound
  | stopped, start => Some starting
  | stopped, check => Some checking
  | starting, up => Some running
  | starting, fail => Some stopped
  | running, stop => Some stopping
  | running, check => Some checking
  | stopping, down => Some stopped
  | stopping, fail => Some stopped
  | _, _ => None
  end.

(** New state of a cell: an empty cell keeps the state. *)
Definition next_state (s : WorldState) (sig : WorldSignal) : WorldState :=
  default s (table s sig).

(** Cells whose side effect sends further signals before the dispatch
    returns: enqueue and wait, run the reconciler, run [start]. *)
Definition sends_more (s : WorldState) (sig : WorldSignal) : bool :=
  match s, sig with
  | notfound, create | notfound, check
  | stopped, start | stopped, check
  | running, stop | running, check => true
  | _, _ => false
  end.

(** Health of the list of non-VPN services: empty, all up, at least one
    up, none up. *)
Definition health (ups : list bool) : WorldHealth.t :=
  match ups with
  | [] => WorldHealth.down
  | _ =>
      if bool_decide (Forall (fun b => b = true) ups) then WorldHealth.up
      else if bool_decide (Exists (fun b => b = true) ups) then WorldHealth.degraded
      else WorldHealth.down
  end.

(** Signal that the reconciler sends for a health. *)
Definition signal_of_health (h : WorldHealth.t) : WorldSignal :=
  match h with
  | WorldHealth.up | WorldHealth.degraded => up
  | WorldHealth.down => down
  end.



End Spec.

(* ===================================================================== *)
(** ** A small outside world to run the daemon on                         *)
(* ===================================================================== *)

Module Demo.

Import Crld.

Record cluster : Type := {
  files : gmap Path string;
  stacks : gmap string world_info
}.

Definition empty : cluster := {| files := ∅; stacks := ∅ |}.

Definition services (b : bool) : world_info :=
  [("wireguard", {| svc_up := Some true |}); ("chall1", {| svc_up := Some b |})].

Definition peer_path (config_dir event user : string) : Path :=
  [config_dir; "Events"; event; user; "peer"; "peer_" +:+ user +:+ ".conf"].

Definition stack_name (event user : string) : string :=
  "crl-" +:+ event +:+ "-" +:+ user.

Definition peer_text : string := "[Interface]".

(** [create] writes the peer config and deploys nothing yet; [start] and
    [stop] bring the services up and down; [delete] removes both. *)
Definition create : blocking_op cluster :=
  fun event worlds config_dir e =>
    match worlds with
    | [user] =>
        (Returns true,
         {| files := <[peer_path config_dir event user := peer_text]> (files e);
            stacks := <[stack_name event user := services false]> (stacks e) |})
    | _ => (Returns false, e)
    end.

Definition set_up (b : bool) : blocking_op cluster :=
  fun event worlds config_dir e =>
    match worlds with
    | [user] =>
        (Returns true,
         {| files := files e;
            stacks := <[stack_name event user := services b]> (stacks e) |})
    | _ => (Returns false, e)
    end.

Definition delete : blocking_op cluster :=
  fun event worlds config_dir e =>
    match worlds with
    | [user] =>
        (Returns true,
         {| files := base.delete (peer_path config_dir event user) (files e);
            stacks := base.delete (stack_name event user) (stacks e) |})
    | _ => (Returns false, e)
    end.

(** An operation that raises. *)
Definition broken : blocking_op cluster := fun _ _ _ e => (Raises "boom", e).

Definition vips (e : cluster) (event user : string) : option (list (string * string)) :=
  match stacks e !! stack_name event user with
  | Some _ => Some [("internal", "10.0.0.2")]
  | None => None
  end.

#[export] Instance outside : Outside := {|
  Env := cluster;
  read_file := fun e p => files e !! p;
  inspect := fun e _ name => default [] (stacks e !! name);
  cmd_create := create;
  cmd_start := set_up true;
  cmd_stop := set_up false;
  cmd_delete := delete;
  wireguard_vips := vips
|}.

(** The same world with a [start] that raises. *)
Definition outside_broken_start : Outside := {|
  Env := cluster;
  read_file := fun e p => files e !! p;
  inspect := fun e _ name => default [] (stacks e !! name);
  cmd_create := create;
  cmd_start := broken;
  cmd_stop := set_up false;
  cmd_delete := delete;
  wireguard_vips := vips
|}.

Definition boot (e : cluster) : World (outside := outside) :=
  {| world_state := ∅; running_configdir := "/srv"; log := []; env := e |}.

Definition boot_broken_start (e : cluster) : World (outside := outside_broken_start) :=
  @Build_World outside_broken_start ∅ "/srv" [] e.

Definition request (event user : string) : Request :=
  {| match_info_event := event; match_info_user := user |}.

(** A world in a given state, with or without a peer config on disk. *)
Definition world_in (s : WorldState) (config : option string) : World (outside := outside) :=
  {| world_state := {[ ("demo", "alice") := s ]};
     running_configdir := "/srv";
     log := [];
     env := {| files := match config with
                        | Some c => {[ peer_path "/srv" "demo" "alice" := c ]}
                        | None => ∅
                        end;
               stacks := {[ stack_name "demo" "alice" := services true ]} |} |}.

(** The daemon after a restart: the state map is empty, the peer config of
    a world is on disk, and of its services only the VPN gateway is up. *)
Definition restarted : World (outside := outside) :=
  {| world_state := ∅;
     running_configdir := "/srv";
     log := [];
     env := {| files := {[ peer_path "/srv" "demo" "alice" := peer_text ]};
               stacks := {[ stack_name "demo" "alice" := services false ]} |} |}.

(** A world in state [checking] whose stack the orchestrator does not
    know: the adapter answers with an empty record. *)
Definition lost_world : World (outside := outside) :=
  {| world_state := {[ ("demo", "alice") := checking ]};
     running_configdir := "/srv";
     log := [];
     env := empty |}.

End Demo.

(* ===================================================================== *)
(** ** crld/crld.py: the executor and the exceptions it catches           *)
(* ===================================================================== *)

Module Executor.

Import Crld.

(** Python's exceptions, as far as [except Exception] tells them apart:
    the instances of [Exception], and the instances of [BaseException]
    that are not instances of [Exception] ([SystemExit],
    [KeyboardInterrupt], [asyncio.CancelledError], [GeneratorExit]).
    [msg] is the text of the exception. *)
Inductive exn : Type :=
| Exception (msg : string)
| BaseExceptionOnly (msg : string).

(** What the awaited operation gives to the coroutine: the worker thread
    hands over the value returned, or whatever was raised. *)
Inductive op_outcome : Type :=
| OpReturns (res : bool)
| OpRaises (ex : exn).

Section Executor.

Context {outside : Outside}.

(** A blocking operation, called with [event], [worlds] and
    [config_dir]. *)
Definition operation : Type :=
  string -> list string -> string -> Env -> op_outcome * Env.

(** Coroutines that may let an exception of either kind out.  [NoFuel] is
    [Crld.OutOfFuel], the model's bound on nested dispatches. *)
Inductive outcome (A : Type) : Type :=
| Finished (a : A) (w : World)
| Propagated (ex : exn) (w : World)
| NoFuel.
Arguments Finished {A} a w.
Arguments Propagated {A} ex w.
Arguments NoFuel {A}.

Definition Co (A : Type) : Type := World -> outcome A.

Definition ret {A} (a : A) : Co A := fun w => Finished a w.

Definition bind {A B} (m : Co A) (k : A -> Co B) : Co B :=
  fun w =>
    match m w with
    | Finished a w' => k a w'
    | Propagated ex w' => Propagated ex w'
    | NoFuel => NoFuel
    end.

(** The coroutines of [Crld] raise what [except Exception] catches. *)
Definition lift {A} (m : M A) : Co A :=
  fun w =>
    match m w with
    | Done a w' => Finished a w'
    | Raised msg w' => Propagated (Exception msg) w'
    | OutOfFuel => NoFuel
    end.

(** [try: body / except Exception as e: handler e]: an exception that is
    not an instance of [Exception] is not caught. *)
Definition try_except {A} (body : Co A) (handler : string -> Co A) : Co A :=
  fun w =>
    match body w with
    | Propagated (Exception msg) w' => handler msg w'
    | r => r
    end.

Definition dispatcher : Type := string -> string -> WorldSignal -> Co unit.

(** [await loop.run_in_executor(None, partial(op, event=event,
    worlds=[user], config_dir=running_configdir))]: what the operation
    raised in the worker thread is raised again where it is awaited. *)
Definition run_in_executor (op : operation) (event user : string) : Co bool :=
  fun w =>
    match op event [user] (running_configdir w) (env w) with
    | (OpReturns res, e') => Finished res (with_env e' w)
    | (OpRaises ex, e') => Propagated ex (with_env e' w)
    end.

(** [log.exception(f"exception caught: {e}")]. *)
Definition log_exception (msg : string) : Co unit :=
  lift (log_info (LogException msg)).

(** [if sig: await user_fsm(event, user, sig)]. *)
Definition send (fsm : dispatcher) (event user : string) (sig : option WorldSignal)
  : Co unit :=
  match sig with
  | Some s => fsm event user s
  | None => ret tt
  end.

Definition call_fsm_blocking (fsm : dispatcher) (event user : string)
    (op : operation) (ok fail : option WorldSignal) : Co unit :=
  try_except
    (bind (run_in_executor op event user) (fun res =>
       if res then send fsm event user ok else send fsm event user fail))
    (fun msg =>
       bind (log_exception msg) (fun _ => send fsm event user fail)).

(** The FSM that the executor dispatches to: [Crld.user_fsm], whose own
    four commands are those of [Outside]. *)
Definition user_fsm (fuel : nat) : dispatcher :=
  fun event user signal => lift (Crld.user_fsm fuel event user signal).

(** An operation of [Crld], which raises instances of [Exception] only. *)
Definition of_blocking_op (op : blocking_op Env) : operation :=
  fun event worlds config_dir e =>
    match op event worlds config_dir e with
    | (Returns res, e') => (OpReturns res, e')
    | (Raises msg, e') => (OpRaises (Exception msg), e')
    end.

End Executor.

Arguments Finished {outside A} a w.
Arguments Propagated {outside A} ex w.
Arguments NoFuel {outside A}.

End Executor.

Module DemoExecutor.

Import Crld.

(** An operation that ends in [sys.exit(1)]: it raises [SystemExit], whose
    text is [1]. *)
Definition sys_exit : Executor.operation (outside := Demo.outside) :=
  fun _ _ _ e => (Executor.OpRaises (Executor.BaseExceptionOnly "1"), e).

(** An operation that raises a [RuntimeError]. *)
Definition runtime_error : Executor.operation (outside := Demo.outside) :=
  fun _ _ _ e => (Executor.OpRaises (Executor.Exception "boom"), e).

End DemoExecutor.

(* ===================================================================== *)
(** ** More of crld/crld.py: what a run leaves behind                     *)
(* ===================================================================== *)

Module CrldRuns.

Import Crld.

#[local] Open Scope list_scope.

Section Runs.

Context `{Outside}.

(** The world after [run_in_executor] on [op], the exception logged when
    the operation raised: what [call_fsm_blocking] hands to the FSM. *)
Definition after_op (op : blocking_op Env) (event user : string) (w : World) : World :=
  match op event [user] (running_configdir w) (env w) with
  | (Returns _, env') => with_env env' w
  | (Raises ex, env') => with_log (log w ++ [LogException ex]) (with_env env' w)
  end.

(** Truth value of what an operation gave back: a raise counts as a
    failure. *)
Definition truthy_result (r : op_result) : bool :=
  match r with
  | Returns true => true
  | _ => false
  end.

(** Signals of the reconciliation: [check] and the two it answers with. *)
Definition reconciling (sig : WorldSignal) : bool :=
  match sig with
  | check | up | down => true
  | _ => false
  end.

(** Did the operation return a truthy value? *)
Definition succeeded (op : blocking_op Env) (event user : string) (w : World) : bool :=
  match op event [user] (running_configdir w) (env w) with
  | (Returns true, _) => true
  | _ => false
  end.

(** States in which no operation is under way. *)
Definition settled (s : WorldState) : bool :=
  match s with
  | notfound | stopped | running => true
  | checking | creating | starting | stopping => false
  end.

(** [chain event user s l]: the transition lines [l] all belong to the
    world, each starts in the state the one before it ended in, the first
    starts in [s]; the result is the state the last one ends in. *)
Fixpoint chain (event user : string) (s : WorldState) (l : list transition)
  : option WorldState :=
  match l with
  | [] => Some s
  | (e, u, old, new, _) :: l' =>
      if bool_decide (e = event /\ u = user /\ old = s)
      then chain event user new l'
      else None
  end.

(** The state that the reconciler gives a world: [running] when some
    non-VPN service is up, [stopped] otherwise. *)
Definition reconciled (event user : string) (w : World) : WorldState :=
  match determine_world_health event user w with
  | Some WorldHealth.down => stopped
  | Some _ => running
  | None => notfound
  end.

(** The signal that the reconciler sends. *)
Definition reconcile_signal (event user : string) (w : World) : WorldSignal :=
  match determine_world_health event user w with
  | Some WorldHealth.down => down
  | Some _ => up
  | None => fail
  end.

(** The world that one dispatch leaves behind, written out cell by cell:
    the state write, the operation that the side effect runs, and the
    write of the signal that the operation's result sends. *)
Definition dispatched (event user : string) (sig : WorldSignal) (w : World) : World :=
  match state_of w event user, sig with
  | notfound, create =>
      let w1 := write event user creating sig w in
      let w2 := after_op cmd_create event user w1 in
      if succeeded cmd_create event user w1
      then write event user stopped down w2
      else write event user notfound fail (after_op cmd_delete event user w2)
  | notfound, check | stopped, check | running, check =>
      let w1 := write event user checking sig w in
      write event user (reconciled event user w1) (reconcile_signal event user w1) w1
  | stopped, start =>
      let w1 := write event user starting sig w in
      let w2 := after_op cmd_start event user w1 in
      if succeeded cmd_start event user w1
      then write event user running up w2
      else write event user stopped fail w2
  | running, stop =>
      let w1 := write event user stopping sig w in
      let w2 := after_op cmd_stop event user w1 in
      write event user stopped
        (if succeeded cmd_stop event user w1 then down else fail) w2
  | creating, fail =>
      write event user notfound fail (after_op cmd_delete event user w)
  | s, _ => write event user (Spec.next_state s sig) sig w
  end.

(** The world that the integrity check leaves behind. *)
Definition integrity_checked (event user : string) (w : World) : World :=
  if (path_exists (get_config_path event user w) w
      && bool_decide (state_of w event user = notfound))
     || (negb (path_exists (get_config_path event user w) w)
         && bool_decide (state_of w event user <> notfound))
  then dispatched event user check w
  else touch event user w.

(** [evolves event user w w']: from [w] to [w'] only this world has moved:
    the configuration directory and the state of every other world are the
    same, and the transition lines added to the log are a chain for this
    world from its state in [w] to its state in [w']. *)
Definition evolves (event user : string) (w w' : World) : Prop :=
  running_configdir w' = running_configdir w
  /\ (forall e' u', (e', u') <> (event, user) -> state_of w' e' u' = state_of w e' u')
  /\ exists added,
      transitions (log w') = transitions (log w) ++ added
      /\ chain event user (state_of w event user) added = Some (state_of w' event user).

(** The worlds that the handlers leave behind. *)
Definition created (event user : string) (w : World) : World :=
  let w1 := integrity_checked event user w in
  let w2 := if bool_decide (state_of w1 event user = notfound)
            then dispatched event user create w1 else w1 in
  if bool_decide (state_of w2 event user = stopped)
  then dispatched event user start w2 else w2.

Definition reset_done (event user : string) (w : World) : World :=
  let w1 := integrity_checked event user w in
  let w2 := if bool_decide (state_of w1 event user = running)
            then dispatched event user stop w1 else w1 in
  if bool_decide (state_of w2 event user = stopped)
  then dispatched event user start w2 else w2.

(** The fields of the status body for a state. *)
Definition status_fields (event user : string) (w : World) : list (string * string) :=
  match state_of w event user, determine_world_health event user w with
  | running, Some h => [("state", "running"); ("health", health_name h)]%string
  | s, _ => [("state", state_name s)]%string
  end.

End Runs.

End CrldRuns.

(* ===================================================================== *)
(** ** More of crl/helpers.py                                             *)
(* ===================================================================== *)

Module HelpersMore.

(** [check_url]: up to 60 attempts, one second apart.  [reachable x] tells
    whether the attempt number [x] gets an answer ([httpx.get] does not
    raise).  The result comes with the number of attempts made. *)
Fixpoint check_url_loop (reachable : nat -> bool) (x remaining : nat) : bool * nat :=
  match remaining with
  | O => (false, x)
  | S remaining' =>
      if reachable x then (true, S x)
      else check_url_loop reachable (S x) remaining'
  end.

Definition check_url (reachable : nat -> bool) : bool * nat :=
  check_url_loop reachable 0 60.

(** [str.startswith]. *)
Fixpoint startswith (s p : string) {struct p} : bool :=
  match p, s with
  | EmptyString, _ => true
  | String c p', String d s' => Ascii.eqb c d && startswith s' p'
  | String _ _, EmptyString => false
  end.

Fixpoint drop (n : nat) (s : string) : string :=
  match n, s with
  | O, _ => s
  | S n', String _ s' => drop n' s'
  | S _, EmptyString => EmptyString
  end.

(** [str.removeprefix]. *)
Definition removeprefix (s p : string) : string :=
  if startswith s p then drop (String.length p) s else s.

(** The part of [s] before the last [c], when [c] occurs in [s]. *)
Fixpoint before_last (c : ascii) (s : string) : option string :=
  match s with
  | EmptyString => None
  | String d s' =>
      match before_last c s' with
      | Some r => Some (String d r)
      | None => if Ascii.eqb d c then Some EmptyString else None
      end
  end.

(** [s.rsplit(".", 1)[0]]. *)
Definition rsplit_dot_head (s : string) : string :=
  default s (before_last "."%char s).

(** [get_services], per task line: the short name of the service of a
    task, [service["Name"].removeprefix(f"{name}_").rsplit(".", 1)[0]]. *)
Definition servicename (name task_name : string) : string :=
  rsplit_dot_head (removeprefix task_name (name +:+ "_")).

End HelpersMore.

(* ===================================================================== *)
(** ** More demo worlds                                                   *)
(* ===================================================================== *)

Module DemoMore.

Import Crld.

(** The demo world with a [create] that raises. *)
Definition outside_broken_create : Outside := {|
  Env := Demo.cluster;
  read_file := fun e p => Demo.files e !! p;
  inspect := fun e _ name => default [] (Demo.stacks e !! name);
  cmd_create := Demo.broken;
  cmd_start := Demo.set_up true;
  cmd_stop := Demo.set_up false;
  cmd_delete := Demo.delete;
  wireguard_vips := Demo.vips
|}.

Definition boot_broken_create : World (outside := outside_broken_create) :=
  @Build_World outside_broken_create ∅ "/srv" [] Demo.empty.

End DemoMore.

(* ===================================================================== *)
(** ** crl/crl.py: the commands that the daemon runs                      *)
(* ===================================================================== *)

Module Crl.

Import Crld.

#[local] Open Scope list_scope.

Section Commands.

(** The file system and the orchestrator, as the commands see them.
    [names] lists the entries of a directory (none when it is not there);
    [is_dir] is [Path.is_dir].  [read_yaml] is the helper of that name: the
    parsed file, or nothing when the file is missing or is not YAML;
    [cfg_truthy] is the truth value of a parsed file (an empty mapping is
    falsy); [ctf_external_url] is the lookup
    [event_config['x-event']['ctf-external-url']], which raises when a key
    is missing.  [crlw_start], [crlw_stop] and [crlw_delete] are the
    functions of [crl.world], whose source is not with the commands': they
    return a truth value or raise.  [rmtree] is [shutil.rmtree]. *)
Variable Env : Type.
Variable names : Env -> Path -> list string.
Variable is_dir : Env -> Path -> bool.
Variable Cfg : Type.
Variable read_yaml : Env -> Path -> option Cfg.
Variable cfg_truthy : Cfg -> bool.
Variable ctf_external_url : Cfg -> option string.
Variables crlw_start crlw_stop crlw_delete : Path -> string -> Env -> op_result * Env.
Variable rmtree : Path -> Env -> option string * Env.

(** A name that the pattern [[!.]*] of [glob] matches: its first character
    is not a dot. *)
Definition visible (name : string) : bool :=
  match name with
  | EmptyString => false
  | String c _ => negb (Ascii.eqb c "."%char)
  end.

(** [[d.name for d in path.glob("[!.]*") if d.is_dir()]]. *)
Definition subdirs (e : Env) (path : Path) : list string :=
  List.filter (fun name => visible name && is_dir e (path ++ [name])) (names e path).

Definition list_events (config_dir : string) (e : Env) : list string :=
  subdirs e [config_dir; "Events"]%string.

Definition list_worlds (config_dir event : string) (e : Env) : list string :=
  subdirs e [config_dir; "Events"; event]%string.

(** The loop of [world_op]: worlds that are not directories are skipped;
    what [func] returns is dropped; what it raises ends the loop. *)
Fixpoint world_op_loop (func : Path -> string -> Env -> op_result * Env)
    (event_path : Path) (event : string) (ws : list string) (e : Env)
  : op_result * Env :=
  match ws with
  | [] => (Returns true, e)
  | w :: ws' =>
      let world_path := event_path ++ [w] in
      if negb (is_dir e world_path)
      then world_op_loop func event_path event ws' e
      else
        match func world_path ("crl-" +:+ event +:+ "-" +:+ w)%string e with
        | (Returns _, e') => world_op_loop func event_path event ws' e'
        | (Raises ex, e') => (Raises ex, e')
        end
  end.

Definition world_op (func : Path -> string -> Env -> op_result * Env)
    (event : string) (worlds : list string) (config_dir : string) (e : Env)
  : op_result * Env :=
  let event_path := [config_dir; "Events"; event]%string in
  let ws := if nonempty worlds then worlds else list_worlds config_dir event e in
  world_op_loop func event_path event ws e.

(** What [event_op] gives back: the event config when the event was found,
    or the exception that [func] raised. *)
Inductive event_result : Type :=
| Found (cfg : Cfg)
| NotFound
| EventRaised (ex : string).

Definition event_op (func : Path -> string -> Env -> op_result * Env)
    (event config_dir : string) (e : Env) : event_result * Env :=
  let event_path := [config_dir; "Events"; event]%string in
  if is_dir e event_path
  then
    match read_yaml e (event_path ++ ["docker-compose.yml"]%string) with
    | Some cfg =>
        if cfg_truthy cfg
        then match func event_path ("crl-" +:+ event)%string e with
             | (Returns _, e') => (Found cfg, e')
             | (Raises ex, e') => (EventRaised ex, e')
             end
        else (NotFound, e)
    | None => (NotFound, e)
    end
  else (NotFound, e).

Definition cmd_start : blocking_op Env :=
  fun event worlds config_dir e =>
    if negb (nonempty worlds)
    then
      match event_op crlw_start event config_dir e with
      | (Found cfg, e') =>
          match ctf_external_url cfg with
          | Some _ => (Returns true, e')
          | None => (Raises "KeyError", e')
          end
      | (NotFound, e') => (Returns true, e')
      | (EventRaised ex, e') => (Raises ex, e')
      end
    else
      match world_op crlw_start event worlds config_dir e with
      | (Returns _, e') => (Returns true, e')
      | (Raises ex, e') => (Raises ex, e')
      end.

Definition cmd_stop : blocking_op Env :=
  fun event worlds config_dir e =>
    if negb (nonempty worlds)
    then
      match event_op crlw_stop event config_dir e with
      | (EventRaised ex, e') => (Raises ex, e')
      | (_, e') => (Returns true, e')
      end
    else
      match world_op crlw_stop event worlds config_dir e with
      | (Returns _, e') => (Returns true, e')
      | (Raises ex, e') => (Raises ex, e')
      end.

Definition cmd_delete : blocking_op Env :=
  fun event worlds config_dir e =>
    if negb (nonempty worlds)
    then
      match event_op crlw_stop event config_dir e with
      | (EventRaised ex, e') => (Raises ex, e')
      | (_, e') =>
          match rmtree [config_dir; "Events"; event]%string e' with
          | (None, e'') => (Returns true, e'')
          | (Some ex, e'') => (Raises ex, e'')
          end
      end
    else
      match world_op crlw_delete event worlds config_dir e with
      | (Returns _, e') => (Returns true, e')
      | (Raises ex, e') => (Raises ex, e')
      end.

(** The daemon on top of these commands: what it needs besides them. *)
Variable read_file : Env -> Path -> option string.
Variable inspect : Env -> Path -> string -> world_info.
Variable cmd_create : blocking_op Env.
Variable wireguard_vips : Env -> string -> string -> option (list (string * string)).

Definition daemon : Outside := {|
  Crld.Env := Env;
  Crld.read_file := read_file;
  Crld.inspect := inspect;
  Crld.cmd_create := cmd_create;
  Crld.cmd_start := cmd_start;
  Crld.cmd_stop := cmd_stop;
  Crld.cmd_delete := cmd_delete;
  Crld.wireguard_vips := wireguard_vips
|}.

(** [get_worlds] of the daemon: every world directory of every event. *)
Definition get_worlds (w : World (outside := daemon)) : list (string * string) :=
  flat_map (fun e => map (fun u => (e, u)) (list_worlds (running_configdir w) e (env w)))
    (list_events (running_configdir w) (env w)).

(** [init_fsm]: the integrity checks of all the worlds found; [gather] runs
    them, here one after the other. *)
Fixpoint gather (coros : list (M (outside := daemon) unit)) : M (outside := daemon) unit :=
  match coros with
  | [] => ret tt
  | c :: coros' => bind c (fun _ => gather coros')
  end.

Definition init_fsm (fuel : nat) : M (outside := daemon) unit :=
  fun w =>
    gather (map (fun eu => check_fsm_integrity (user_fsm fuel) (fst eu) (snd eu))
              (get_worlds w)) w.

(** The state that start-up gives a world: from the peer config and the
    health of the stack. *)
Definition hydrated (event user : string) (w : World (outside := daemon)) : WorldState :=
  if path_exists (get_config_path event user w) w
  then CrldRuns.reconciled event user w
  else notfound.

(** While start-up runs, every world is still [notfound] or already in the
    state that start-up gives it, and the outside world is the one that the
    daemon started in. *)
Definition hydrating (w0 w : World (outside := daemon)) : Prop :=
  env w = env w0
  /\ running_configdir w = running_configdir w0
  /\ forall e u, state_of w e u = notfound \/ state_of w e u = hydrated e u w0.

End Commands.

End Crl.

(* ===================================================================== *)
(** ** A small disk for the commands and for start-up                     *)
(* ===================================================================== *)

Module DemoCrl.

Import Crld.

#[local] Open Scope list_scope.

(** Directories, files with their contents, and the stacks that are up. *)
Record disk : Type := {
  dirs : list Path;
  texts : list (Path * string);
  up_stacks : list string
}.

(** The entry of [p] that [d] is, when [d] is directly under [p]. *)
Definition child_of (p d : Path) : option string :=
  if decide (List.firstn (length p) d = p)
  then match List.skipn (length p) d with
       | [name] => Some name
       | _ => None
       end
  else None.

Definition names (e : disk) (p : Path) : list string :=
  omap (child_of p) (dirs e ++ map fst (texts e)).

Definition is_dir (e : disk) (p : Path) : bool := bool_decide (p ∈ dirs e).

Definition read_file (e : disk) (p : Path) : option string :=
  snd <$> List.find (fun pt => bool_decide (fst pt = p)) (texts e).

Definition inspect (e : disk) (_ : Path) (name : string) : world_info :=
  if bool_decide (name ∈ up_stacks e)
  then [("wireguard", {| svc_up := Some true |}); ("chall1", {| svc_up := Some true |})]%string
  else [].

(** A [crlw.start] that fails without raising, and one that raises. *)
Definition quiet_failure : Path -> string -> disk -> op_result * disk :=
  fun _ _ e => (Returns false, e).

Definition loud_failure : Path -> string -> disk -> op_result * disk :=
  fun _ _ e => (Raises "boom", e).

Definition fine : Path -> string -> disk -> op_result * disk :=
  fun _ _ e => (Returns true, e).

Definition daemon (start : Path -> string -> disk -> op_result * disk) : Outside :=
  Crl.daemon disk names is_dir unit (fun _ _ => None) (fun _ => true) (fun _ => None)
    start fine fine (fun _ e => (None, e)) read_file inspect
    (fun _ _ _ e => (Returns true, e)) (fun _ _ _ => None).

Definition events : Path := ["/srv"; "Events"]%string.

(** Two world directories and a hidden one; only [alice] has a peer config,
    and her stack is up. *)
Definition disk0 : disk := {|
  dirs := [events ++ ["demo"]; events ++ ["demo"; "alice"]; events ++ ["demo"; "bobby"];
           events ++ ["demo"; ".cache"]];
  texts := [(events ++ ["demo"; "alice"; "peer"; "peer_alice.conf"], "[Interface]")];
  up_stacks := ["crl-demo-alice"]
|}.

Definition boot (start : Path -> string -> disk -> op_result * disk)
  : World (outside := daemon start) :=
  @Build_World (daemon start) ∅ "/srv" [] disk0.

Definition stopped_alice (start : Path -> string -> disk -> op_result * disk)
  : World (outside := daemon start) :=
  @Build_World (daemon start) {[ ("demo", "alice")%string := stopped ]} "/srv" [] disk0.

End DemoCrl.

(* ===================================================================== *)
(** ** crl/helpers.py: strip_docker_compose_options                       *)
(* ===================================================================== *)

Module Compose.

#[local] Open Scope list_scope.

Section Strip.

(** The values of the options of a service, with Python's truth value:
    [None], [False], [0], an empty string, list or mapping are falsy. *)
Variable V : Type.
Variable truthy : V -> bool.

(** The keys that are popped from every service. *)
Definition invalid_keys : list string :=
  ["build"; "include"; "env_file"; "restart"; "depends_on"; "links"]%string.

(** [service.pop(k, None)] for the six keys. *)
Definition pop_invalid (service : gmap string V) : gmap string V :=
  fold_left (fun s k => delete k s) invalid_keys service.

(** [for k in keys: if not service[k]: service.pop(k, None)]. *)
Definition drop_falsy_loop (keys : list string) (service : gmap string V)
  : gmap string V :=
  fold_left
    (fun s k =>
       match s !! k with
       | Some v => if truthy v then s else delete k s
       | None => s
       end)
    keys service.

(** The body of the loop over the services, for one service. *)
Definition strip_service (service : gmap string V) : gmap string V :=
  let service := pop_invalid service in
  drop_falsy_loop (map fst (map_to_list service)) service.

(** [for name in names: ...; if not service: services.pop(name, None)]. *)
Definition strip_services_loop (names : list string)
    (services : gmap string (gmap string V)) : gmap string (gmap string V) :=
  fold_left
    (fun svcs name =>
       match svcs !! name with
       | Some service =>
           let service := strip_service service in
           if decide (service = ∅) then delete name svcs
           else <[name := service]> svcs
       | None => svcs
       end)
    names services.

Definition strip_services (services : gmap string (gmap string V))
  : gmap string (gmap string V) :=
  strip_services_loop (map fst (map_to_list services)) services.

(** A compose file: its [services] section, when it has one, and the rest. *)
Record config (R : Type) : Type := {
  services : option (gmap string (gmap string V));
  rest : R
}.
Arguments services {R} c.
Arguments rest {R} c.

Definition strip_docker_compose_options {R} (c : config R) : config R :=
  match services c with
  | Some svcs => {| services := Some (strip_services svcs); rest := rest c |}
  | None => c
  end.

End Strip.

Arguments services {V R} c.
Arguments rest {V R} c.
Arguments Build_config {V R} services rest.
Arguments strip_docker_compose_options V truthy {R} c.

End Compose.


(* ===================================================================== *)
(** * Properties                                                          *)
(* ===================================================================== *)

(** ** Name validation *)

Module HelpersFacts.

Import Helpers.

#[local] Arguments String.append : simpl nomatch.

Lemma length_append (a b : string) :
  String.length (a +:+ b) = String.length a + String.length b.
Proof. induction a as [|c a IH]; simpl; [reflexivity | now rewrite IH]. Qed.

Lemma at_eol_iff (s : string) :
  Re.at_eol s = true <-> s = EmptyString \/ s = newline.
Proof.
  destruct s as [|c [|d s]]; simpl.
  - intuition.
  - split.
    + intros Hc%Ascii.eqb_eq. rewrite Hc. now right.
    + intros [H|H]; [discriminate|]. injection H as ->. reflexivity.
  - split; [discriminate|]. intros [H|H]; discriminate.
Qed.

(** [[A-Za-z0-9]+] followed by [k]: a non-empty run of letters and digits,
    then a rest that [k] accepts. *)
Lemma match_plus_alnum (k : string -> bool) (s : string) :
  Re.match_plus Re.class_alnum k s = true <->
  exists body rest, s = body +:+ rest /\ body <> EmptyString /\
                    all_alnum body = true /\ k rest = true.
Proof.
  split.
  - induction s as [|c s IH]; simpl; [discriminate|].
    intros [Hc [H|H]%orb_prop]%andb_prop.
    + destruct (IH H) as (body & rest & -> & _ & Hb & Hk).
      exists (String c body), rest. simpl. rewrite Hc, Hb. repeat split; congruence.
    + exists (String c EmptyString), s. simpl. rewrite Hc. repeat split; congruence.
  - intros (body & rest & -> & Hne & Hb & Hk).
    induction body as [|c body IH]; [congruence|].
    simpl in *. apply andb_prop in Hb as [Hc Hb]. rewrite Hc. simpl.
    destruct body as [|d body].
    + simpl. rewrite Hk. apply orb_true_r.
    + rewrite IH; [reflexivity | discriminate | exact Hb].
Qed.

(** What the configured pattern, with its two [$], accepts. *)
Lemma allowed_regex_iff (s : string) :
  Re.re_match Config.USER_ALLOWED_REGEX s = true <->
  exists body, body <> EmptyString /\ all_alnum body = true /\
               (s = body \/ s = body +:+ newline).
Proof.
  unfold Re.re_match, Config.USER_ALLOWED_REGEX. simpl Re.match_here.
  rewrite match_plus_alnum. split.
  - intros (body & rest & -> & Hne & Hb & Hk).
    apply andb_prop in Hk as [Hk _]. apply at_eol_iff in Hk.
    exists body. repeat split; try assumption.
    destruct Hk as [-> | ->]; [left | right; reflexivity].
    clear. induction body; simpl; congruence.
  - intros (body & Hne & Hb & [-> | ->]).
    + exists body, EmptyString. repeat split; try assumption.
      clear. induction body; simpl; congruence.
    + exists body, newline. repeat split; assumption.
Qed.

Lemma contains_append (c : ascii) (a b : string) :
  contains c (a +:+ b) = contains c a || contains c b.
Proof.
  induction a as [|d a IH]; simpl; [reflexivity|].
  rewrite IH. apply orb_assoc.
Qed.


Lemma validate_name_unfold (name : string) :
  validate_name name =
  if Re.re_match Config.USER_ALLOWED_REGEX name
     && (4 <=? String.length name)%nat && (String.length name <=? 32)%nat
  then Some (lower name) else None.
Proof.
  unfold validate_name, Config.USER_MAX_LEN, Config.USER_MIN_LEN,
    Config.USER_CASE_SENSITIVE.
  rewrite !Nat.ltb_antisym.
  destruct (Re.re_match _ name), (4 <=? String.length name)%nat,
    (String.length name <=? 32)%nat; reflexivity.
Qed.


Lemma lower_char_not_upper (c : ascii) :
  Re.in_range "A" "Z" (lower_char c) = false.
Proof.
  destruct c as [[] [] [] [] [] [] [] []]; reflexivity.
Qed.

Lemma lower_no_upper (s : string) : no_upper (lower s) = true.
Proof.
  induction s as [|c s IH]; simpl; [reflexivity|].
  now rewrite lower_char_not_upper, IH.
Qed.

Lemma length_lower (s : string) : String.length (lower s) = String.length s.
Proof. induction s as [|c s IH]; simpl; [reflexivity | now rewrite IH]. Qed.




End HelpersFacts.

Module HelpersClaims.

Import Helpers HelpersFacts.

#[local] Arguments String.append : simpl nomatch.

(** C10: some accepted names hold a character that is neither a letter
    nor a digit.  Any run of 1 to 31 letters and digits followed by one
    final newline, of total length at least 4, passes [validate_name]
    (no [ValueError]) and is returned lower-cased, newline included: the
    [$] of the pattern also matches just before a final newline. *)
Theorem validate_name_accepts_final_newline (body : string) :
  all_alnum body = true ->
  1 <= String.length body <= 31 ->
  4 <= String.length (body +:+ newline) ->
  contains "010"%char (body +:+ newline) = true
  /\ Re.class_alnum "010"%char = false
  /\ validate_name (body +:+ newline) = Some (lower (body +:+ newline)).
Proof.
  intros Ha [Hlo Hhi] Hlen. split; [|split].
  - rewrite contains_append. simpl. apply orb_true_r.
  - reflexivity.
  - rewrite validate_name_unfold.
    assert (Re.re_match Config.USER_ALLOWED_REGEX (body +:+ newline) = true) as ->.
    { apply allowed_regex_iff. exists body. repeat split; [|assumption|now right].
      intros ->. simpl in Hlo. lia. }
    assert (String.length (body +:+ newline) <= 32) as Hhi'.
    { rewrite length_append. simpl. lia. }
    apply Nat.leb_le in Hlen, Hhi'. rewrite Hlen, Hhi'. reflexivity.
Qed.

Lemma validate_name_accepts_final_newline_witness :
  (all_alnum "abcd" = true
   /\ 1 <= String.length "abcd" <= 31
   /\ 4 <= String.length ("abcd" +:+ newline))
  /\ validate_name ("abcd" +:+ newline) = Some (lower ("abcd" +:+ newline)).
Proof.
  split.
  - split; [reflexivity | simpl; lia].
  - apply (validate_name_accepts_final_newline "abcd");
      [reflexivity | simpl; lia | simpl; lia].
Defined.

End HelpersClaims.

(** ** Port allocation *)

Module PortdFacts.

Import Portd.

Section Loop.

Variable kernel : nat -> positive.

(** If the [n]-th next bind gives a port outside the blacklist, the loop
    stops within [n + 2] tests, on a port outside it: the port it started
    with or one that the kernel gave. *)
Lemma handle_loop_finds (bl : gset Z) (n : nat) :
  forall (port : Z) (binds : nat),
    (Z.pos (kernel (binds + n)) ∉ bl) ->
    exists p,
      (p ∉ bl) /\ (p = port \/ exists j, p = Z.pos (kernel j)) /\
      forall fuel, n + 2 <= fuel -> handle_loop kernel fuel bl port binds = Some p.
Proof.
  induction n as [|n IH]; intros port binds Hout.
  - rewrite Nat.add_0_r in Hout.
    destruct (decide (port ∈ bl)) as [Hin|Hnin].
    + exists (Z.pos (kernel binds)). split; [assumption|]. split; [right; eauto|].
      intros [|[|fuel]] Hf; try lia. simpl.
      destruct (decide (port ∈ bl)); [|contradiction].
      destruct (decide (Z.pos (kernel binds) ∈ bl)); [contradiction|reflexivity].
    + exists port. split; [assumption|]. split; [now left|].
      intros [|fuel] Hf; try lia. simpl.
      destruct (decide (port ∈ bl)); [contradiction|reflexivity].
  - destruct (decide (port ∈ bl)) as [Hin|Hnin].
    + destruct (IH (Z.pos (kernel binds)) (S binds)) as (p & Hp & Hsrc & Hrun).
      { replace (S binds + n) with (binds + S n) by lia. exact Hout. }
      exists p. split; [assumption|]. split.
      * right. destruct Hsrc as [Heq|Hj]; [exists binds; exact Heq | exact Hj].
      * intros [|fuel] Hf; try lia. simpl.
        destruct (decide (port ∈ bl)); [|contradiction].
        apply Hrun. lia.
    + exists port. split; [assumption|]. split; [now left|].
      intros [|fuel] Hf; try lia. simpl.
      destruct (decide (port ∈ bl)); [contradiction|reflexivity].
Qed.

(** C8: if some bind of the kernel eventually gives a port outside the
    supplied blacklist, the handler terminates (every large enough bound on
    the loop gives the same answer) and answers with a positive port that
    is not in the blacklist. *)
Theorem handle_answers_outside_blacklist (query : list Z) (n : nat) :
  (Z.pos (kernel n) ∉ query) ->
  exists port,
    (0 < port)%Z /\ (port ∉ query) /\
    forall fuel, n + 2 <= fuel -> handle kernel fuel query = Some port.
Proof.
  intros Hout. unfold handle.
  set (bl := ({[(-1)%Z]} ∪ list_to_set query : gset Z)).
  destruct (handle_loop_finds bl n (-1)%Z 0) as (p & Hp & Hsrc & Hrun).
  { simpl. subst bl.
    rewrite elem_of_union, elem_of_singleton, elem_of_list_to_set.
    intros [Heq|Hin]; [discriminate | contradiction]. }
  exists p. split; [|split].
  - destruct Hsrc as [Heq|[j Heq]]; [|rewrite Heq; reflexivity].
    exfalso. apply Hp. rewrite Heq. subst bl.
    apply elem_of_union_l, elem_of_singleton. reflexivity.
  - intros Hin. apply Hp. subst bl.
    apply elem_of_union_r, elem_of_list_to_set. exact Hin.
  - exact Hrun.
Qed.

End Loop.

(** A kernel that hands out 1, 2, 3, ... and the blacklist 1, 2, 3. *)
Lemma handle_answers_outside_blacklist_witness :
  (Z.pos (Pos.of_succ_nat 3) ∉ [1; 2; 3]%Z)
  /\ exists port,
      (0 < port)%Z /\ (port ∉ [1; 2; 3]%Z) /\
      forall fuel, 3 + 2 <= fuel ->
                   handle Pos.of_succ_nat fuel [1; 2; 3]%Z = Some port.
Proof.
  assert (Hout : Z.pos (Pos.of_succ_nat 3) ∉ [1; 2; 3]%Z).
  { intros Hin. repeat (apply elem_of_cons in Hin as [Hin|Hin]; [discriminate|]).
    inversion Hin. }
  split; [exact Hout|].
  exact (handle_answers_outside_blacklist Pos.of_succ_nat [1; 2; 3]%Z 3 Hout).
Defined.

Example handle_blacklist_123 :
  handle Pos.of_succ_nat 10 [1; 2; 3]%Z = Some 4%Z.
Proof. vm_compute. reflexivity. Qed.

End PortdFacts.

(** ** The daemon *)

Module CrldFacts.

Import Crld.

#[local] Open Scope list_scope.

Section Facts.

Context `{Outside}.

Lemma transitions_app (l1 l2 : list log_record) :
  transitions (l1 ++ l2) = transitions l1 ++ transitions l2.
Proof.
  induction l1 as [|[e u o n s|ex] l1 IH]; simpl; [reflexivity| |assumption].
  now rewrite IH.
Qed.

Lemma get_fsm_state_run (e u : string) (w : World) :
  get_fsm_state e u w = Done (state_of w e u) (touch e u w).
Proof.
  unfold get_fsm_state, touch, state_of.
  destruct (world_state w !! (e, u)) as [s|] eqn:Hs; simpl; [|reflexivity].
  rewrite insert_id by assumption. destruct w; reflexivity.
Qed.

Lemma bind_get_fsm_state {A} (k : WorldState -> M A) (e u : string) (w : World) :
  bind (get_fsm_state e u) k w = k (state_of w e u) (touch e u w).
Proof. unfold bind. now rewrite get_fsm_state_run. Qed.

Lemma touch_tracked (e u : string) (w : World) :
  tracked e u w -> touch e u w = w.
Proof.
  intros [s Hs]. unfold touch, state_of. rewrite Hs. simpl.
  rewrite insert_id by assumption. destruct w; reflexivity.
Qed.

Lemma state_of_touch (e u e' u' : string) (w : World) :
  state_of (touch e u w) e' u' = state_of w e' u'.
Proof.
  destruct (decide ((e, u) = (e', u'))) as [Heq|Hne].
  - injection Heq as <- <-. unfold touch, state_of at 1. simpl.
    rewrite lookup_insert_eq. reflexivity.
  - unfold touch, state_of at 1 3. simpl.
    rewrite lookup_insert_ne by assumption. reflexivity.
Qed.

Lemma write_touch (e u : string) (new : WorldState) (sig : WorldSignal) (w : World) :
  write e u new sig (touch e u w) = write e u new sig w.
Proof.
  unfold write. rewrite state_of_touch. unfold touch. simpl.
  rewrite insert_insert_eq. reflexivity.
Qed.

Lemma set_fsm_state_run (e u : string) (new : WorldState) (sig : WorldSignal)
    (w : World) :
  set_fsm_state e u new sig w = Done tt (write e u new sig w).
Proof.
  unfold set_fsm_state, bind. rewrite get_fsm_state_run. unfold log_info.
  rewrite <- (write_touch e u new sig w). unfold write, with_log, with_world_state.
  simpl. rewrite state_of_touch. reflexivity.
Qed.

Lemma state_of_write (e u : string) (new : WorldState) (sig : WorldSignal) (w : World) :
  state_of (write e u new sig w) e u = new.
Proof. unfold state_of, write. simpl. now rewrite lookup_insert_eq. Qed.

Lemma state_of_write_ne (e u e' u' : string) (new : WorldState) (sig : WorldSignal)
    (w : World) :
  (e, u) <> (e', u') -> state_of (write e u new sig w) e' u' = state_of w e' u'.
Proof.
  intros Hne. unfold state_of, write. simpl. now rewrite lookup_insert_ne.
Qed.

Lemma tracked_write (e u : string) (new : WorldState) (sig : WorldSignal) (w : World) :
  tracked e u (write e u new sig w).
Proof. unfold tracked, write. simpl. rewrite lookup_insert_eq. eauto. Qed.

Lemma transitions_write (e u : string) (new : WorldState) (sig : WorldSignal)
    (w : World) :
  transitions (log (write e u new sig w)) =
  transitions (log w) ++ [(e, u, state_of w e u, new, sig)].
Proof. unfold write. simpl. now rewrite transitions_app. Qed.

Lemma state_of_with_env (env' : Env) (w : World) (e u : string) :
  state_of (with_env env' w) e u = state_of w e u.
Proof. reflexivity. Qed.

Lemma state_of_with_log (l : list log_record) (w : World) (e u : string) :
  state_of (with_log l w) e u = state_of w e u.
Proof. reflexivity. Qed.

(** *** The executor *)

Lemma call_fsm_blocking_run (fsm : dispatcher) (e u : string) (op : blocking_op Env)
    (ok fl : option WorldSignal) (w : World) :
  call_fsm_blocking fsm e u op ok fl w =
  match op e [u] (running_configdir w) (env w) with
  | (Returns res, env') =>
      match send fsm e u (if res then ok else fl) (with_env env' w) with
      | Raised ex w' => send fsm e u fl (with_log (log w' ++ [LogException ex]) w')
      | r => r
      end
  | (Raises ex, env') =>
      send fsm e u fl (with_log (log w ++ [LogException ex]) (with_env env' w))
  end.
Proof.
  unfold call_fsm_blocking, try_except, bind, run_in_executor, log_info.
  destruct (op e [u] (running_configdir w) (env w)) as [[[]|ex] env']; reflexivity.
Qed.

(** *** One dispatch, after the state has been read *)

Lemma user_fsm_S (n : nat) (e u : string) (sig : WorldSignal) (w : World) :
  user_fsm (S n) e u sig w =
  let fsm := user_fsm n in
  match state_of w e u, sig with
  | notfound, create => worker_create fsm e u (write e u creating sig w)
  | notfound, check | stopped, check | running, check =>
      checking_state fsm e u (write e u checking sig w)
  | creating, fail =>
      match call_fsm_blocking fsm e u cmd_delete None None (touch e u w) with
      | Done _ w' => Done tt (write e u notfound sig w')
      | r => r
      end
  | checking, fail => Done tt (write e u notfound sig w)
  | creating, down | checking, down | starting, fail
  | stopping, down | stopping, fail => Done tt (write e u stopped sig w)
  | checking, up | starting, up => Done tt (write e u running sig w)
  | stopped, start =>
      call_fsm_blocking fsm e u cmd_start (Some up) (Some fail)
        (write e u starting sig w)
  | running, stop => worker_stop fsm e u (write e u stopping sig w)
  | s, _ => Done tt (write e u s sig w)
  end.
Proof.
  cbn [user_fsm]. unfold bind at 1. rewrite get_fsm_state_run.
  destruct (state_of w e u), sig; cbn zeta; unfold bind;
    rewrite ?set_fsm_state_run, ?write_touch; try reflexivity.
  destruct (call_fsm_blocking _ _ _ _ _ _ _) as [[] w'| |];
    rewrite ?set_fsm_state_run; reflexivity.
Qed.

(** *** Signals sent by side effects: [up], [down], [fail] *)

Lemma user_fsm_terminal (n : nat) (e u : string) (sig : WorldSignal) (w : World) :
  terminal sig = true ->
  exists w',
    user_fsm (S n) e u sig w = Done tt w'
    /\ state_of w' e u = Spec.next_state (state_of w e u) sig
    /\ transitions (log w') =
       transitions (log w)
       ++ [(e, u, state_of w e u, Spec.next_state (state_of w e u) sig, sig)]
    /\ running_configdir w' = running_configdir w
    /\ tracked e u w'.
Proof.
  intros Hsig. rewrite user_fsm_S. cbn zeta.
  destruct (state_of w e u) eqn:Hs, sig; try discriminate Hsig;
    try (eexists; split; [reflexivity|];
         rewrite state_of_write, transitions_write, Hs;
         repeat split; auto using tracked_write).
  rewrite call_fsm_blocking_run. simpl.
  destruct (cmd_delete e [u] (running_configdir w) (env w)) as [[res|ex] env'].
  - assert (send (user_fsm n) e u (if res then None else None)
              (with_env env' (touch e u w)) = Done tt (with_env env' (touch e u w)))
      as -> by (destruct res; reflexivity).
    eexists; split; [reflexivity|].
    rewrite state_of_write, transitions_write, state_of_with_env, state_of_touch, Hs.
    repeat split; auto using tracked_write.
  - simpl. eexists; split; [reflexivity|].
    rewrite state_of_write, transitions_write, state_of_with_log, state_of_with_env,
      state_of_touch, Hs.
    simpl. rewrite transitions_app, app_nil_r.
    repeat split; auto using tracked_write.
Qed.

Lemma call_fsm_blocking_sends (n : nat) (e u : string) (op : blocking_op Env)
    (sok sfl : WorldSignal) (w : World) :
  terminal sok = true -> terminal sfl = true ->
  exists w' sg,
    (sg = sok \/ sg = sfl)
    /\ call_fsm_blocking (user_fsm (S n)) e u op (Some sok) (Some sfl) w = Done tt w'
    /\ state_of w' e u = Spec.next_state (state_of w e u) sg
    /\ transitions (log w') =
       transitions (log w)
       ++ [(e, u, state_of w e u, Spec.next_state (state_of w e u) sg, sg)]
    /\ running_configdir w' = running_configdir w
    /\ tracked e u w'.
Proof.
  intros Hok Hfl. rewrite call_fsm_blocking_run.
  destruct (op e [u] (running_configdir w) (env w)) as [[res|ex] env'].
  - set (sg := if res then sok else sfl).
    assert (Hsg : terminal sg = true) by (subst sg; destruct res; assumption).
    destruct (user_fsm_terminal n e u sg (with_env env' w) Hsg)
      as (w' & Hrun & Hst & Hlog & Hdir & Htr).
    exists w', sg. split; [subst sg; destruct res; auto|].
    replace (send (user_fsm (S n)) e u (if res then Some sok else Some sfl)
               (with_env env' w))
      with (user_fsm (S n) e u sg (with_env env' w))
      by (subst sg; destruct res; reflexivity).
    rewrite Hrun. auto.
  - destruct (user_fsm_terminal n e u sfl
                (with_log (log w ++ [LogException ex]) (with_env env' w)) Hfl)
      as (w' & Hrun & Hst & Hlog & Hdir & Htr).
    exists w', sfl. split; [auto|]. split; [exact Hrun|].
    rewrite Hst, Hlog. simpl. rewrite transitions_app, app_nil_r. auto.
Qed.

(** *** The reconciler *)

Lemma all_true_iff (st : list bool) : all st = true <-> Forall (fun b => b = true) st.
Proof.
  unfold all. rewrite forallb_forall, Forall_forall. unfold id.
  split; intros Hall b Hb; apply Hall; [apply list_elem_of_In|apply list_elem_of_In in Hb];
    exact Hb.
Qed.

Lemma any_true_iff (st : list bool) : any st = true <-> Exists (fun b => b = true) st.
Proof.
  unfold any. rewrite existsb_exists, Exists_exists. unfold id.
  split; intros (b & Hb & Hbt); exists b; split; try assumption;
    [apply list_elem_of_In|apply list_elem_of_In in Hb]; exact Hb.
Qed.

(** The chain of tests computes the health of the specification; its
    last line is never reached. *)
Lemma health_of_status_spec (st : list bool) :
  health_of_status st = Some (Spec.health st).
Proof.
  unfold health_of_status, Spec.health.
  destruct st as [|b st]; [reflexivity|]. cbn [nonempty negb].
  destruct (all (b :: st)) eqn:Hall.
  - apply all_true_iff in Hall. rewrite bool_decide_eq_true_2 by assumption.
    reflexivity.
  - rewrite bool_decide_eq_false_2
      by (intros Hf; apply all_true_iff in Hf; congruence).
    destruct (any (b :: st)) eqn:Hany.
    + apply any_true_iff in Hany. rewrite bool_decide_eq_true_2 by assumption.
      reflexivity.
    + rewrite bool_decide_eq_false_2
        by (intros Hf; apply any_true_iff in Hf; congruence).
      reflexivity.
Qed.

Lemma checking_state_signal (fsm : dispatcher) (e u : string) (w : World) :
  exists h,
    determine_world_health e u w = Some h
    /\ checking_state fsm e u w = fsm e u (Spec.signal_of_health h) w.
Proof.
  unfold checking_state, bind, get_health, determine_world_health.
  rewrite health_of_status_spec. eexists; split; [reflexivity|].
  destruct (Spec.health _); reflexivity.
Qed.

Lemma checking_state_sends (n : nat) (e u : string) (w : World) :
  exists w' sg,
    (sg = up \/ sg = down)
    /\ checking_state (user_fsm (S n)) e u w = Done tt w'
    /\ state_of w' e u = Spec.next_state (state_of w e u) sg
    /\ transitions (log w') =
       transitions (log w)
       ++ [(e, u, state_of w e u, Spec.next_state (state_of w e u) sg, sg)]
    /\ running_configdir w' = running_configdir w
    /\ tracked e u w'.
Proof.
  destruct (checking_state_signal (user_fsm (S n)) e u w) as (h & _ & ->).
  assert (Hsg : terminal (Spec.signal_of_health h) = true) by (destruct h; reflexivity).
  destruct (user_fsm_terminal n e u _ w Hsg) as (w' & Hrun & Hrest).
  exists w', (Spec.signal_of_health h). split; [destruct h; auto|]. auto.
Qed.

(** *** Any dispatch *)

(** What one dispatch does, given fuel for the signal and for the signal
    that its side effect sends: it returns, its own log line is the next
    transition line, and at most one more line follows, for [up], [down]
    or [fail]. *)
Lemma user_fsm_run (n : nat) (e u : string) (sig : WorldSignal) (w : World) :
  exists w' rest,
    user_fsm (S (S n)) e u sig w = Done tt w'
    /\ transitions (log w') =
       transitions (log w)
       ++ (e, u, state_of w e u, Spec.next_state (state_of w e u) sig, sig) :: rest
    /\ running_configdir w' = running_configdir w
    /\ tracked e u w'
    /\ (if Spec.sends_more (state_of w e u) sig
        then exists sg,
            terminal sg = true
            /\ rest = [(e, u, Spec.next_state (state_of w e u) sig,
                        Spec.next_state (Spec.next_state (state_of w e u) sig) sg, sg)]
            /\ state_of w' e u =
               Spec.next_state (Spec.next_state (state_of w e u) sig) sg
        else rest = []
             /\ state_of w' e u = Spec.next_state (state_of w e u) sig).
Proof.
  destruct (terminal sig) eqn:Hsig.
  - destruct (user_fsm_terminal (S n) e u sig w Hsig)
      as (w' & Hrun & Hst & Hlog & Hdir & Htr).
    exists w', []. repeat split; try assumption.
    destruct (state_of w e u), sig; try discriminate Hsig; simpl; auto.
  - rewrite user_fsm_S. cbn zeta. unfold worker_create, worker_stop.
    destruct (state_of w e u) eqn:Hs, sig; try discriminate Hsig;
      try (eexists; exists []; (split; [reflexivity|]);
           rewrite state_of_write, transitions_write, Hs;
           repeat split; auto using tracked_write; fail);
      match goal with
      | |- context [checking_state _ _ _ ?w1] =>
          destruct (checking_state_sends n e u w1)
            as (w' & sg & Hsg & Hrun & Hst & Hlog & Hdir & Htr)
      | |- context [call_fsm_blocking _ _ _ ?op (Some ?a) (Some ?b) ?w1] =>
          destruct (call_fsm_blocking_sends n e u op a b w1 eq_refl eq_refl)
            as (w' & sg & Hsg & Hrun & Hst & Hlog & Hdir & Htr)
      end;
      rewrite state_of_write in Hst, Hlog; rewrite transitions_write, Hs in Hlog;
      exists w'; eexists;
      (split; [exact Hrun|]);
      (split; [rewrite Hlog, <- app_assoc; reflexivity|]);
      (split; [exact Hdir|]); (split; [exact Htr|]);
      exists sg; (split; [destruct Hsg as [->| ->]; reflexivity|]);
      (split; [reflexivity | exact Hst]).
Qed.

Lemma tracked_touch (e u : string) (w : World) : tracked e u (touch e u w).
Proof. unfold tracked, touch. simpl. rewrite lookup_insert_eq. eauto. Qed.

Lemma user_fsm_touch (n : nat) (e u : string) (sig : WorldSignal) (w : World) :
  user_fsm n e u sig (touch e u w) = user_fsm n e u sig w.
Proof.
  destruct n as [|n]; [reflexivity|].
  cbn [user_fsm]. rewrite !bind_get_fsm_state.
  rewrite state_of_touch, (touch_tracked e u (touch e u w)) by apply tracked_touch.
  reflexivity.
Qed.

(** *** Nothing raises into the event loop *)

Lemma call_fsm_blocking_never_raises (fsm : dispatcher) :
  never_raises fsm ->
  forall e u op ok fl w ex w', call_fsm_blocking fsm e u op ok fl w <> Raised ex w'.
Proof.
  intros Hfsm e u op ok fl w ex w'. rewrite call_fsm_blocking_run.
  assert (Hsend : forall o w0, send fsm e u o w0 <> Raised ex w').
  { intros [sg|] w0; simpl; [apply Hfsm | discriminate]. }
  destruct (op e [u] (running_configdir w) (env w)) as [[res|ex0] env'];
    [|apply Hsend].
  destruct (send fsm e u (if res then ok else fl) (with_env env' w)) eqn:Hs;
    [discriminate | apply Hsend | discriminate].
Qed.

Lemma user_fsm_never_raises (n : nat) : never_raises (user_fsm n).
Proof.
  induction n as [|n IH]; intros e u sig w ex w'; [discriminate|].
  rewrite user_fsm_S. cbn zeta. unfold worker_create, worker_stop.
  pose proof (call_fsm_blocking_never_raises (user_fsm n) IH) as Hcall.
  destruct (state_of w e u), sig; try discriminate; try apply Hcall;
    try (destruct (checking_state_signal (user_fsm n) e u
                     (write e u checking check w)) as (h & _ & ->); apply IH).
  destruct (call_fsm_blocking _ _ _ _ _ _ _) eqn:Hd;
    [discriminate | exfalso; exact (Hcall _ _ _ _ _ _ _ _ Hd) | discriminate].
Qed.

(** *** The integrity check *)

Lemma check_fsm_integrity_run (fsm : dispatcher) (e u : string) (w : World) :
  check_fsm_integrity fsm e u w =
  let cfg := path_exists (get_config_path e u w) w in
  if (cfg && bool_decide (state_of w e u = notfound))
     || (negb cfg && bool_decide (state_of w e u <> notfound))
  then fsm e u check (touch e u w)
  else Done tt (touch e u w).
Proof.
  unfold check_fsm_integrity, bind. rewrite get_fsm_state_run. cbn zeta.
  change (path_exists (get_config_path e u (touch e u w)) (touch e u w))
    with (path_exists (get_config_path e u w) w).
  destruct (path_exists _ w), (bool_decide (state_of w e u = notfound)) eqn:Hs;
    simpl; reflexivity.
Qed.

Lemma check_fsm_integrity_total (n : nat) (e u : string) (w : World) :
  exists w1,
    check_fsm_integrity (user_fsm (S (S n))) e u w = Done tt w1 /\ tracked e u w1.
Proof.
  rewrite check_fsm_integrity_run. cbn zeta. destruct (_ || _).
  - rewrite user_fsm_touch.
    destruct (user_fsm_run n e u check w) as (w' & rest & Hrun & _ & _ & Htr & _).
    eauto.
  - eauto using tracked_touch.
Qed.

Lemma tracked_of_state (e u : string) (w : World) :
  state_of w e u <> notfound -> tracked e u w.
Proof.
  unfold state_of, tracked. destruct (world_state w !! (e, u)); [eauto|].
  intros Hn. now contradiction Hn.
Qed.

(** *** Handlers *)

Lemma config_response_cases (c : option string) :
  config_response c =
  match c with
  | Some s => if bool_decide (s = ""%string)
              then {| status := 404; resp_body := NoBody |}
              else {| status := 200; resp_body := Text s |}
  | None => {| status := 404; resp_body := NoBody |}
  end.
Proof.
  destruct c as [s|]; [|reflexivity]. unfold config_response, truthy.
  destruct (bool_decide (s = ""%string)); reflexivity.
Qed.

Lemma world_create_body_run (n : nat) (e u : string) (w w1 w2 w3 : World) :
  check_fsm_integrity (user_fsm n) e u w = Done tt w1 ->
  tracked e u w1 ->
  (if bool_decide (state_of w1 e u = notfound)
   then user_fsm n e u create w1 else Done tt w1) = Done tt w2 ->
  tracked e u w2 ->
  (if bool_decide (state_of w2 e u = stopped)
   then user_fsm n e u start w2 else Done tt w2) = Done tt w3 ->
  world_create_body n e u w =
  Done (config_response (read_file (env w3) (get_config_path e u w3))) w3.
Proof.
  intros H1 Ht1 H2 Ht2 H3. unfold world_create_body.
  unfold bind at 1. rewrite H1.
  rewrite bind_get_fsm_state, (touch_tracked e u w1 Ht1).
  unfold bind at 1, when.
  destruct (bool_decide (state_of w1 e u = notfound)); [rewrite H2|].
  - rewrite bind_get_fsm_state, (touch_tracked e u w2 Ht2).
    unfold bind at 1.
    destruct (bool_decide (state_of w2 e u = stopped)); [rewrite H3|];
      [reflexivity|]. injection H3 as <-. reflexivity.
  - injection H2 as <-. unfold ret at 1.
    rewrite bind_get_fsm_state, (touch_tracked e u w1 Ht1).
    unfold bind at 1.
    destruct (bool_decide (state_of w1 e u = stopped)); [rewrite H3|];
      [reflexivity|]. injection H3 as <-. reflexivity.
Qed.

Lemma validate_world_args_ok (func : string -> string -> M Response) (req : Request)
    (e u : string) (w : World) :
  Helpers.validate_name (match_info_event req) = Some e ->
  Helpers.validate_name (match_info_user req) = Some u ->
  validate_world_args func req w = func e u w.
Proof. intros He Hu. unfold validate_world_args. now rewrite He, Hu. Qed.

End Facts.

End CrldFacts.

Module CrldClaims.

Import Crld CrldFacts.

#[local] Open Scope list_scope.

Section Claims.

Context `{Outside}.

(** C1: a dispatch through [user_fsm] returns, and the transition it
    logs goes from the current state to the entry of the transition
    table of the specification (the current state for an empty cell).
    For an empty cell nothing else happens and the state after the
    dispatch is the state before it.  For a filled cell without further
    signals the state after the dispatch is the entry; for the cells
    whose side effect sends a signal ([up], [down] or [fail]), that
    signal is dispatched from the entry, by the same table. *)
Theorem user_fsm_follows_table (n : nat) (e u : string) (sig : WorldSignal)
    (w : World) :
  exists w' rest,
    user_fsm (enough_fuel + n) e u sig w = Done tt w'
    /\ transitions (log w') =
       transitions (log w)
       ++ (e, u, state_of w e u, default (state_of w e u)
                                   (Spec.table (state_of w e u) sig), sig) :: rest
    /\ match Spec.table (state_of w e u) sig with
       | None => rest = [] /\ state_of w' e u = state_of w e u
       | Some s' =>
           if Spec.sends_more (state_of w e u) sig
           then exists sg,
               terminal sg = true
               /\ rest = [(e, u, s', Spec.next_state s' sg, sg)]
               /\ state_of w' e u = Spec.next_state s' sg
           else rest = [] /\ state_of w' e u = s'
       end.
Proof.
  destruct (user_fsm_run n e u sig w) as (w' & rest & Hrun & Hlog & _ & _ & Hcell).
  exists w', rest. split; [exact Hrun|]. split; [exact Hlog|].
  destruct (state_of w e u), sig; exact Hcell.
Qed.

(** C5: the integrity check reads the state and whether the peer config
    exists.  If the config exists and the state is [notfound], or the
    config is missing and the state is not [notfound], it does what one
    dispatch of [check] does, and [check] is dispatched exactly once;
    otherwise nothing is dispatched: the log, the outside world and the
    state of every world are as before. *)
Theorem check_fsm_integrity_dispatch (n : nat) (e u : string) (w : World) :
  exists w' added,
    check_fsm_integrity (user_fsm (enough_fuel + n)) e u w = Done tt w'
    /\ transitions (log w') = transitions (log w) ++ added
    /\ if (path_exists (get_config_path e u w) w
           && bool_decide (state_of w e u = notfound))
          || (negb (path_exists (get_config_path e u w) w)
              && bool_decide (state_of w e u <> notfound))
       then user_fsm (enough_fuel + n) e u check w = Done tt w'
            /\ count_signal check added = 1
       else added = [] /\ log w' = log w /\ env w' = env w
            /\ forall e' u', state_of w' e' u' = state_of w e' u'.
Proof.
  rewrite check_fsm_integrity_run. cbn zeta.
  destruct (_ || _).
  - rewrite user_fsm_touch.
    destruct (user_fsm_run n e u check w) as (w' & rest & Hrun & Hlog & _ & _ & Hcell).
    exists w'. eexists. split; [exact Hrun|]. split; [exact Hlog|].
    split; [exact Hrun|].
    destruct (Spec.sends_more (state_of w e u) check).
    + destruct Hcell as (sg & Hsg & -> & _).
      destruct sg; try discriminate Hsg; reflexivity.
    + destruct Hcell as [-> _]. reflexivity.
  - exists (touch e u w), []. split; [reflexivity|].
    split; [now rewrite app_nil_r|].
    repeat split. intros e' u'. apply state_of_touch.
Qed.

(** C9: the health determination always gives one of the three health
    values, never [None]; so the reconciler dispatches [up] or [down]
    and nothing else: it returns after one transition line whose signal
    is [up] or [down], and from [checking] the state it leaves is
    [running] or [stopped], never [notfound] by way of [fail]. *)
Theorem reconciler_never_sends_fail (n : nat) (e u : string) (w : World) :
  exists h w' t,
    determine_world_health e u w = Some h
    /\ checking_state (user_fsm (S n)) e u w = Done tt w'
    /\ transitions (log w') = transitions (log w) ++ [t]
    /\ (signal_of t = up \/ signal_of t = down)
    /\ signal_of t <> fail
    /\ match state_of w e u with
       | checking => state_of w' e u = running \/ state_of w' e u = stopped
       | _ => True
       end.
Proof.
  destruct (checking_state_signal (user_fsm (S n)) e u w) as (h & Hh & _).
  destruct (checking_state_sends n e u w)
    as (w' & sg & Hsg & Hrun & Hst & Hlog & _).
  exists h, w'. eexists. split; [exact Hh|]. split; [exact Hrun|].
  split; [exact Hlog|]. simpl. split; [exact Hsg|].
  split; [destruct Hsg as [-> | ->]; discriminate|].
  rewrite Hst. destruct Hsg as [-> | ->], (state_of w e u); simpl; auto.
Qed.

(** C4, as the code has it: the reconciler computes the health of the
    non-VPN services as the specification says (empty list: down; all
    up: up; at least one up: degraded; none up: down) and dispatches
    [up] for up and degraded and [down] for down.  When the adapter
    answers with an empty record the signal is [down]; [fail] is not
    among the signals it dispatches. *)
Theorem reconciler_health_and_signal (fsm : dispatcher) (e u : string) (w : World) :
  determine_world_health e u w =
    Some (Spec.health
            (services_status
               (inspect (env w) (get_world_path e u w)
                  ("crl-" +:+ e +:+ "-" +:+ u)%string)))
  /\ (exists h,
        determine_world_health e u w = Some h
        /\ checking_state fsm e u w = fsm e u (Spec.signal_of_health h) w
        /\ Spec.signal_of_health h <> fail)
  /\ match inspect (env w) (get_world_path e u w) ("crl-" +:+ e +:+ "-" +:+ u)%string
     with
     | [] => checking_state fsm e u w = fsm e u down w
     | _ :: _ => True
     end.
Proof.
  split; [|split].
  - unfold determine_world_health. apply health_of_status_spec.
  - destruct (checking_state_signal fsm e u w) as (h & Hh & Hrun).
    exists h. repeat split; try assumption. destruct h; discriminate.
  - destruct (checking_state_signal fsm e u w) as (h & Hh & Hrun).
    unfold determine_world_health in Hh.
    destruct (inspect _ _ _); [|exact I].
    rewrite health_of_status_spec in Hh. injection Hh as <-. exact Hrun.
Qed.

(** C2: for a request to create with valid names, the handler runs the
    integrity check; then, if the state is [notfound], it dispatches
    [create]; then, if the state is [stopped], it dispatches [start];
    then it answers from the peer config file as it is at that moment:
    200 with the contents when the file is there and not empty, 404 when
    the file is absent (or empty). *)
Theorem world_create_behaviour (n : nat) (req : Request) (e u : string) (w : World) :
  Helpers.validate_name (match_info_event req) = Some e ->
  Helpers.validate_name (match_info_user req) = Some u ->
  exists w1 w2 w3,
    check_fsm_integrity (user_fsm (enough_fuel + n)) e u w = Done tt w1
    /\ (if bool_decide (state_of w1 e u = notfound)
        then user_fsm (enough_fuel + n) e u create w1 else Done tt w1) = Done tt w2
    /\ (if bool_decide (state_of w2 e u = stopped)
        then user_fsm (enough_fuel + n) e u start w2 else Done tt w2) = Done tt w3
    /\ world_create (enough_fuel + n) req w =
       Done (match read_file (env w3) (get_config_path e u w3) with
             | Some c => if bool_decide (c = ""%string)
                         then {| status := 404; resp_body := NoBody |}
                         else {| status := 200; resp_body := Text c |}
             | None => {| status := 404; resp_body := NoBody |}
             end) w3.
Proof.
  intros He Hu. change (enough_fuel + n) with (S (S n)).
  destruct (check_fsm_integrity_total n e u w) as (w1 & H1 & Ht1).
  assert (exists w2,
             (if bool_decide (state_of w1 e u = notfound)
              then user_fsm (S (S n)) e u create w1 else Done tt w1)
             = Done tt w2 /\ tracked e u w2) as (w2 & H2 & Ht2).
  { destruct (bool_decide (state_of w1 e u = notfound)); [|eauto].
    destruct (user_fsm_run n e u create w1) as (w2 & ? & Hrun & _ & _ & Htr & _).
    eauto. }
  assert (exists w3,
             (if bool_decide (state_of w2 e u = stopped)
              then user_fsm (S (S n)) e u start w2 else Done tt w2)
             = Done tt w3) as (w3 & H3).
  { destruct (bool_decide (state_of w2 e u = stopped)); [|eauto].
    destruct (user_fsm_run n e u start w2) as (w3 & ? & Hrun & _).
    eauto. }
  exists w1, w2, w3. repeat split; try assumption.
  unfold world_create. rewrite (validate_world_args_ok _ req e u w He Hu).
  rewrite (world_create_body_run _ e u w w1 w2 w3 H1 Ht1 H2 Ht2 H3).
  now rewrite config_response_cases.
Qed.

(** C7, as the code has it: for a world in state [running] whose peer
    config file exists and is not empty, a replayed create request
    dispatches nothing at all (the process state, log included, is the
    one before the request, so the state is still [running]) and
    answers 200 with the contents of the file. *)
Theorem world_create_running_idempotent (n : nat) (req : Request) (e u c : string)
    (w : World) :
  Helpers.validate_name (match_info_event req) = Some e ->
  Helpers.validate_name (match_info_user req) = Some u ->
  state_of w e u = running ->
  read_file (env w) (get_config_path e u w) = Some c ->
  c <> ""%string ->
  world_create n req w = Done {| status := 200; resp_body := Text c |} w
  /\ state_of w e u = running.
Proof.
  intros He Hu Hs Hc Hne. split; [|exact Hs].
  assert (Htr : tracked e u w) by (apply tracked_of_state; congruence).
  unfold world_create. rewrite (validate_world_args_ok _ req e u w He Hu).
  rewrite (world_create_body_run n e u w w w w).
  - rewrite Hc, config_response_cases.
    now rewrite bool_decide_eq_false_2 by assumption.
  - rewrite check_fsm_integrity_run. cbn zeta.
    unfold path_exists. rewrite Hc, Hs. simpl.
    now rewrite touch_tracked.
  - exact Htr.
  - now rewrite Hs.
  - exact Htr.
  - now rewrite Hs.
Qed.


End Claims.

(** *** The theorems on the demo world *)

(** A fresh create on an empty root. *)
Lemma world_create_behaviour_witness :
  (Helpers.validate_name (match_info_event (Demo.request "demo" "alice")) = Some "demo"%string
   /\ Helpers.validate_name (match_info_user (Demo.request "demo" "alice"))
      = Some "alice"%string)
  /\ exists w1 w2 w3,
      check_fsm_integrity (user_fsm (enough_fuel + 0)) "demo" "alice"
        (Demo.boot Demo.empty) = Done tt w1
      /\ (if bool_decide (state_of w1 "demo" "alice" = notfound)
          then user_fsm (enough_fuel + 0) "demo" "alice" create w1 else Done tt w1)
         = Done tt w2
      /\ (if bool_decide (state_of w2 "demo" "alice" = stopped)
          then user_fsm (enough_fuel + 0) "demo" "alice" start w2 else Done tt w2)
         = Done tt w3
      /\ world_create (enough_fuel + 0) (Demo.request "demo" "alice")
           (Demo.boot Demo.empty) =
         Done (match read_file (env w3) (get_config_path "demo" "alice" w3) with
               | Some c => if bool_decide (c = ""%string)
                           then {| status := 404; resp_body := NoBody |}
                           else {| status := 200; resp_body := Text c |}
               | None => {| status := 404; resp_body := NoBody |}
               end) w3.
Proof.
  split.
  - split; reflexivity.
  - apply (world_create_behaviour 0 (Demo.request "demo" "alice") "demo" "alice"
             (Demo.boot Demo.empty)); reflexivity.
Defined.

Example fresh_create_scenario :
  match world_create enough_fuel (Demo.request "demo" "alice") (Demo.boot Demo.empty) with
  | Done r w' =>
      r = {| status := 200; resp_body := Text Demo.peer_text |}
      /\ state_of w' "demo" "alice" = running
      /\ transitions (log w') =
         [("demo", "alice", notfound, creating, create);
          ("demo", "alice", creating, stopped, down);
          ("demo", "alice", stopped, starting, start);
          ("demo", "alice", starting, running, up)]%string
  | _ => False
  end.
Proof. vm_compute. repeat split. Qed.

(** A create whose [start] raises: the exception is logged, [fail] takes
    the world back to [stopped], and the request is answered. *)
Example start_raises_scenario :
  match world_create (outside := Demo.outside_broken_start) enough_fuel
          (Demo.request "demo" "alice") (Demo.boot_broken_start Demo.empty) with
  | Done r w' =>
      status r = 200
      /\ state_of w' "demo" "alice" = stopped
      /\ log w' =
         [LogTransition "demo" "alice" notfound creating create;
          LogTransition "demo" "alice" creating stopped down;
          LogTransition "demo" "alice" stopped starting start;
          LogException "boom";
          LogTransition "demo" "alice" starting stopped fail]%string
  | _ => False
  end.
Proof. vm_compute. repeat split. Qed.

(** Status of a world that was never created. *)
Example status_missing_world :
  match world_status enough_fuel (Demo.request "demo" "bobby") (Demo.boot Demo.empty) with
  | Done r w' =>
      r = {| status := 200; resp_body := Json [("state", "notfound")]%string |}
      /\ log w' = []
  | _ => False
  end.
Proof. vm_compute. repeat split. Qed.

(** Status after a restart with only the VPN gateway up: the integrity
    check runs the reconciler, which finds no non-VPN service up. *)
Example status_after_restart :
  match world_status enough_fuel (Demo.request "demo" "alice") Demo.restarted with
  | Done r w' =>
      r = {| status := 200; resp_body := Json [("state", "stopped")]%string |}
      /\ transitions (log w') =
         [("demo", "alice", notfound, checking, check);
          ("demo", "alice", checking, stopped, down)]%string
  | _ => False
  end.
Proof. vm_compute. repeat split. Qed.

(** Reset of a running world: stop, then start again. *)
Example reset_running_world :
  match world_reset enough_fuel (Demo.request "demo" "alice")
          (Demo.world_in running (Some Demo.peer_text)) with
  | Done r w' =>
      r = {| status := 200;
             resp_body := Json [("state", "running"); ("health", "up")]%string |}
      /\ transitions (log w') =
         [("demo", "alice", running, stopping, stop);
          ("demo", "alice", stopping, stopped, down);
          ("demo", "alice", stopped, starting, start);
          ("demo", "alice", starting, running, up)]%string
  | _ => False
  end.
Proof. vm_compute. repeat split. Qed.

(** A replayed create on a running world with a peer config. *)
Lemma world_create_running_idempotent_witness :
  (Helpers.validate_name (match_info_event (Demo.request "demo" "alice")) = Some "demo"%string
   /\ Helpers.validate_name (match_info_user (Demo.request "demo" "alice"))
      = Some "alice"%string
   /\ state_of (Demo.world_in running (Some Demo.peer_text)) "demo" "alice" = running
   /\ read_file (env (Demo.world_in running (Some Demo.peer_text)))
        (get_config_path "demo" "alice" (Demo.world_in running (Some Demo.peer_text)))
      = Some Demo.peer_text
   /\ Demo.peer_text <> ""%string)
  /\ world_create 2 (Demo.request "demo" "alice")
       (Demo.world_in running (Some Demo.peer_text))
     = Done {| status := 200; resp_body := Text Demo.peer_text |}
         (Demo.world_in running (Some Demo.peer_text))
  /\ state_of (Demo.world_in running (Some Demo.peer_text)) "demo" "alice" = running.
Proof.
  assert (Hfile : read_file (env (Demo.world_in running (Some Demo.peer_text)))
                    (get_config_path "demo" "alice"
                       (Demo.world_in running (Some Demo.peer_text)))
                  = Some Demo.peer_text) by (vm_compute; reflexivity).
  assert (Hstate : state_of (Demo.world_in running (Some Demo.peer_text)) "demo" "alice"
                   = running) by (vm_compute; reflexivity).
  assert (Hne : Demo.peer_text <> ""%string) by discriminate.
  split.
  - repeat split; try assumption; reflexivity.
  - exact (world_create_running_idempotent 2 (Demo.request "demo" "alice")
             "demo" "alice" Demo.peer_text
             (Demo.world_in running (Some Demo.peer_text))
             eq_refl eq_refl Hstate Hfile Hne).
Defined.

(** C7, as stated, fails: the world is [running] and its peer config file
    exists, but the file is empty; the replayed create answers 404 with no
    body, not 200 with the contents. *)
Lemma world_create_running_empty_config :
  state_of (Demo.world_in running (Some ""%string)) "demo" "alice" = running
  /\ path_exists (get_config_path "demo" "alice" (Demo.world_in running (Some ""%string)))
       (Demo.world_in running (Some ""%string)) = true
  /\ world_create 2 (Demo.request "demo" "alice") (Demo.world_in running (Some ""%string))
     = Done {| status := 404; resp_body := NoBody |}
         (Demo.world_in running (Some ""%string))
  /\ world_create 2 (Demo.request "demo" "alice") (Demo.world_in running (Some ""%string))
     <> Done {| status := 200; resp_body := Text ""%string |}
          (Demo.world_in running (Some ""%string)).
Proof.
  assert (Hrun : world_create 2 (Demo.request "demo" "alice")
                   (Demo.world_in running (Some ""%string))
                 = Done {| status := 404; resp_body := NoBody |}
                     (Demo.world_in running (Some ""%string)))
    by (vm_compute; reflexivity).
  split; [vm_compute; reflexivity|].
  split; [vm_compute; reflexivity|].
  split; [exact Hrun|].
  rewrite Hrun. discriminate.
Qed.

(** C4, as stated, fails: the world is in [checking] and the adapter call
    fails, answering with an empty record; the reconciler dispatches
    [down], which leads to [stopped]; it does not dispatch [fail], which
    would lead to [notfound]. *)
Lemma reconciler_adapter_failure_sends_down :
  state_of Demo.lost_world "demo" "alice" = checking
  /\ inspect (env Demo.lost_world) (get_world_path "demo" "alice" Demo.lost_world)
       "crl-demo-alice" = []
  /\ match checking_state (user_fsm enough_fuel) "demo" "alice" Demo.lost_world with
     | Done _ w' =>
         transitions (log w') = [("demo", "alice", checking, stopped, down)]%string
         /\ count_signal fail (transitions (log w')) = 0
         /\ state_of w' "demo" "alice" = stopped
     | _ => False
     end.
Proof. vm_compute. repeat split. Qed.



End CrldClaims.

(* ===================================================================== *)
(** * Further properties                                                  *)
(* ===================================================================== *)

Module CrldRunFacts.

Import Crld CrldFacts CrldRuns.

#[local] Open Scope list_scope.

Section RunFacts.

Context `{Outside}.

Lemma state_of_after_op (op : blocking_op Env) (e u e' u' : string) (w : World) :
  state_of (after_op op e u w) e' u' = state_of w e' u'.
Proof.
  unfold after_op. destruct (op e [u] _ _) as [[res|ex] env']; reflexivity.
Qed.

Lemma configdir_after_op (op : blocking_op Env) (e u : string) (w : World) :
  running_configdir (after_op op e u w) = running_configdir w.
Proof.
  unfold after_op. destruct (op e [u] _ _) as [[res|ex] env']; reflexivity.
Qed.

Lemma transitions_after_op (op : blocking_op Env) (e u : string) (w : World) :
  transitions (log (after_op op e u w)) = transitions (log w).
Proof.
  unfold after_op. destruct (op e [u] _ _) as [[res|ex] env']; simpl;
    [reflexivity|]. now rewrite transitions_app, app_nil_r.
Qed.

Lemma env_after_op (op : blocking_op Env) (e u : string) (w : World) :
  env (after_op op e u w) = snd (op e [u] (running_configdir w) (env w)).
Proof.
  unfold after_op. destruct (op e [u] _ _) as [[res|ex] env']; reflexivity.
Qed.

(** The executor, with the dispatcher of the daemon: one call of the
    operation, then at most one dispatch. *)
Lemma call_fsm_blocking_eq (n : nat) (e u : string) (op : blocking_op Env)
    (ok fl : option WorldSignal) (w : World) :
  call_fsm_blocking (user_fsm n) e u op ok fl w =
  send (user_fsm n) e u (if succeeded op e u w then ok else fl) (after_op op e u w).
Proof.
  rewrite call_fsm_blocking_run. unfold succeeded, after_op.
  destruct (op e [u] (running_configdir w) (env w)) as [[[]|ex] env'];
    try reflexivity.
  - destruct (send (user_fsm n) e u ok (with_env env' w)) eqn:Hs; try reflexivity.
    exfalso. destruct ok as [sg|]; [|discriminate].
    exact (user_fsm_never_raises n _ _ _ _ _ _ Hs).
  - destruct (send (user_fsm n) e u fl (with_env env' w)) eqn:Hs; try reflexivity.
    exfalso. destruct fl as [sg|]; [|discriminate].
    exact (user_fsm_never_raises n _ _ _ _ _ _ Hs).
Qed.

Lemma after_op_touch (op : blocking_op Env) (e u : string) (w : World) :
  after_op op e u (touch e u w) = touch e u (after_op op e u w).
Proof.
  unfold after_op. simpl.
  destruct (op e [u] (running_configdir w) (env w)) as [[res|ex] env']; reflexivity.
Qed.

Lemma health_write (e u e' u' : string) (new : WorldState) (sig : WorldSignal) (w : World) :
  determine_world_health e' u' (write e u new sig w) = determine_world_health e' u' w.
Proof. reflexivity. Qed.

Lemma reconciled_cases (e u : string) (w : World) :
  exists h,
    determine_world_health e u w = Some h
    /\ reconcile_signal e u w = Spec.signal_of_health h
    /\ reconciled e u w = Spec.next_state checking (Spec.signal_of_health h).
Proof.
  destruct (checking_state_signal (fun _ _ _ w => Done tt w) e u w) as (h & Hh & _).
  exists h. unfold reconcile_signal, reconciled. rewrite Hh.
  destruct h; auto.
Qed.

Lemma checking_state_eq (n : nat) (e u : string) (w : World) :
  state_of w e u = checking ->
  checking_state (user_fsm (S n)) e u w =
  Done tt (write e u (reconciled e u w) (reconcile_signal e u w) w).
Proof.
  intros Hs. destruct (checking_state_signal (user_fsm (S n)) e u w) as (h & Hh & ->).
  unfold reconciled, reconcile_signal. rewrite Hh, user_fsm_S, Hs.
  destruct h; reflexivity.
Qed.

(** One dispatch, with fuel for the signal that its side effect sends,
    leaves [dispatched] behind. *)
Lemma user_fsm_eq (n : nat) (e u : string) (sig : WorldSignal) (w : World) :
  user_fsm (S (S n)) e u sig w = Done tt (dispatched e u sig w).
Proof.
  rewrite user_fsm_S. cbn zeta. unfold dispatched, worker_create, worker_stop.
  destruct (state_of w e u) eqn:Hs, sig; try reflexivity;
    rewrite ?call_fsm_blocking_eq, ?checking_state_eq by apply state_of_write;
    try reflexivity.
  - (* notfound, create *)
    destruct (succeeded cmd_create e u _); cbn [send];
      rewrite user_fsm_S, state_of_after_op, state_of_write; cbn zeta; [reflexivity|].
    rewrite call_fsm_blocking_eq.
    destruct (succeeded cmd_delete e u _); cbn [send ret];
      rewrite after_op_touch, write_touch; reflexivity.
  - (* creating, fail *)
    destruct (succeeded cmd_delete e u _); cbn [send ret];
      rewrite after_op_touch, write_touch; reflexivity.
  - (* stopped, start *)
    destruct (succeeded cmd_start e u _); cbn [send];
      rewrite user_fsm_S, state_of_after_op, state_of_write; reflexivity.
  - (* running, stop *)
    destruct (succeeded cmd_stop e u _); cbn [send];
      rewrite user_fsm_S, state_of_after_op, state_of_write; reflexivity.
Qed.

Lemma check_fsm_integrity_eq (n : nat) (e u : string) (w : World) :
  check_fsm_integrity (user_fsm (S (S n))) e u w = Done tt (integrity_checked e u w).
Proof.
  rewrite check_fsm_integrity_run. cbn zeta. unfold integrity_checked.
  destruct (_ || _); [|reflexivity].
  now rewrite user_fsm_touch, user_fsm_eq.
Qed.

Lemma succeeded_eq (op : blocking_op Env) (e u : string) (w : World) :
  succeeded op e u w = truthy_result (fst (op e [u] (running_configdir w) (env w))).
Proof.
  unfold succeeded. destruct (op e [u] _ _) as [[[]|ex] env']; reflexivity.
Qed.

Lemma env_integrity_checked (e u : string) (w : World) :
  env (integrity_checked e u w) = env w.
Proof.
  unfold integrity_checked, dispatched.
  destruct (_ || _); [|reflexivity]. destruct (state_of w e u); reflexivity.
Qed.

Lemma configdir_integrity_checked (e u : string) (w : World) :
  running_configdir (integrity_checked e u w) = running_configdir w.
Proof.
  unfold integrity_checked, dispatched.
  destruct (_ || _); [|reflexivity]. destruct (state_of w e u); reflexivity.
Qed.

(** The reconciler's state: [running] exactly when some non-VPN service
    is up. *)
Lemma reconciled_any (e u : string) (w : World) :
  reconciled e u w =
  if any (services_status
            (inspect (env w) (get_world_path e u w) ("crl-" +:+ e +:+ "-" +:+ u)%string))
  then running else stopped.
Proof.
  unfold reconciled, determine_world_health, health_of_status.
  destruct (services_status _) as [|b st]; [reflexivity|]. cbn [nonempty negb].
  destruct (all (b :: st)) eqn:Hall.
  - assert (any (b :: st) = true) as ->; [|reflexivity].
    unfold all, any in *. simpl in *. apply andb_prop in Hall as [Hb _].
    unfold id in Hb. now rewrite Hb.
  - destruct (any (b :: st)); reflexivity.
Qed.

Lemma reconcile_signal_reconciling (e u : string) (w : World) :
  reconciling (reconcile_signal e u w) = true.
Proof.
  destruct (reconciled_cases e u w) as (h & _ & -> & _). destruct h; reflexivity.
Qed.

(** The integrity check dispatches nothing but [check], [up] and [down]. *)
Lemma integrity_checked_signals (e u : string) (w : World) :
  exists added,
    transitions (log (integrity_checked e u w)) = transitions (log w) ++ added
    /\ forallb (fun t => reconciling (signal_of t)) added = true.
Proof.
  unfold integrity_checked, dispatched.
  destruct (_ || _); [|exists []; split; [now rewrite app_nil_r | reflexivity]].
  destruct (state_of w e u) eqn:Hs; cbn zeta;
    rewrite ?transitions_write, <- ?app_assoc; eexists; (split; [reflexivity|]);
    cbn; rewrite ?reconcile_signal_reconciling; reflexivity.
Qed.

(** *** Chains of transition lines *)

Lemma chain_app (e u : string) (s s1 : WorldState) (l1 l2 : list transition) :
  chain e u s l1 = Some s1 ->
  chain e u s (l1 ++ l2) = chain e u s1 l2.
Proof.
  revert s. induction l1 as [|[[[[e0 u0] old] new] sg] l1 IH]; intros s; simpl.
  - now intros [= ->].
  - destruct (bool_decide _); [apply IH | discriminate].
Qed.

Lemma chain_one (e u : string) (s new : WorldState) (sg : WorldSignal) :
  chain e u s [(e, u, s, new, sg)] = Some new.
Proof. simpl. now rewrite bool_decide_eq_true_2. Qed.

Lemma evolves_refl (e u : string) (w : World) : evolves e u w w.
Proof.
  split; [reflexivity|]. split; [reflexivity|].
  exists []. split; [now rewrite app_nil_r | reflexivity].
Qed.

Lemma evolves_trans (e u : string) (w1 w2 w3 : World) :
  evolves e u w1 w2 -> evolves e u w2 w3 -> evolves e u w1 w3.
Proof.
  intros (Hd1 & Ho1 & l1 & Hl1 & Hc1) (Hd2 & Ho2 & l2 & Hl2 & Hc2).
  split; [congruence|]. split.
  - intros e' u' Hne. rewrite Ho2, Ho1 by assumption. reflexivity.
  - exists (l1 ++ l2). split.
    + rewrite Hl2, Hl1. now rewrite app_assoc.
    + rewrite (chain_app _ _ _ _ _ _ Hc1). exact Hc2.
Qed.

Lemma evolves_touch (e u : string) (w : World) : evolves e u w (touch e u w).
Proof.
  split; [reflexivity|]. split; [intros; apply state_of_touch|].
  exists []. split; [now rewrite app_nil_r|]. simpl. now rewrite state_of_touch.
Qed.

Lemma evolves_after_op (op : blocking_op Env) (e u : string) (w : World) :
  evolves e u w (after_op op e u w).
Proof.
  split; [apply configdir_after_op|]. split; [intros; apply state_of_after_op|].
  exists []. split; [now rewrite transitions_after_op, app_nil_r|].
  simpl. now rewrite state_of_after_op.
Qed.

Lemma evolves_write (e u : string) (new : WorldState) (sg : WorldSignal) (w : World) :
  evolves e u w (write e u new sg w).
Proof.
  split; [reflexivity|]. split.
  - intros e' u' Hne. apply state_of_write_ne. congruence.
  - exists [(e, u, state_of w e u, new, sg)]. split; [apply transitions_write|].
    rewrite state_of_write. apply chain_one.
Qed.

Lemma evolves_dispatched (e u : string) (sig : WorldSignal) (w : World) :
  evolves e u w (dispatched e u sig w).
Proof.
  unfold dispatched.
  destruct (state_of w e u), sig; cbn zeta;
    repeat match goal with
           | |- evolves _ _ _ (if ?b then _ else _) => destruct b
           | |- evolves _ _ ?w ?w => apply evolves_refl
           | |- evolves _ _ _ (write _ _ _ _ ?w1) =>
               apply (evolves_trans _ _ _ w1); [|apply evolves_write]
           | |- evolves _ _ _ (after_op _ _ _ ?w1) =>
               apply (evolves_trans _ _ _ w1); [|apply evolves_after_op]
           end.
Qed.

Lemma tracked_dispatched (e u : string) (sig : WorldSignal) (w : World) :
  tracked e u (dispatched e u sig w).
Proof.
  unfold dispatched.
  destruct (state_of w e u), sig; cbn zeta;
    repeat match goal with
           | |- tracked _ _ (if ?b then _ else _) => destruct b
           end; apply tracked_write.
Qed.

Lemma evolves_integrity_checked (e u : string) (w : World) :
  evolves e u w (integrity_checked e u w).
Proof.
  unfold integrity_checked.
  destruct (_ || _); [apply evolves_dispatched | apply evolves_touch].
Qed.

Lemma tracked_integrity_checked (e u : string) (w : World) :
  tracked e u (integrity_checked e u w).
Proof.
  unfold integrity_checked.
  destruct (_ || _); [apply tracked_dispatched | apply tracked_touch].
Qed.

(** *** Settled states *)

Lemma reconciled_settled (e u : string) (w : World) :
  reconciled e u w = running \/ reconciled e u w = stopped.
Proof.
  destruct (reconciled_cases e u w) as (h & _ & _ & ->). destruct h; auto.
Qed.

Lemma settled_dispatched (e u : string) (sig : WorldSignal) (w : World) :
  settled (state_of w e u) = true ->
  settled (state_of (dispatched e u sig w) e u) = true.
Proof.
  unfold dispatched. intros Hs.
  destruct (state_of w e u) eqn:Hst, sig; try discriminate Hs; cbn zeta;
    repeat match goal with
           | |- context [if ?b then _ else _] => destruct b
           end;
    rewrite state_of_write; try reflexivity;
    match goal with
    | |- context [reconciled ?e ?u ?w1] =>
        destruct (reconciled_settled e u w1) as [-> | ->]; reflexivity
    end.
Qed.

Lemma settled_integrity_checked (e u : string) (w : World) :
  settled (state_of w e u) = true ->
  settled (state_of (integrity_checked e u w) e u) = true.
Proof.
  unfold integrity_checked. intros Hs.
  destruct (_ || _); [now apply settled_dispatched | now rewrite state_of_touch].
Qed.

(** *** Handlers *)

Lemma world_create_body_eq (n : nat) (e u : string) (w : World) :
  world_create_body (S (S n)) e u w =
  Done (config_response
          (read_file (env (created e u w)) (get_config_path e u (created e u w))))
       (created e u w).
Proof.
  unfold created. cbn zeta.
  set (w1 := integrity_checked e u w).
  set (w2 := if bool_decide (state_of w1 e u = notfound)
             then dispatched e u create w1 else w1).
  apply (world_create_body_run (S (S n)) e u w w1 w2).
  - apply check_fsm_integrity_eq.
  - apply tracked_integrity_checked.
  - subst w2. destruct (bool_decide _); [apply user_fsm_eq | reflexivity].
  - subst w2. destruct (bool_decide _);
      [apply tracked_dispatched | apply tracked_integrity_checked].
  - destruct (bool_decide (state_of w2 e u = stopped));
      [apply user_fsm_eq | reflexivity].
Qed.

Lemma world_status_response_eq (e u : string) (w : World) :
  tracked e u w ->
  world_status_response e u w =
  Done {| status := 200; resp_body := Json (status_fields e u w) |} w.
Proof.
  intros Htr. unfold world_status_response, status_fields.
  rewrite bind_get_fsm_state, (touch_tracked e u w Htr).
  unfold bind, get_health, ret.
  destruct (state_of w e u); cbn; reflexivity.
Qed.

Lemma world_status_body_eq (n : nat) (e u : string) (w : World) :
  world_status_body (S (S n)) e u w =
  Done {| status := 200;
          resp_body := Json (status_fields e u (integrity_checked e u w)) |}
       (integrity_checked e u w).
Proof.
  unfold world_status_body. unfold bind at 1. rewrite check_fsm_integrity_eq.
  apply world_status_response_eq, tracked_integrity_checked.
Qed.

Lemma world_config_body_eq (n : nat) (e u : string) (w : World) :
  world_config_body (S (S n)) e u w =
  Done (config_response
          (read_file (env (integrity_checked e u w))
             (get_config_path e u (integrity_checked e u w))))
       (integrity_checked e u w).
Proof.
  unfold world_config_body. unfold bind at 1. rewrite check_fsm_integrity_eq.
  reflexivity.
Qed.

Lemma world_reset_body_eq (n : nat) (e u : string) (w : World) :
  world_reset_body (S (S n)) e u w =
  Done {| status := 200; resp_body := Json (status_fields e u (reset_done e u w)) |}
       (reset_done e u w).
Proof.
  unfold world_reset_body, reset_done. cbn zeta.
  set (w1 := integrity_checked e u w).
  assert (Ht1 : tracked e u w1) by apply tracked_integrity_checked.
  unfold bind at 1. rewrite check_fsm_integrity_eq. fold w1.
  rewrite bind_get_fsm_state, (touch_tracked e u w1 Ht1).
  unfold bind at 1, when.
  set (w2 := if bool_decide (state_of w1 e u = running)
             then dispatched e u stop w1 else w1).
  assert (Ht2 : tracked e u w2).
  { subst w2. destruct (bool_decide _); [apply tracked_dispatched | exact Ht1]. }
  assert (Hrun2 : (if bool_decide (state_of w1 e u = running)
                   then user_fsm (S (S n)) e u stop else ret tt) w1 = Done tt w2).
  { subst w2. destruct (bool_decide _); [apply user_fsm_eq | reflexivity]. }
  rewrite Hrun2.
  rewrite bind_get_fsm_state, (touch_tracked e u w2 Ht2).
  unfold bind at 1.
  destruct (bool_decide (state_of w2 e u = stopped)).
  - rewrite user_fsm_eq. apply world_status_response_eq, tracked_dispatched.
  - unfold ret at 1. now apply world_status_response_eq.
Qed.

End RunFacts.

End CrldRunFacts.

(** ** The executor and the exceptions it catches *)

Module ExecutorFacts.

Import Crld CrldFacts CrldRuns CrldRunFacts.

#[local] Open Scope list_scope.

Section Facts.

Context `{Outside}.

(** The executor, by what the operation gives. *)
Lemma call_fsm_blocking_cases (fsm : Executor.dispatcher) (e u : string)
    (op : Executor.operation) (ok fl : option WorldSignal) (w : World) :
  Executor.call_fsm_blocking fsm e u op ok fl w =
  match op e [u] (running_configdir w) (env w) with
  | (Executor.OpReturns res, env') =>
      match Executor.send fsm e u (if res then ok else fl) (with_env env' w) with
      | Executor.Propagated (Executor.Exception msg) w' =>
          Executor.send fsm e u fl (with_log (log w' ++ [LogException msg]) w')
      | r => r
      end
  | (Executor.OpRaises (Executor.Exception msg), env') =>
      Executor.send fsm e u fl
        (with_log (log w ++ [LogException msg]) (with_env env' w))
  | (Executor.OpRaises (Executor.BaseExceptionOnly msg), env') =>
      Executor.Propagated (Executor.BaseExceptionOnly msg) (with_env env' w)
  end.
Proof.
  unfold Executor.call_fsm_blocking, Executor.try_except, Executor.bind,
    Executor.run_in_executor, Executor.log_exception, Executor.lift, log_info.
  destruct (op e [u] (running_configdir w) (env w)) as [[[]|[msg|msg]] env'];
    reflexivity.
Qed.

(** A dispatch only adds to the log. *)
Lemma log_dispatched (e u : string) (sig : WorldSignal) (w : World) :
  exists added, log (dispatched e u sig w) = log w ++ added.
Proof.
  unfold dispatched, succeeded, after_op, write.
  destruct (state_of w e u), sig; cbn zeta;
    repeat match goal with
           | |- context [match ?op ?a ?b ?c ?d with _ => _ end] =>
               destruct (op a b c d) as [[[]|?] ?]
           end;
    cbn [log with_env with_log]; rewrite <- ?app_assoc; eexists; reflexivity.
Qed.

(** What a signal sent by the executor leaves behind. *)
Lemma send_user_fsm (n : nat) (e u : string) (sg : option WorldSignal) (w : World) :
  Executor.send (Executor.user_fsm (S (S n))) e u sg w =
  Executor.Finished tt (match sg with
                        | Some s => dispatched e u s w
                        | None => w
                        end).
Proof.
  destruct sg as [s|]; [|reflexivity].
  unfold Executor.send, Executor.user_fsm, Executor.lift. now rewrite user_fsm_eq.
Qed.

(** The lines that a dispatch adds begin with its own transition line,
    unless an operation that raised was logged first. *)
Lemma dispatched_lines (n : nat) (e u : string) (s : WorldSignal) (w : World) :
  exists added rest,
    user_fsm (S (S n)) e u s w = Done tt (dispatched e u s w)
    /\ log (dispatched e u s w) = log w ++ added
    /\ transitions added =
       (e, u, state_of w e u, Spec.next_state (state_of w e u) s, s) :: rest.
Proof.
  destruct (log_dispatched e u s w) as (added & Hadd).
  destruct (user_fsm_run n e u s w) as (w' & rest & Hrun & Hlog & _).
  rewrite user_fsm_eq in Hrun. injection Hrun as <-.
  exists added, rest. split; [apply user_fsm_eq|]. split; [exact Hadd|].
  rewrite Hadd, transitions_app in Hlog. now apply app_inv_head in Hlog.
Qed.

(** On an operation of [Crld] the executor is [Crld.call_fsm_blocking]. *)
Lemma call_fsm_blocking_lift (fsm : Crld.dispatcher) (e u : string)
    (op : blocking_op Env) (ok fl : option WorldSignal) (w : World) :
  Executor.call_fsm_blocking (fun e' u' s => Executor.lift (fsm e' u' s)) e u
    (Executor.of_blocking_op op) ok fl w
  = Executor.lift (call_fsm_blocking fsm e u op ok fl) w.
Proof.
  rewrite call_fsm_blocking_cases.
  change (Executor.lift (call_fsm_blocking fsm e u op ok fl) w)
    with (match call_fsm_blocking fsm e u op ok fl w with
          | Done a w' => Executor.Finished a w'
          | Raised msg w' => Executor.Propagated (Executor.Exception msg) w'
          | OutOfFuel => Executor.NoFuel
          end).
  rewrite call_fsm_blocking_run. unfold Executor.of_blocking_op.
  assert (Hsend : forall sg w0,
             Executor.send (fun e' u' s => Executor.lift (fsm e' u' s)) e u sg w0
             = Executor.lift (send fsm e u sg) w0).
  { intros [s|] w0; reflexivity. }
  destruct (op e [u] (running_configdir w) (env w)) as [[res|msg] env'].
  - rewrite Hsend. unfold Executor.lift at 1.
    destruct (send fsm e u (if res then ok else fl) (with_env env' w));
      try reflexivity.
    rewrite Hsend. reflexivity.
  - rewrite Hsend. reflexivity.
Qed.

End Facts.

End ExecutorFacts.

Module ExecutorClaims.

Import Crld CrldFacts CrldRuns CrldRunFacts ExecutorFacts.

#[local] Open Scope list_scope.

Section Claims.

Context `{Outside}.

(** C6, amended: the executor runs the operation and then, by what the
    operation gives:
    - a truthy value: the [ok] signal, when set, is dispatched;
    - a falsy value: the [fail] signal, when set, is dispatched;
    - an exception that is an instance of [Exception]: the exception is
      logged and the [fail] signal, when set, is dispatched;
    - an exception that is not an instance of [Exception] ([SystemExit],
      [KeyboardInterrupt], [asyncio.CancelledError]): the executor lets it
      out, with nothing logged and no signal dispatched.
    A signal is dispatched: the executor returns when [user_fsm] on that
    signal has returned, in the world that [user_fsm] leaves, and the
    transition lines added to the log begin with the line of that signal,
    from the state of the world to the entry of the transition table.  A
    signal that is not set: the executor returns and adds nothing.
    The executor never lets an instance of [Exception] out, and on an
    operation that raises such exceptions only it is
    [Crld.call_fsm_blocking]. *)
Theorem call_fsm_blocking_dispatch (n : nat) (e u : string) (op : Executor.operation)
    (ok fl : option WorldSignal) (w : World) :
  let run :=
    Executor.call_fsm_blocking (Executor.user_fsm (enough_fuel + n)) e u op ok fl w in
  let sent (sg : option WorldSignal) (w1 : World) : Prop :=
    match sg with
    | Some s =>
        exists w' added rest,
          run = Executor.Finished tt w'
          /\ user_fsm (enough_fuel + n) e u s w1 = Done tt w'
          /\ log w' = log w1 ++ added
          /\ transitions added =
             (e, u, state_of w e u, Spec.next_state (state_of w e u) s, s) :: rest
    | None => run = Executor.Finished tt w1
    end in
  match op e [u] (running_configdir w) (env w) with
  | (Executor.OpReturns true, env') => sent ok (with_env env' w)
  | (Executor.OpReturns false, env') => sent fl (with_env env' w)
  | (Executor.OpRaises (Executor.Exception msg), env') =>
      sent fl (with_log (log w ++ [LogException msg]) (with_env env' w))
  | (Executor.OpRaises (Executor.BaseExceptionOnly msg), env') =>
      run = Executor.Propagated (Executor.BaseExceptionOnly msg) (with_env env' w)
  end
  /\ (forall msg w', run <> Executor.Propagated (Executor.Exception msg) w')
  /\ (forall op0 : blocking_op Env,
         Executor.call_fsm_blocking (Executor.user_fsm (enough_fuel + n)) e u
           (Executor.of_blocking_op op0) ok fl w
         = Executor.lift
             (call_fsm_blocking (user_fsm (enough_fuel + n)) e u op0 ok fl) w).
Proof.
  change (enough_fuel + n) with (S (S n)). intros run sent.
  assert (Hrun : run =
            match op e [u] (running_configdir w) (env w) with
            | (Executor.OpReturns res, env') =>
                Executor.send (Executor.user_fsm (S (S n))) e u
                  (if res then ok else fl) (with_env env' w)
            | (Executor.OpRaises (Executor.Exception msg), env') =>
                Executor.send (Executor.user_fsm (S (S n))) e u fl
                  (with_log (log w ++ [LogException msg]) (with_env env' w))
            | (Executor.OpRaises (Executor.BaseExceptionOnly msg), env') =>
                Executor.Propagated (Executor.BaseExceptionOnly msg) (with_env env' w)
            end).
  { unfold run. rewrite call_fsm_blocking_cases.
    destruct (op e [u] (running_configdir w) (env w)) as [[res|[msg|msg]] env'];
      try reflexivity.
    now rewrite send_user_fsm. }
  assert (Hsent : forall sg w1,
             state_of w1 e u = state_of w e u ->
             run = Executor.send (Executor.user_fsm (S (S n))) e u sg w1 ->
             sent sg w1).
  { intros [s|] w1 Hst Heq; unfold sent; rewrite Heq, send_user_fsm; [|reflexivity].
    destruct (dispatched_lines n e u s w1) as (added & rest & Hd & Hlog & Htr).
    exists (dispatched e u s w1), added, rest. rewrite <- Hst. auto. }
  split; [|split].
  - destruct (op e [u] (running_configdir w) (env w)) as [[[]|[msg|msg]] env'];
      try exact Hrun; apply Hsent; try exact Hrun; reflexivity.
  - intros msg w'. rewrite Hrun.
    destruct (op e [u] (running_configdir w) (env w)) as [[res|[msg0|msg0]] env'];
      rewrite ?send_user_fsm; discriminate.
  - intros op0. apply call_fsm_blocking_lift.
Qed.

End Claims.

(** C6, as stated, fails: the operation ends in [sys.exit(1)] while the
    world is [starting].  The executor lets [SystemExit] out to its
    caller: the exception is not logged, and [fail], which would take the
    world to [stopped], is not dispatched. *)
Lemma call_fsm_blocking_lets_system_exit_out :
  let w := Demo.world_in starting (Some Demo.peer_text) in
  Executor.call_fsm_blocking (Executor.user_fsm enough_fuel) "demo" "alice"
    DemoExecutor.sys_exit (Some up) (Some fail) w
  = Executor.Propagated (Executor.BaseExceptionOnly "1") w
  /\ log w = []
  /\ state_of w "demo" "alice" = starting
  /\ Spec.next_state starting fail = stopped.
Proof. vm_compute. repeat split. Qed.

(** The same call with an operation that raises a [RuntimeError]: the
    exception is logged and [fail] takes the world to [stopped]. *)
Example runtime_error_is_caught :
  match Executor.call_fsm_blocking (Executor.user_fsm enough_fuel) "demo" "alice"
          DemoExecutor.runtime_error (Some up) (Some fail)
          (Demo.world_in starting (Some Demo.peer_text)) with
  | Executor.Finished _ w' =>
      log w' = [LogException "boom";
                LogTransition "demo" "alice" starting stopped fail]%string
      /\ state_of w' "demo" "alice" = stopped
  | _ => False
  end.
Proof. vm_compute. repeat split. Qed.

End ExecutorClaims.

Module CrldExtras.

Import Crld CrldFacts CrldRuns CrldRunFacts.

#[local] Open Scope list_scope.

Section Extras.

Context `{Outside}.

Lemma evolves_created (e u : string) (w : World) : evolves e u w (created e u w).
Proof.
  unfold created. cbn zeta.
  repeat match goal with
         | |- evolves _ _ _ (if ?b then _ else _) => destruct b
         | |- evolves _ _ _ (dispatched _ _ _ ?w1) =>
             apply (evolves_trans _ _ _ w1); [|apply evolves_dispatched]
         end; apply evolves_integrity_checked.
Qed.

Lemma evolves_reset_done (e u : string) (w : World) : evolves e u w (reset_done e u w).
Proof.
  unfold reset_done. cbn zeta.
  repeat match goal with
         | |- evolves _ _ _ (if ?b then _ else _) => destruct b
         | |- evolves _ _ _ (dispatched _ _ _ ?w1) =>
             apply (evolves_trans _ _ _ w1); [|apply evolves_dispatched]
         end; apply evolves_integrity_checked.
Qed.

Lemma settled_created (e u : string) (w : World) :
  settled (state_of w e u) = true -> settled (state_of (created e u w) e u) = true.
Proof.
  intros Hs. unfold created. cbn zeta.
  pose proof (settled_integrity_checked e u w Hs) as H1.
  destruct (bool_decide (state_of (integrity_checked e u w) e u = notfound));
    match goal with
    | |- context [bool_decide (state_of ?w2 e u = stopped)] =>
        assert (H2 : settled (state_of w2 e u) = true)
          by (try apply settled_dispatched; exact H1);
        destruct (bool_decide (state_of w2 e u = stopped));
        [now apply settled_dispatched | exact H2]
    end.
Qed.

Lemma settled_reset_done (e u : string) (w : World) :
  settled (state_of w e u) = true -> settled (state_of (reset_done e u w) e u) = true.
Proof.
  intros Hs. unfold reset_done. cbn zeta.
  pose proof (settled_integrity_checked e u w Hs) as H1.
  destruct (bool_decide (state_of (integrity_checked e u w) e u = running));
    match goal with
    | |- context [bool_decide (state_of ?w2 e u = stopped)] =>
        assert (H2 : settled (state_of w2 e u) = true)
          by (try apply settled_dispatched; exact H1);
        destruct (bool_decide (state_of w2 e u = stopped));
        [now apply settled_dispatched | exact H2]
    end.
Qed.

(** X1: a dispatch for one world, and a create, reset, status or config
    request for it, return and leave the state of every other world as it
    was. *)
Theorem other_worlds_untouched (n : nat) (req : Request) (e u e' u' : string)
    (sig : WorldSignal) (w : World) :
  Helpers.validate_name (match_info_event req) = Some e ->
  Helpers.validate_name (match_info_user req) = Some u ->
  (e', u') <> (e, u) ->
  (exists w', user_fsm (enough_fuel + n) e u sig w = Done tt w'
              /\ state_of w' e' u' = state_of w e' u')
  /\ (exists r w', world_create (enough_fuel + n) req w = Done r w'
                   /\ state_of w' e' u' = state_of w e' u')
  /\ (exists r w', world_reset (enough_fuel + n) req w = Done r w'
                   /\ state_of w' e' u' = state_of w e' u')
  /\ (exists r w', world_status (enough_fuel + n) req w = Done r w'
                   /\ state_of w' e' u' = state_of w e' u')
  /\ (exists r w', world_config (enough_fuel + n) req w = Done r w'
                   /\ state_of w' e' u' = state_of w e' u').
Proof.
  intros He Hu Hne. change (enough_fuel + n) with (S (S n)).
  unfold world_create, world_reset, world_status, world_config.
  rewrite !(validate_world_args_ok _ req e u w He Hu).
  rewrite user_fsm_eq, world_create_body_eq, world_reset_body_eq,
    world_status_body_eq, world_config_body_eq.
  repeat split; repeat eexists.
  - now apply evolves_dispatched.
  - now apply evolves_created.
  - now apply evolves_reset_done.
  - now apply evolves_integrity_checked.
  - now apply evolves_integrity_checked.
Qed.

(** X2: the transition lines that a dispatch, a create request or a reset
    request adds to the log all belong to the world of the request and form
    a chain: the first starts in the state the world had before, each next
    one starts where the one before ended, and the last ends in the state
    the world has afterwards. *)
Theorem log_is_a_chain (n : nat) (req : Request) (e u : string) (sig : WorldSignal)
    (w : World) :
  Helpers.validate_name (match_info_event req) = Some e ->
  Helpers.validate_name (match_info_user req) = Some u ->
  (exists w' added,
      user_fsm (enough_fuel + n) e u sig w = Done tt w'
      /\ transitions (log w') = transitions (log w) ++ added
      /\ chain e u (state_of w e u) added = Some (state_of w' e u))
  /\ (exists r w' added,
         world_create (enough_fuel + n) req w = Done r w'
         /\ transitions (log w') = transitions (log w) ++ added
         /\ chain e u (state_of w e u) added = Some (state_of w' e u))
  /\ (exists r w' added,
         world_reset (enough_fuel + n) req w = Done r w'
         /\ transitions (log w') = transitions (log w) ++ added
         /\ chain e u (state_of w e u) added = Some (state_of w' e u)).
Proof.
  intros He Hu. change (enough_fuel + n) with (S (S n)).
  unfold world_create, world_reset.
  rewrite !(validate_world_args_ok _ req e u w He Hu).
  rewrite user_fsm_eq, world_create_body_eq, world_reset_body_eq.
  destruct (evolves_dispatched e u sig w) as (_ & _ & l1 & Hl1 & Hc1).
  destruct (evolves_created e u w) as (_ & _ & l2 & Hl2 & Hc2).
  destruct (evolves_reset_done e u w) as (_ & _ & l3 & Hl3 & Hc3).
  split; [|split].
  - exists (dispatched e u sig w), l1. auto.
  - eexists. exists (created e u w), l2. auto.
  - eexists. exists (reset_done e u w), l3. auto.
Qed.

(** X3: a world in which no operation is under way (it is [notfound],
    [stopped] or [running]) is in such a state again when a dispatch, a
    create request or a reset request returns: none of them leaves it in
    [checking], [creating], [starting] or [stopping]. *)
Theorem settled_is_kept (n : nat) (req : Request) (e u : string) (sig : WorldSignal)
    (w : World) :
  Helpers.validate_name (match_info_event req) = Some e ->
  Helpers.validate_name (match_info_user req) = Some u ->
  settled (state_of w e u) = true ->
  (exists w', user_fsm (enough_fuel + n) e u sig w = Done tt w'
              /\ settled (state_of w' e u) = true)
  /\ (exists r w', world_create (enough_fuel + n) req w = Done r w'
                   /\ settled (state_of w' e u) = true)
  /\ (exists r w', world_reset (enough_fuel + n) req w = Done r w'
                   /\ settled (state_of w' e u) = true).
Proof.
  intros He Hu Hs. change (enough_fuel + n) with (S (S n)).
  unfold world_create, world_reset.
  rewrite !(validate_world_args_ok _ req e u w He Hu).
  rewrite user_fsm_eq, world_create_body_eq, world_reset_body_eq.
  repeat split; repeat eexists.
  - now apply settled_dispatched.
  - now apply settled_created.
  - now apply settled_reset_done.
Qed.

(** X4: every integrity check returns and runs no blocking operation: the
    outside world and the configuration directory are the same after it,
    and so is the answer to whether the peer config of the world exists.
    And when that peer config exists, the world is not [notfound] after
    the check. *)
Theorem integrity_check_with_config (n : nat) (e u : string) (w : World) :
  exists w',
    check_fsm_integrity (user_fsm (enough_fuel + n)) e u w = Done tt w'
    /\ env w' = env w
    /\ running_configdir w' = running_configdir w
    /\ path_exists (get_config_path e u w') w' = path_exists (get_config_path e u w) w
    /\ (path_exists (get_config_path e u w) w = true -> state_of w' e u <> notfound).
Proof.
  change (enough_fuel + n) with (S (S n)).
  rewrite check_fsm_integrity_eq. eexists. split; [reflexivity|].
  split; [apply env_integrity_checked|].
  split; [apply configdir_integrity_checked|]. split.
  - unfold path_exists, get_config_path, get_world_path.
    now rewrite env_integrity_checked, configdir_integrity_checked.
  - intros Hcfg. unfold integrity_checked. rewrite Hcfg. cbn [negb andb orb].
    rewrite orb_false_r.
    destruct (bool_decide (state_of w e u = notfound)) eqn:Hs.
    + apply bool_decide_eq_true in Hs. unfold dispatched. rewrite Hs. cbn zeta.
      rewrite state_of_write.
      destruct (reconciled_settled e u (write e u checking check w)) as [-> | ->];
        discriminate.
    + apply bool_decide_eq_false in Hs. now rewrite state_of_touch.
Qed.

(** X5: a [check] dispatched for a world that is [notfound], [stopped] or
    [running] returns with the world [running] when some service other than
    the VPN gateway is up, and [stopped] otherwise; it adds the two
    transition lines of the reconciliation and runs no blocking operation. *)
Theorem check_reconciles (n : nat) (e u : string) (w : World) :
  settled (state_of w e u) = true ->
  exists w' new,
    user_fsm (enough_fuel + n) e u check w = Done tt w'
    /\ new = (if any (services_status
                        (inspect (env w) (get_world_path e u w)
                           ("crl-" +:+ e +:+ "-" +:+ u)%string))
              then running else stopped)
    /\ state_of w' e u = new
    /\ transitions (log w') =
       transitions (log w)
       ++ [(e, u, state_of w e u, checking, check);
           (e, u, checking, new, if bool_decide (new = running) then up else down)]
    /\ env w' = env w.
Proof.
  intros Hs. change (enough_fuel + n) with (S (S n)). rewrite user_fsm_eq.
  eexists. eexists. split; [reflexivity|]. split; [reflexivity|].
  assert (Hd : dispatched e u check w =
               write e u (reconciled e u w) (reconcile_signal e u w)
                 (write e u checking check w)).
  { unfold dispatched. destruct (state_of w e u); try discriminate Hs; reflexivity. }
  rewrite Hd, state_of_write, !transitions_write, state_of_write, <- app_assoc.
  rewrite <- reconciled_any.
  split; [reflexivity|]. split; [|reflexivity].
  assert (reconcile_signal e u w =
          if bool_decide (reconciled e u w = running) then up else down) as ->.
  { destruct (reconciled_cases e u w) as (h & _ & -> & ->). destruct h; reflexivity. }
  reflexivity.
Qed.

(** X6: a status request with valid names always answers 200 with a JSON
    body whose [state] field names the state the world is in when the
    handler returns; the body has a [health] field exactly when that state
    is [running].  The request runs no blocking operation and dispatches no
    signal other than [check], [up] and [down]. *)
Theorem world_status_answer (n : nat) (req : Request) (e u : string) (w : World) :
  Helpers.validate_name (match_info_event req) = Some e ->
  Helpers.validate_name (match_info_user req) = Some u ->
  exists w' h added,
    determine_world_health e u w' = Some h
    /\ world_status (enough_fuel + n) req w =
       Done {| status := 200;
               resp_body :=
                 Json (if bool_decide (state_of w' e u = running)
                       then [("state", "running"); ("health", health_name h)]%string
                       else [("state", state_name (state_of w' e u))]%string) |} w'
    /\ env w' = env w
    /\ transitions (log w') = transitions (log w) ++ added
    /\ forallb (fun t => reconciling (signal_of t)) added = true.
Proof.
  intros He Hu. change (enough_fuel + n) with (S (S n)).
  unfold world_status. rewrite (validate_world_args_ok _ req e u w He Hu).
  rewrite world_status_body_eq.
  destruct (integrity_checked_signals e u w) as (added & Hlog & Hsig).
  destruct (reconciled_cases e u (integrity_checked e u w)) as (h & Hh & _).
  exists (integrity_checked e u w), h, added.
  split; [exact Hh|]. split.
  - unfold status_fields. rewrite Hh.
    destruct (state_of (integrity_checked e u w) e u); reflexivity.
  - split; [apply env_integrity_checked|]. auto.
Qed.

(** X7: a config request with valid names answers from the peer config file
    alone, whatever the state of the world: 200 with the contents when the
    file is there and not empty, 404 otherwise.  It runs no blocking
    operation and dispatches no signal other than [check], [up] and
    [down], so it never creates, starts or stops a world. *)
Theorem world_config_answer (n : nat) (req : Request) (e u : string) (w : World) :
  Helpers.validate_name (match_info_event req) = Some e ->
  Helpers.validate_name (match_info_user req) = Some u ->
  exists w' added,
    world_config (enough_fuel + n) req w =
      Done (match read_file (env w) (get_config_path e u w) with
            | Some c => if bool_decide (c = ""%string)
                        then {| status := 404; resp_body := NoBody |}
                        else {| status := 200; resp_body := Text c |}
            | None => {| status := 404; resp_body := NoBody |}
            end) w'
    /\ env w' = env w
    /\ transitions (log w') = transitions (log w) ++ added
    /\ forallb (fun t => reconciling (signal_of t)) added = true.
Proof.
  intros He Hu. change (enough_fuel + n) with (S (S n)).
  unfold world_config. rewrite (validate_world_args_ok _ req e u w He Hu).
  rewrite world_config_body_eq.
  destruct (integrity_checked_signals e u w) as (added & Hlog & Hsig).
  exists (integrity_checked e u w), added. split.
  - rewrite config_response_cases. unfold get_config_path, get_world_path.
    now rewrite env_integrity_checked, configdir_integrity_checked.
  - split; [apply env_integrity_checked|]. auto.
Qed.

Lemma integrity_checked_consistent (e u : string) (w : World) :
  (path_exists (get_config_path e u w) w = true -> state_of w e u <> notfound) ->
  (path_exists (get_config_path e u w) w = false -> state_of w e u = notfound) ->
  integrity_checked e u w = touch e u w.
Proof.
  intros Hyes Hno. unfold integrity_checked.
  destruct (path_exists (get_config_path e u w) w); cbn [negb andb orb].
  - rewrite orb_false_r, bool_decide_eq_false_2; auto.
  - rewrite bool_decide_eq_false_2; [reflexivity|]. intros Hn. apply Hn. auto.
Qed.

(** X8: a reset request for a world that is [running] and has its peer
    config runs [cmd_stop] and then [cmd_start], each once.  Whatever the
    stop gives back (a truthy value, a falsy value or an exception), the
    world goes through [stopping] to [stopped] and is started again; it ends
    [running] when the start returns a truthy value and [stopped] when it
    does not. *)
Theorem reset_of_running_world (n : nat) (req : Request) (e u : string) (w : World) :
  Helpers.validate_name (match_info_event req) = Some e ->
  Helpers.validate_name (match_info_user req) = Some u ->
  state_of w e u = running ->
  path_exists (get_config_path e u w) w = true ->
  let r_stop := cmd_stop e [u] (running_configdir w) (env w) in
  let r_start := cmd_start e [u] (running_configdir w) (snd r_stop) in
  let final := if truthy_result (fst r_start) then running else stopped in
  exists r w',
    world_reset (enough_fuel + n) req w = Done r w'
    /\ env w' = snd r_start
    /\ state_of w' e u = final
    /\ transitions (log w') =
       transitions (log w)
       ++ [(e, u, running, stopping, stop);
           (e, u, stopping, stopped, if truthy_result (fst r_stop) then down else fail);
           (e, u, stopped, starting, start);
           (e, u, starting, final, if truthy_result (fst r_start) then up else fail)].
Proof.
  intros He Hu Hs Hcfg r_stop r_start final.
  change (enough_fuel + n) with (S (S n)).
  unfold world_reset. rewrite (validate_world_args_ok _ req e u w He Hu).
  rewrite world_reset_body_eq. eexists. eexists. split; [reflexivity|].
  assert (Hic : integrity_checked e u w = w).
  { rewrite integrity_checked_consistent; [|congruence|congruence].
    apply touch_tracked, tracked_of_state. congruence. }
  unfold reset_done. cbn zeta. rewrite Hic, Hs.
  rewrite (bool_decide_eq_true_2 (running = running)) by reflexivity.
  set (w1 := write e u stopping stop w).
  assert (Hstop : dispatched e u stop w =
                  write e u stopped (if succeeded cmd_stop e u w1 then down else fail)
                    (after_op cmd_stop e u w1)).
  { unfold dispatched. rewrite Hs. reflexivity. }
  rewrite Hstop, state_of_write.
  rewrite (bool_decide_eq_true_2 (stopped = stopped)) by reflexivity.
  set (w2 := write e u stopped _ (after_op cmd_stop e u w1)).
  set (w3 := write e u starting start w2).
  assert (Hstart : dispatched e u start w2 =
                   if succeeded cmd_start e u w3
                   then write e u running up (after_op cmd_start e u w3)
                   else write e u stopped fail (after_op cmd_start e u w3)).
  { unfold dispatched. subst w2. rewrite state_of_write. reflexivity. }
  rewrite Hstart.
  assert (Hr_stop : succeeded cmd_stop e u w1 = truthy_result (fst r_stop))
    by exact (succeeded_eq cmd_stop e u w1).
  assert (Henv3 : env w3 = snd r_stop) by exact (env_after_op cmd_stop e u w1).
  assert (Hdir3 : running_configdir w3 = running_configdir w)
    by exact (configdir_after_op cmd_stop e u w1).
  assert (Hr_start : succeeded cmd_start e u w3 = truthy_result (fst r_start)).
  { rewrite succeeded_eq, Hdir3, Henv3. reflexivity. }
  assert (Hlog3 : transitions (log w3) =
                  transitions (log w)
                  ++ [(e, u, running, stopping, stop);
                      (e, u, stopping, stopped,
                       if truthy_result (fst r_stop) then down else fail);
                      (e, u, stopped, starting, start)]).
  { subst w3 w2. rewrite !transitions_write, transitions_after_op.
    subst w1. rewrite transitions_write, !state_of_write, state_of_after_op,
      state_of_write, Hs, Hr_stop, <- !app_assoc. reflexivity. }
  assert (Henv4 : env (after_op cmd_start e u w3) = snd r_start).
  { rewrite env_after_op, Hdir3, Henv3. reflexivity. }
  rewrite Hr_start. subst final.
  destruct (truthy_result (fst r_start));
    rewrite state_of_write, transitions_write, transitions_after_op, Hlog3,
      state_of_after_op; subst w3; rewrite state_of_write, <- app_assoc;
    (split; [exact Henv4|]); split; reflexivity.
Qed.

(** X9: a create request for a world that is [notfound] and has no peer
    config runs [cmd_create]; when it returns a truthy value the world goes
    through [creating] to [stopped] and [cmd_start] is run: the world ends
    [running] when the start returns a truthy value and [stopped] when it
    does not.  The answer is taken from the peer config file as the two
    operations left it. *)
Theorem fresh_create_succeeds (n : nat) (req : Request) (e u : string) (w : World) :
  Helpers.validate_name (match_info_event req) = Some e ->
  Helpers.validate_name (match_info_user req) = Some u ->
  state_of w e u = notfound ->
  path_exists (get_config_path e u w) w = false ->
  truthy_result (fst (cmd_create e [u] (running_configdir w) (env w))) = true ->
  let r_create := cmd_create e [u] (running_configdir w) (env w) in
  let r_start := cmd_start e [u] (running_configdir w) (snd r_create) in
  let final := if truthy_result (fst r_start) then running else stopped in
  exists w',
    world_create (enough_fuel + n) req w =
      Done (config_response (read_file (snd r_start) (get_config_path e u w))) w'
    /\ env w' = snd r_start
    /\ state_of w' e u = final
    /\ transitions (log w') =
       transitions (log w)
       ++ [(e, u, notfound, creating, create);
           (e, u, creating, stopped, down);
           (e, u, stopped, starting, start);
           (e, u, starting, final, if truthy_result (fst r_start) then up else fail)].
Proof.
  intros He Hu Hs Hcfg Hok r_create r_start final.
  change (enough_fuel + n) with (S (S n)).
  unfold world_create. rewrite (validate_world_args_ok _ req e u w He Hu).
  rewrite world_create_body_eq.
  assert (Hic : integrity_checked e u w = touch e u w).
  { apply integrity_checked_consistent; [congruence|auto]. }
  unfold created. cbn zeta. rewrite Hic, state_of_touch, Hs.
  rewrite (bool_decide_eq_true_2 (notfound = notfound)) by reflexivity.
  set (w1 := write e u creating create w).
  assert (Hcreate : dispatched e u create (touch e u w) =
                    write e u stopped down (after_op cmd_create e u w1)).
  { unfold dispatched. rewrite state_of_touch, Hs. cbn zeta. rewrite write_touch.
    fold w1. rewrite succeeded_eq. change (running_configdir w1) with (running_configdir w).
    change (env w1) with (env w). now rewrite Hok. }
  rewrite Hcreate, state_of_write.
  rewrite (bool_decide_eq_true_2 (stopped = stopped)) by reflexivity.
  set (w2 := write e u stopped down (after_op cmd_create e u w1)).
  set (w3 := write e u starting start w2).
  assert (Hstart : dispatched e u start w2 =
                   if succeeded cmd_start e u w3
                   then write e u running up (after_op cmd_start e u w3)
                   else write e u stopped fail (after_op cmd_start e u w3)).
  { unfold dispatched. subst w2. rewrite state_of_write. reflexivity. }
  rewrite Hstart.
  assert (Henv3 : env w3 = snd r_create) by exact (env_after_op cmd_create e u w1).
  assert (Hdir3 : running_configdir w3 = running_configdir w)
    by exact (configdir_after_op cmd_create e u w1).
  assert (Hr_start : succeeded cmd_start e u w3 = truthy_result (fst r_start)).
  { rewrite succeeded_eq, Hdir3, Henv3. reflexivity. }
  assert (Hlog3 : transitions (log w3) =
                  transitions (log w)
                  ++ [(e, u, notfound, creating, create);
                      (e, u, creating, stopped, down);
                      (e, u, stopped, starting, start)]).
  { subst w3 w2. rewrite !transitions_write, transitions_after_op.
    subst w1. rewrite transitions_write, !state_of_write, state_of_after_op,
      state_of_write, Hs, <- !app_assoc. reflexivity. }
  assert (Henv4 : env (after_op cmd_start e u w3) = snd r_start).
  { rewrite env_after_op, Hdir3, Henv3. reflexivity. }
  assert (Hdir4 : running_configdir (after_op cmd_start e u w3) = running_configdir w).
  { now rewrite configdir_after_op. }
  rewrite Hr_start. subst final.
  destruct (truthy_result (fst r_start)); eexists;
    (split; [unfold get_config_path, get_world_path; cbn [env running_configdir write];
             rewrite Henv4, Hdir4; reflexivity|]);
    rewrite state_of_write, transitions_write, transitions_after_op, Hlog3,
      state_of_after_op; subst w3; rewrite state_of_write, <- app_assoc;
    (split; [exact Henv4|]); split; reflexivity.
Qed.

(** X10: when [cmd_create] does not return a truthy value (it returns a
    falsy one or raises), the create request cleans up: [cmd_delete] is run
    on what the create left, the world goes through [creating] back to
    [notfound], [cmd_start] is not run, and the answer is taken from the
    peer config file as the delete left it. *)
Theorem failed_create_cleans_up (n : nat) (req : Request) (e u : string) (w : World) :
  Helpers.validate_name (match_info_event req) = Some e ->
  Helpers.validate_name (match_info_user req) = Some u ->
  state_of w e u = notfound ->
  path_exists (get_config_path e u w) w = false ->
  truthy_result (fst (cmd_create e [u] (running_configdir w) (env w))) = false ->
  let r_create := cmd_create e [u] (running_configdir w) (env w) in
  let r_delete := cmd_delete e [u] (running_configdir w) (snd r_create) in
  exists w',
    world_create (enough_fuel + n) req w =
      Done (config_response (read_file (snd r_delete) (get_config_path e u w))) w'
    /\ env w' = snd r_delete
    /\ state_of w' e u = notfound
    /\ transitions (log w') =
       transitions (log w)
       ++ [(e, u, notfound, creating, create); (e, u, creating, notfound, fail)].
Proof.
  intros He Hu Hs Hcfg Hko r_create r_delete.
  change (enough_fuel + n) with (S (S n)).
  unfold world_create. rewrite (validate_world_args_ok _ req e u w He Hu).
  rewrite world_create_body_eq.
  assert (Hic : integrity_checked e u w = touch e u w).
  { apply integrity_checked_consistent; [congruence|auto]. }
  unfold created. cbn zeta. rewrite Hic, state_of_touch, Hs.
  rewrite (bool_decide_eq_true_2 (notfound = notfound)) by reflexivity.
  set (w1 := write e u creating create w).
  set (w2 := after_op cmd_create e u w1).
  assert (Hcreate : dispatched e u create (touch e u w) =
                    write e u notfound fail (after_op cmd_delete e u w2)).
  { unfold dispatched. rewrite state_of_touch, Hs. cbn zeta. rewrite write_touch.
    fold w1. rewrite succeeded_eq. change (running_configdir w1) with (running_configdir w).
    change (env w1) with (env w). now rewrite Hko. }
  rewrite Hcreate, state_of_write.
  rewrite (bool_decide_eq_false_2 (notfound = stopped)) by discriminate.
  assert (Henv2 : env w2 = snd r_create) by exact (env_after_op cmd_create e u w1).
  assert (Hdir2 : running_configdir w2 = running_configdir w)
    by exact (configdir_after_op cmd_create e u w1).
  assert (Henv3 : env (after_op cmd_delete e u w2) = snd r_delete).
  { rewrite env_after_op, Hdir2, Henv2. reflexivity. }
  assert (Hdir3 : running_configdir (after_op cmd_delete e u w2) = running_configdir w).
  { now rewrite configdir_after_op. }
  eexists. split.
  - unfold get_config_path, get_world_path. cbn [env running_configdir write].
    rewrite Henv3, Hdir3. reflexivity.
  - split; [exact Henv3|]. rewrite state_of_write. split; [reflexivity|].
    rewrite transitions_write, !transitions_after_op, state_of_after_op.
    subst w2. rewrite state_of_after_op, transitions_after_op.
    subst w1. rewrite state_of_write, transitions_write, Hs, <- app_assoc. reflexivity.
Qed.

Lemma integrity_checked_unsettled (e u : string) (w : World) :
  settled (state_of w e u) = false ->
  env (integrity_checked e u w) = env w
  /\ state_of (integrity_checked e u w) e u = state_of w e u.
Proof.
  intros Hs. split; [apply env_integrity_checked|].
  unfold integrity_checked. destruct (_ || _); [|apply state_of_touch].
  unfold dispatched.
  destruct (state_of w e u) eqn:Hst; try discriminate Hs;
    rewrite state_of_write; reflexivity.
Qed.

(** X23: while an operation is under way for a world (it is [checking],
    [creating], [starting] or [stopping]), a create, reset, status or config
    request for it starts no other operation: the request returns with the
    outside world and the state of the world as they were. *)
Theorem busy_world_is_left_alone (n : nat) (req : Request) (e u : string) (w : World) :
  Helpers.validate_name (match_info_event req) = Some e ->
  Helpers.validate_name (match_info_user req) = Some u ->
  settled (state_of w e u) = false ->
  (exists r w', world_create (enough_fuel + n) req w = Done r w'
                /\ env w' = env w /\ state_of w' e u = state_of w e u)
  /\ (exists r w', world_reset (enough_fuel + n) req w = Done r w'
                   /\ env w' = env w /\ state_of w' e u = state_of w e u)
  /\ (exists r w', world_status (enough_fuel + n) req w = Done r w'
                   /\ env w' = env w /\ state_of w' e u = state_of w e u)
  /\ (exists r w', world_config (enough_fuel + n) req w = Done r w'
                   /\ env w' = env w /\ state_of w' e u = state_of w e u).
Proof.
  intros He Hu Hs. change (enough_fuel + n) with (S (S n)).
  unfold world_create, world_reset, world_status, world_config.
  rewrite !(validate_world_args_ok _ req e u w He Hu).
  rewrite world_create_body_eq, world_reset_body_eq,
    world_status_body_eq, world_config_body_eq.
  destruct (integrity_checked_unsettled e u w Hs) as [Henv Hst].
  assert (Hn : forall s, settled s = true ->
                         state_of (integrity_checked e u w) e u <> s).
  { intros s Hsettled Heq. rewrite Hst in Heq. congruence. }
  assert (Hc : created e u w = integrity_checked e u w).
  { unfold created. cbn zeta.
    rewrite (bool_decide_eq_false_2 _ (Hn notfound eq_refl)).
    now rewrite (bool_decide_eq_false_2 _ (Hn stopped eq_refl)). }
  assert (Hr : reset_done e u w = integrity_checked e u w).
  { unfold reset_done. cbn zeta.
    rewrite (bool_decide_eq_false_2 _ (Hn running eq_refl)).
    now rewrite (bool_decide_eq_false_2 _ (Hn stopped eq_refl)). }
  rewrite Hc, Hr. repeat split; eexists; eexists; (split; [reflexivity|]); auto.
Qed.

(** X24: a create request for a world that the daemon does not know yet
    ([notfound]) but whose peer config is on disk, not empty, and whose
    stack has a service other than the VPN gateway up, runs no blocking
    operation at all: the integrity check takes the world to [running] and
    the request answers 200 with the peer config. *)
Theorem create_of_existing_world (n : nat) (req : Request) (e u c : string) (w : World) :
  Helpers.validate_name (match_info_event req) = Some e ->
  Helpers.validate_name (match_info_user req) = Some u ->
  state_of w e u = notfound ->
  read_file (env w) (get_config_path e u w) = Some c ->
  c <> ""%string ->
  any (services_status
         (inspect (env w) (get_world_path e u w) ("crl-" +:+ e +:+ "-" +:+ u)%string))
  = true ->
  exists w',
    world_create (enough_fuel + n) req w
    = Done {| status := 200; resp_body := Text c |} w'
    /\ env w' = env w
    /\ state_of w' e u = running
    /\ transitions (log w') =
       transitions (log w)
       ++ [(e, u, notfound, checking, check); (e, u, checking, running, up)].
Proof.
  intros He Hu Hs Hc Hne Hup. change (enough_fuel + n) with (S (S n)).
  unfold world_create. rewrite (validate_world_args_ok _ req e u w He Hu).
  rewrite world_create_body_eq.
  assert (Hrec : reconciled e u w = running) by (now rewrite reconciled_any, Hup).
  assert (Hsig : reconcile_signal e u w = up).
  { destruct (reconciled_cases e u w) as (h & _ & Hsg & Hr). rewrite Hsg.
    rewrite Hrec in Hr. destruct h; [reflexivity | reflexivity | discriminate]. }
  assert (Hic : integrity_checked e u w =
                write e u running up (write e u checking check w)).
  { unfold integrity_checked, path_exists. rewrite Hc, Hs. cbn.
    unfold dispatched. rewrite Hs. cbn zeta.
    change (reconciled e u (write e u checking check w)) with (reconciled e u w).
    change (reconcile_signal e u (write e u checking check w))
      with (reconcile_signal e u w).
    now rewrite Hrec, Hsig. }
  assert (Hcr : created e u w = integrity_checked e u w).
  { unfold created. cbn zeta. rewrite Hic, state_of_write.
    rewrite (bool_decide_eq_false_2 (running = notfound)) by discriminate.
    rewrite state_of_write.
    now rewrite (bool_decide_eq_false_2 (running = stopped)) by discriminate. }
  rewrite Hcr, Hic. eexists. split.
  - change (env (write e u running up (write e u checking check w))) with (env w).
    change (get_config_path e u (write e u running up (write e u checking check w)))
      with (get_config_path e u w).
    rewrite Hc, config_response_cases.
    now rewrite bool_decide_eq_false_2 by assumption.
  - split; [reflexivity|]. rewrite state_of_write. split; [reflexivity|].
    rewrite !transitions_write, state_of_write, Hs, <- app_assoc. reflexivity.
Qed.

End Extras.

End CrldExtras.

(** ** More on names, tasks and ports *)

Module HelpersExtras.

Import Helpers HelpersFacts HelpersMore.

#[local] Arguments String.append : simpl nomatch.

Lemma lower_char_alnum (c : ascii) :
  Re.class_alnum (lower_char c) = Re.class_alnum c.
Proof. destruct c as [[] [] [] [] [] [] [] []]; reflexivity. Qed.

Lemma lower_char_idem (c : ascii) : lower_char (lower_char c) = lower_char c.
Proof. destruct c as [[] [] [] [] [] [] [] []]; reflexivity. Qed.

Lemma lower_char_newline (c : ascii) :
  Ascii.eqb (lower_char c) "010"%char = Ascii.eqb c "010"%char.
Proof. destruct c as [[] [] [] [] [] [] [] []]; reflexivity. Qed.

Lemma lower_idem (s : string) : lower (lower s) = lower s.
Proof.
  induction s as [|c s IH]; simpl; [reflexivity|]. now rewrite lower_char_idem, IH.
Qed.

Lemma at_eol_lower (s : string) : Re.at_eol (lower s) = Re.at_eol s.
Proof.
  destruct s as [|c [|d s]]; simpl; try reflexivity. apply lower_char_newline.
Qed.

Lemma match_plus_lower (k : string -> bool) (s : string) :
  (forall r, k (lower r) = k r) ->
  Re.match_plus Re.class_alnum k (lower s) = Re.match_plus Re.class_alnum k s.
Proof.
  intros Hk. induction s as [|c s IH]; simpl; [reflexivity|].
  now rewrite lower_char_alnum, IH, Hk.
Qed.

(** The pattern does not tell a name from its lower-case form. *)
Lemma re_match_lower (s : string) :
  Re.re_match Config.USER_ALLOWED_REGEX (lower s)
  = Re.re_match Config.USER_ALLOWED_REGEX s.
Proof.
  unfold Re.re_match, Config.USER_ALLOWED_REGEX. simpl Re.match_here.
  apply match_plus_lower. intros r. now rewrite at_eol_lower.
Qed.

(** X11: a name that [validate_name] returns is itself valid and is its own
    validated form: validating twice gives what validating once gives. *)
Theorem validate_name_canonical (name r : string) :
  validate_name name = Some r ->
  validate_name r = Some r.
Proof.
  rewrite !validate_name_unfold.
  destruct (_ && _ && _) eqn:Hok; [|discriminate]. intros [= <-].
  now rewrite re_match_lower, length_lower, Hok, lower_idem.
Qed.

Lemma validate_name_canonical_witness :
  validate_name "AliCe01" = Some "alice01" /\ validate_name "alice01" = Some "alice01".
Proof.
  split; [reflexivity|].
  exact (validate_name_canonical "AliCe01" "alice01" eq_refl).
Defined.

(** X12: [validate_name] does not tell apart two names that differ only in
    the case of ASCII letters, that is, two names that are the same once
    [A-Z] are replaced by [a-z] and every other character is kept: both
    are refused, or both are accepted with the same result.  (A character
    outside ASCII is not folded here, whatever [str.lower] makes of it:
    such a name is refused.) *)
Theorem validate_name_ignores_case (a b : string) :
  lower a = lower b ->
  validate_name a = validate_name b.
Proof.
  intros Hab. rewrite !validate_name_unfold.
  rewrite <- (re_match_lower a), <- (re_match_lower b).
  rewrite <- (length_lower a), <- (length_lower b), Hab. reflexivity.
Qed.

Lemma validate_name_ignores_case_witness :
  lower "ALICE" = lower "Alice" /\ validate_name "ALICE" = validate_name "Alice".
Proof.
  split; [reflexivity|].
  exact (validate_name_ignores_case "ALICE" "Alice" eq_refl).
Defined.

Lemma contains_lower_alnum (c : ascii) (body : string) :
  all_alnum body = true -> Re.class_alnum c = false ->
  contains c (lower body) = false.
Proof.
  intros Hb Hc. induction body as [|d body IH]; simpl in *; [reflexivity|].
  apply andb_prop in Hb as [Hd Hb]. rewrite IH by assumption.
  rewrite orb_false_r. apply Ascii.eqb_neq. intros ->.
  rewrite lower_char_alnum in Hc. congruence.
Qed.

Lemma lower_append (a b : string) : lower (a +:+ b) = lower a +:+ lower b.
Proof. induction a as [|c a IH]; simpl; [reflexivity | now rewrite IH]. Qed.

(** X13: a validated name holds no [/], no [.] and no upper-case letter:
    used as a path component it cannot leave its directory, and the
    directory of a world is spelled one way only. *)
Theorem validated_name_is_a_path_component (name r : string) :
  validate_name name = Some r ->
  contains "/"%char r = false
  /\ contains "."%char r = false
  /\ no_upper r = true.
Proof.
  rewrite validate_name_unfold.
  destruct (Re.re_match Config.USER_ALLOWED_REGEX name) eqn:Hm; [|discriminate].
  destruct (_ && _); [|discriminate]. intros [= <-].
  apply allowed_regex_iff in Hm as (body & _ & Hb & Hname).
  split; [|split; [|apply lower_no_upper]].
  - destruct Hname as [-> | ->]; rewrite ?lower_append, ?contains_append;
      rewrite contains_lower_alnum by (try assumption; reflexivity); reflexivity.
  - destruct Hname as [-> | ->]; rewrite ?lower_append, ?contains_append;
      rewrite contains_lower_alnum by (try assumption; reflexivity); reflexivity.
Qed.

Lemma validated_name_is_a_path_component_witness :
  validate_name "AliCe01" = Some "alice01"
  /\ contains "/"%char "alice01" = false
  /\ contains "."%char "alice01" = false
  /\ no_upper "alice01" = true.
Proof.
  split; [reflexivity|].
  exact (validated_name_is_a_path_component "AliCe01" "alice01" eq_refl).
Defined.

(** *** check_url *)

Lemma check_url_loop_spec (reachable : nat -> bool) (remaining : nat) :
  forall x,
    match check_url_loop reachable x remaining with
    | (true, tries) =>
        x < tries <= x + remaining
        /\ reachable (tries - 1) = true
        /\ forall y, x <= y < tries - 1 -> reachable y = false
    | (false, tries) =>
        tries = x + remaining
        /\ forall y, x <= y < x + remaining -> reachable y = false
    end.
Proof.
  induction remaining as [|remaining IH]; intros x; simpl.
  - split; [lia|]. intros y Hy. lia.
  - destruct (reachable x) eqn:Hx.
    + split; [lia|]. replace (S x - 1) with x by lia. split; [assumption|].
      intros y Hy. lia.
    + specialize (IH (S x)). destruct (check_url_loop reachable (S x) remaining)
        as [[] tries].
      * destruct IH as (Hb & Hr & Hn). split; [lia|]. split; [assumption|].
        intros y Hy. destruct (decide (y = x)) as [->|]; [assumption|].
        apply Hn. lia.
      * destruct IH as (-> & Hn). split; [lia|].
        intros y Hy. destruct (decide (y = x)) as [->|]; [assumption|].
        apply Hn. lia.
Qed.

(** X14: [check_url] makes at most 60 attempts.  It answers true at the
    first attempt that succeeds and makes no attempt after it; it answers
    false exactly when all of the 60 attempts fail. *)
Theorem check_url_gives_up_after_60 (reachable : nat -> bool) :
  match check_url reachable with
  | (true, tries) =>
      1 <= tries <= 60
      /\ reachable (tries - 1) = true
      /\ forall y, y < tries - 1 -> reachable y = false
  | (false, tries) =>
      tries = 60 /\ forall y, y < 60 -> reachable y = false
  end.
Proof.
  unfold check_url. pose proof (check_url_loop_spec reachable 60 0) as Hspec.
  destruct (check_url_loop reachable 0 60) as [[] tries].
  - destruct Hspec as (Hb & Hr & Hn). split; [lia|]. split; [assumption|].
    intros y Hy. apply Hn. lia.
  - destruct Hspec as (-> & Hn). split; [reflexivity|].
    intros y Hy. apply Hn. lia.
Qed.

Lemma check_url_gives_up_after_60_witness :
  check_url (fun x => Nat.eqb x 3) = (true, 4)
  /\ check_url (fun _ => false) = (false, 60)
  /\ match check_url (fun x => Nat.eqb x 3) with
     | (true, tries) =>
         1 <= tries <= 60
         /\ Nat.eqb (tries - 1) 3 = true
         /\ forall y, y < tries - 1 -> Nat.eqb y 3 = false
     | (false, tries) =>
         tries = 60 /\ forall y, y < 60 -> Nat.eqb y 3 = false
     end.
Proof.
  split; [reflexivity|]. split; [reflexivity|].
  exact (check_url_gives_up_after_60 (fun x => Nat.eqb x 3)).
Defined.

(** *** Task names *)

Lemma startswith_append (p s : string) : startswith (p +:+ s) p = true.
Proof.
  induction p as [|c p IH]; simpl; [reflexivity|]. now rewrite Ascii.eqb_refl, IH.
Qed.

Lemma drop_append (p s : string) : drop (String.length p) (p +:+ s) = s.
Proof. induction p as [|c p IH]; simpl; [reflexivity | exact IH]. Qed.

Lemma removeprefix_append (p s : string) : removeprefix (p +:+ s) p = s.
Proof. unfold removeprefix. now rewrite startswith_append, drop_append. Qed.

Lemma before_last_none (c : ascii) (s : string) :
  contains c s = false -> before_last c s = None.
Proof.
  induction s as [|d s IH]; simpl; [reflexivity|].
  intros [Hd Hs]%orb_false_elim. rewrite IH by assumption.
  rewrite Ascii.eqb_sym, Hd. reflexivity.
Qed.

Lemma before_last_append (c : ascii) (a b : string) :
  contains c b = false ->
  before_last c (a +:+ String c b) = Some a.
Proof.
  intros Hb. induction a as [|d a IH]; simpl.
  - rewrite before_last_none by assumption. now rewrite Ascii.eqb_refl.
  - now rewrite IH.
Qed.

Lemma append_assoc (a b c : string) : (a +:+ b) +:+ c = a +:+ (b +:+ c).
Proof. induction a as [|d a IH]; simpl; [reflexivity | now rewrite IH]. Qed.

(** X15: the orchestrator names a task [<stack>_<service>.<slot>]; from such
    a name [get_services] recovers the service name, whatever dots and
    underscores the service name holds, provided the slot holds no dot. *)
Theorem servicename_of_task (name service slot : string) :
  contains "."%char slot = false ->
  servicename name (name +:+ "_" +:+ service +:+ "." +:+ slot) = service.
Proof.
  intros Hslot. unfold servicename, rsplit_dot_head.
  replace (name +:+ "_" +:+ service +:+ "." +:+ slot)
    with ((name +:+ "_") +:+ (service +:+ String "."%char slot))
    by (rewrite append_assoc; reflexivity).
  rewrite removeprefix_append, before_last_append by assumption. reflexivity.
Qed.

Lemma servicename_of_task_witness :
  contains "."%char "1" = false
  /\ servicename "crl-demo-alice" "crl-demo-alice_wireguard.1" = "wireguard".
Proof.
  split; [reflexivity|].
  exact (servicename_of_task "crl-demo-alice" "wireguard" "1" eq_refl).
Defined.

End HelpersExtras.

(** ** More on the port daemon *)

Module PortdExtras.

Import Portd.

Section Loop.

Variable kernel : nat -> positive.

Lemma handle_loop_skips (bl : gset Z) (m : nat) :
  forall (port : Z) (binds fuel : nat),
    port ∈ bl ->
    (forall i, binds <= i < binds + m -> Z.pos (kernel i) ∈ bl) ->
    handle_loop kernel (S m + fuel) bl port binds =
    handle_loop kernel fuel bl (Z.pos (kernel (binds + m))) (S (binds + m)).
Proof.
  induction m as [|m IH]; intros port binds fuel Hport Hall.
  - simpl. destruct (decide (port ∈ bl)); [|contradiction].
    now rewrite Nat.add_0_r.
  - change (S (S m) + fuel) with (S (S m + fuel)). cbn [handle_loop].
    destruct (decide (port ∈ bl)); [|contradiction].
    rewrite IH.
    + now replace (S binds + m) with (binds + S m) by lia.
    + apply Hall. lia.
    + intros i Hi. apply Hall. lia.
Qed.

(** X16: the handler answers with the first port that the kernel gives
    outside the blacklist: if the first [m] binds give blacklisted ports and
    the next one does not, the answer is that next port, for every bound of
    at least [m + 2] loop tests.  The initial [-1] is never the answer, even
    when the blacklist is empty. *)
Theorem handle_answers_first_free_port (query : list Z) (m : nat) :
  (forall i, i < m -> Z.pos (kernel i) ∈ query) ->
  (Z.pos (kernel m) ∉ query) ->
  forall fuel, m + 2 <= fuel -> handle kernel fuel query = Some (Z.pos (kernel m)).
Proof.
  intros Hall Hout fuel Hfuel. unfold handle.
  set (bl := ({[(-1)%Z]} ∪ list_to_set query : gset Z)).
  replace fuel with (S m + (fuel - S m)) by lia.
  rewrite handle_loop_skips.
  - destruct (fuel - S m) as [|k] eqn:Hk; [lia|]. simpl.
    destruct (decide (Z.pos (kernel m) ∈ bl)) as [Hin|]; [|reflexivity].
    exfalso. subst bl.
    apply elem_of_union in Hin as [Hin%elem_of_singleton|Hin%elem_of_list_to_set];
      [discriminate | contradiction].
  - subst bl. apply elem_of_union_l, elem_of_singleton. reflexivity.
  - intros i Hi. subst bl. apply elem_of_union_r, elem_of_list_to_set, Hall. lia.
Qed.

(** X17: when every port that the kernel gives is in the blacklist, the
    handler never answers: the loop is still running after any number of
    tests. *)
Theorem handle_never_answers_blacklisted (query : list Z) :
  (forall i, Z.pos (kernel i) ∈ query) ->
  forall fuel, handle kernel fuel query = None.
Proof.
  intros Hall fuel. unfold handle.
  set (bl := ({[(-1)%Z]} ∪ list_to_set query : gset Z)).
  assert (Hloop : forall fuel port binds,
             port ∈ bl -> handle_loop kernel fuel bl port binds = None).
  { clear fuel. induction fuel as [|fuel IH]; intros port binds Hport; [reflexivity|].
    simpl. destruct (decide (port ∈ bl)); [|contradiction].
    apply IH. subst bl. apply elem_of_union_r, elem_of_list_to_set, Hall. }
  apply Hloop. subst bl. apply elem_of_union_l, elem_of_singleton. reflexivity.
Qed.

End Loop.

Lemma handle_answers_first_free_port_witness :
  ((forall i, i < 3 -> Z.pos (Pos.of_succ_nat i) ∈ [1; 2; 3]%Z)
   /\ (Z.pos (Pos.of_succ_nat 3) ∉ [1; 2; 3]%Z)
   /\ 3 + 2 <= 5)
  /\ handle Pos.of_succ_nat 5 [1; 2; 3]%Z = Some (Z.pos (Pos.of_succ_nat 3)).
Proof.
  assert (Hall : forall i, i < 3 -> Z.pos (Pos.of_succ_nat i) ∈ [1; 2; 3]%Z).
  { intros [|[|[|i]]] Hi; [| | |lia]; simpl.
    - apply list_elem_of_here.
    - apply list_elem_of_further, list_elem_of_here.
    - do 2 apply list_elem_of_further. apply list_elem_of_here. }
  assert (Hout : Z.pos (Pos.of_succ_nat 3) ∉ [1; 2; 3]%Z).
  { intros Hin. repeat (apply elem_of_cons in Hin as [Hin|Hin]; [discriminate|]).
    inversion Hin. }
  assert (Hfuel : 3 + 2 <= 5) by lia.
  split; [auto|].
  exact (handle_answers_first_free_port Pos.of_succ_nat [1; 2; 3]%Z 3 Hall Hout 5 Hfuel).
Defined.

Lemma handle_never_answers_blacklisted_witness :
  (forall i : nat, Z.pos ((fun _ => 8080%positive) i) ∈ [8080]%Z)
  /\ forall fuel, handle (fun _ => 8080%positive) fuel [8080]%Z = None.
Proof.
  assert (Hall : forall i : nat, Z.pos ((fun _ => 8080%positive) i) ∈ [8080]%Z).
  { intros i. apply list_elem_of_here. }
  split; [exact Hall|].
  exact (handle_never_answers_blacklisted (fun _ => 8080%positive) [8080]%Z Hall).
Defined.

End PortdExtras.

(** ** The further properties of the daemon on the demo world *)

Module CrldExtrasDemo.

Import Crld CrldRuns CrldExtras.

#[local] Open Scope list_scope.

Lemma other_worlds_untouched_witness :
  let req := Demo.request "demo" "alice" in
  let w := Demo.boot Demo.empty in
  (Helpers.validate_name (match_info_event req) = Some "demo"%string
   /\ Helpers.validate_name (match_info_user req) = Some "alice"%string
   /\ ("demo", "bobby")%string <> ("demo", "alice")%string)
  /\ (exists r w', world_create (enough_fuel + 0) req w = Done r w'
                   /\ state_of w' "demo" "bobby" = state_of w "demo" "bobby").
Proof.
  intros req w.
  assert (Hne : ("demo", "bobby")%string <> ("demo", "alice")%string) by discriminate.
  split; [split; [reflexivity | split; [reflexivity | exact Hne]]|].
  exact (proj1 (proj2 (other_worlds_untouched 0 req "demo" "alice" "demo" "bobby"
                         create w eq_refl eq_refl Hne))).
Defined.

Lemma log_is_a_chain_witness :
  let req := Demo.request "demo" "alice" in
  let w := Demo.boot Demo.empty in
  (Helpers.validate_name (match_info_event req) = Some "demo"%string
   /\ Helpers.validate_name (match_info_user req) = Some "alice"%string)
  /\ (exists r w' added,
         world_create (enough_fuel + 0) req w = Done r w'
         /\ transitions (log w') = transitions (log w) ++ added
         /\ chain "demo" "alice" (state_of w "demo" "alice") added
            = Some (state_of w' "demo" "alice")).
Proof.
  intros req w. split; [split; reflexivity|].
  exact (proj1 (proj2 (log_is_a_chain 0 req "demo" "alice" create w eq_refl eq_refl))).
Defined.

Lemma settled_is_kept_witness :
  let req := Demo.request "demo" "alice" in
  let w := Demo.boot Demo.empty in
  (Helpers.validate_name (match_info_event req) = Some "demo"%string
   /\ Helpers.validate_name (match_info_user req) = Some "alice"%string
   /\ settled (state_of w "demo" "alice") = true)
  /\ (exists r w', world_create (enough_fuel + 0) req w = Done r w'
                   /\ settled (state_of w' "demo" "alice") = true).
Proof.
  intros req w. split; [repeat split; reflexivity|].
  exact (proj1 (proj2 (settled_is_kept 0 req "demo" "alice" create w
                         eq_refl eq_refl eq_refl))).
Defined.

Lemma integrity_check_with_config_witness :
  let w := Demo.restarted in
  let v := Demo.boot Demo.empty in
  (exists w',
      check_fsm_integrity (user_fsm (enough_fuel + 0)) "demo" "alice" w = Done tt w'
      /\ env w' = env w
      /\ state_of w' "demo" "alice" <> notfound)
  /\ (exists v',
         check_fsm_integrity (user_fsm (enough_fuel + 0)) "demo" "alice" v = Done tt v'
         /\ env v' = env v).
Proof.
  intros w v.
  assert (Hcfg : path_exists (get_config_path "demo" "alice" w) w = true)
    by (vm_compute; reflexivity).
  split.
  - destruct (integrity_check_with_config 0 "demo" "alice" w)
      as (w' & Hrun & Henv & _ & _ & Hst).
    exists w'. split; [exact Hrun|]. split; [exact Henv | exact (Hst Hcfg)].
  - destruct (integrity_check_with_config 0 "demo" "alice" v)
      as (v' & Hrun & Henv & _).
    exists v'. split; [exact Hrun | exact Henv].
Defined.

Lemma check_reconciles_witness :
  let w := Demo.restarted in
  settled (state_of w "demo" "alice") = true
  /\ exists w', user_fsm (enough_fuel + 0) "demo" "alice" check w = Done tt w'
                /\ state_of w' "demo" "alice" = stopped.
Proof.
  intros w.
  assert (Hs : settled (state_of w "demo" "alice") = true) by reflexivity.
  split; [exact Hs|].
  destruct (check_reconciles 0 "demo" "alice" w Hs) as (w' & new & Hrun & Hnew & Hst & _).
  exists w'. split; [exact Hrun|]. rewrite Hst, Hnew. vm_compute. reflexivity.
Defined.

Lemma world_status_answer_witness :
  let req := Demo.request "demo" "alice" in
  let w := Demo.world_in running (Some Demo.peer_text) in
  (Helpers.validate_name (match_info_event req) = Some "demo"%string
   /\ Helpers.validate_name (match_info_user req) = Some "alice"%string)
  /\ exists w' h added,
      determine_world_health "demo" "alice" w' = Some h
      /\ world_status (enough_fuel + 0) req w =
         Done {| status := 200;
                 resp_body :=
                   Json (if bool_decide (state_of w' "demo" "alice" = running)
                         then [("state", "running"); ("health", health_name h)]%string
                         else [("state", state_name (state_of w' "demo" "alice"))]%string) |}
              w'
      /\ env w' = env w
      /\ transitions (log w') = transitions (log w) ++ added
      /\ forallb (fun t => reconciling (signal_of t)) added = true.
Proof.
  intros req w. split; [split; reflexivity|].
  exact (world_status_answer 0 req "demo" "alice" w eq_refl eq_refl).
Defined.

Lemma world_config_answer_witness :
  let req := Demo.request "demo" "alice" in
  let w := Demo.world_in creating None in
  (Helpers.validate_name (match_info_event req) = Some "demo"%string
   /\ Helpers.validate_name (match_info_user req) = Some "alice"%string)
  /\ exists w' added,
      world_config (enough_fuel + 0) req w =
        Done (match read_file (env w) (get_config_path "demo" "alice" w) with
              | Some c => if bool_decide (c = ""%string)
                          then {| status := 404; resp_body := NoBody |}
                          else {| status := 200; resp_body := Text c |}
              | None => {| status := 404; resp_body := NoBody |}
              end) w'
      /\ env w' = env w
      /\ transitions (log w') = transitions (log w) ++ added
      /\ forallb (fun t => reconciling (signal_of t)) added = true.
Proof.
  intros req w. split; [split; reflexivity|].
  exact (world_config_answer 0 req "demo" "alice" w eq_refl eq_refl).
Defined.

Lemma reset_of_running_world_witness :
  let req := Demo.request "demo" "alice" in
  let w := Demo.world_in running (Some Demo.peer_text) in
  (Helpers.validate_name (match_info_event req) = Some "demo"%string
   /\ Helpers.validate_name (match_info_user req) = Some "alice"%string
   /\ state_of w "demo" "alice" = running
   /\ path_exists (get_config_path "demo" "alice" w) w = true)
  /\ exists r w',
      world_reset (enough_fuel + 0) req w = Done r w'
      /\ state_of w' "demo" "alice" = running.
Proof.
  intros req w.
  assert (Hs : state_of w "demo" "alice" = running) by (vm_compute; reflexivity).
  assert (Hcfg : path_exists (get_config_path "demo" "alice" w) w = true)
    by (vm_compute; reflexivity).
  split; [repeat split; try reflexivity; assumption|].
  destruct (reset_of_running_world 0 req "demo" "alice" w eq_refl eq_refl Hs Hcfg)
    as (r & w' & Hrun & _ & Hst & _).
  exists r, w'. split; [exact Hrun|]. rewrite Hst. reflexivity.
Defined.

Lemma fresh_create_succeeds_witness :
  let req := Demo.request "demo" "alice" in
  let w := Demo.boot Demo.empty in
  (Helpers.validate_name (match_info_event req) = Some "demo"%string
   /\ Helpers.validate_name (match_info_user req) = Some "alice"%string
   /\ state_of w "demo" "alice" = notfound
   /\ path_exists (get_config_path "demo" "alice" w) w = false
   /\ truthy_result (fst (cmd_create "demo" ["alice"] (running_configdir w) (env w)))
      = true)
  /\ exists w',
      world_create (enough_fuel + 0) req w
      = Done {| status := 200; resp_body := Text Demo.peer_text |} w'
      /\ state_of w' "demo" "alice" = running.
Proof.
  intros req w.
  assert (Hcfg : path_exists (get_config_path "demo" "alice" w) w = false)
    by (vm_compute; reflexivity).
  split; [repeat split; try reflexivity; assumption|].
  destruct (fresh_create_succeeds 0 req "demo" "alice" w eq_refl eq_refl eq_refl
              Hcfg eq_refl) as (w' & Hrun & _ & Hst & _).
  exists w'. split; [|rewrite Hst; reflexivity].
  rewrite Hrun. f_equal.
Defined.

Lemma failed_create_cleans_up_witness :
  let req := Demo.request "demo" "alice" in
  let w := DemoMore.boot_broken_create in
  (Helpers.validate_name (match_info_event req) = Some "demo"%string
   /\ Helpers.validate_name (match_info_user req) = Some "alice"%string
   /\ state_of w "demo" "alice" = notfound
   /\ path_exists (get_config_path "demo" "alice" w) w = false
   /\ truthy_result (fst (cmd_create "demo" ["alice"] (running_configdir w) (env w)))
      = false)
  /\ exists w',
      world_create (enough_fuel + 0) req w
      = Done {| status := 404; resp_body := NoBody |} w'
      /\ state_of w' "demo" "alice" = notfound.
Proof.
  intros req w.
  assert (Hcfg : path_exists (get_config_path "demo" "alice" w) w = false)
    by (vm_compute; reflexivity).
  split; [repeat split; try reflexivity; assumption|].
  destruct (failed_create_cleans_up 0 req "demo" "alice" w eq_refl eq_refl eq_refl
              Hcfg eq_refl) as (w' & Hrun & _ & Hst & _).
  exists w'. split; [|exact Hst].
  rewrite Hrun. f_equal.
Defined.

Lemma busy_world_is_left_alone_witness :
  let req := Demo.request "demo" "alice" in
  let w := Demo.world_in creating None in
  (Helpers.validate_name (match_info_event req) = Some "demo"%string
   /\ Helpers.validate_name (match_info_user req) = Some "alice"%string
   /\ settled (state_of w "demo" "alice") = false)
  /\ (exists r w', world_create (enough_fuel + 0) req w = Done r w'
                   /\ env w' = env w
                   /\ state_of w' "demo" "alice" = state_of w "demo" "alice").
Proof.
  intros req w.
  assert (Hs : settled (state_of w "demo" "alice") = false) by (vm_compute; reflexivity).
  split; [split; [reflexivity | split; [reflexivity | exact Hs]]|].
  exact (proj1 (busy_world_is_left_alone 0 req "demo" "alice" w eq_refl eq_refl Hs)).
Defined.

Lemma create_of_existing_world_witness :
  let req := Demo.request "demo" "alice" in
  let w := Demo.world_in notfound (Some Demo.peer_text) in
  (Helpers.validate_name (match_info_event req) = Some "demo"%string
   /\ Helpers.validate_name (match_info_user req) = Some "alice"%string
   /\ state_of w "demo" "alice" = notfound
   /\ read_file (env w) (get_config_path "demo" "alice" w) = Some Demo.peer_text
   /\ Demo.peer_text <> ""%string
   /\ any (services_status
             (inspect (env w) (get_world_path "demo" "alice" w)
                ("crl-" +:+ "demo" +:+ "-" +:+ "alice")%string)) = true)
  /\ exists w',
      world_create (enough_fuel + 0) req w
      = Done {| status := 200; resp_body := Text Demo.peer_text |} w'
      /\ env w' = env w
      /\ state_of w' "demo" "alice" = running.
Proof.
  intros req w.
  assert (Hs : state_of w "demo" "alice" = notfound) by (vm_compute; reflexivity).
  assert (Hc : read_file (env w) (get_config_path "demo" "alice" w) = Some Demo.peer_text)
    by (vm_compute; reflexivity).
  assert (Hne : Demo.peer_text <> ""%string) by discriminate.
  assert (Hup : any (services_status
                       (inspect (env w) (get_world_path "demo" "alice" w)
                          ("crl-" +:+ "demo" +:+ "-" +:+ "alice")%string)) = true)
    by (vm_compute; reflexivity).
  split; [repeat split; try reflexivity; assumption|].
  destruct (create_of_existing_world 0 req "demo" "alice" Demo.peer_text w
              eq_refl eq_refl Hs Hc Hne Hup) as (w' & Hrun & Henv & Hst & _).
  exists w'. repeat split; assumption.
Defined.

End CrldExtrasDemo.

(** ** The commands of crl.py and the start-up of the daemon *)

Module CrlExtras.

Import Crld CrldFacts CrldRuns CrldRunFacts Crl.

#[local] Open Scope list_scope.

Section CommandFacts.

Variable Env : Type.
Variable names : Env -> Path -> list string.
Variable is_dir : Env -> Path -> bool.
Variable Cfg : Type.
Variable read_yaml : Env -> Path -> option Cfg.
Variable cfg_truthy : Cfg -> bool.
Variable ctf_external_url : Cfg -> option string.
Variables crlw_start crlw_stop crlw_delete : Path -> string -> Env -> op_result * Env.
Variable rmtree : Path -> Env -> option string * Env.
Variable read_file : Env -> Path -> option string.
Variable inspect : Env -> Path -> string -> world_info.
Variable cmd_create : blocking_op Env.
Variable wireguard_vips : Env -> string -> string -> option (list (string * string)).

#[local] Notation "'the_daemon'" :=
  (daemon Env names is_dir Cfg read_yaml cfg_truthy ctf_external_url
     crlw_start crlw_stop crlw_delete rmtree read_file inspect cmd_create
     wireguard_vips).

Lemma world_op_loop_never_false (func : Path -> string -> Env -> op_result * Env)
    (event_path : Path) (event : string) (ws : list string) :
  forall e, fst (world_op_loop Env is_dir func event_path event ws e) <> Returns false.
Proof.
  induction ws as [|w ws IH]; intros e; simpl; [discriminate|].
  destruct (is_dir e (event_path ++ [w])); simpl; [|apply IH].
  destruct (func _ _ e) as [[res|ex] e']; [apply IH | discriminate].
Qed.

(** X18: [world_op] leaves alone the worlds that are not directories: when
    none of the worlds it is given is a directory, it calls nothing,
    changes nothing and reports success. *)
Theorem world_op_skips_missing_worlds (func : Path -> string -> Env -> op_result * Env)
    (event config_dir : string) (worlds : list string) (e : Env) :
  worlds <> [] ->
  (forall w, In w worlds -> is_dir e [config_dir; "Events"; event; w]%string = false) ->
  world_op Env names is_dir func event worlds config_dir e = (Returns true, e).
Proof.
  intros Hne Hmiss. unfold world_op.
  destruct worlds as [|w0 ws0]; [contradiction|]. cbn [nonempty].
  clear Hne. generalize dependent (w0 :: ws0). intros ws Hmiss.
  induction ws as [|w ws IH]; simpl; [reflexivity|].
  rewrite (Hmiss w) by (now left). simpl. apply IH.
  intros w' Hw'. apply Hmiss. now right.
Qed.

(** [cmd_start], [cmd_stop] and [cmd_delete] end in [return True]:
    whatever the functions of [crl.world] return, each command returns true
    or raises.  For one world, [cmd_start] calls [crlw.start] on it when it
    is a directory. *)
Lemma commands_never_return_false (event config_dir : string) (worlds : list string)
    (e : Env) :
  fst (cmd_start Env names is_dir Cfg read_yaml cfg_truthy ctf_external_url crlw_start
         event worlds config_dir e) <> Returns false
  /\ fst (cmd_stop Env names is_dir Cfg read_yaml cfg_truthy crlw_stop
            event worlds config_dir e) <> Returns false
  /\ fst (cmd_delete Env names is_dir Cfg read_yaml cfg_truthy crlw_stop crlw_delete
            rmtree event worlds config_dir e) <> Returns false
  /\ match worlds with
     | [w] =>
         if is_dir e [config_dir; "Events"; event; w]%string
         then cmd_start Env names is_dir Cfg read_yaml cfg_truthy ctf_external_url
                crlw_start event worlds config_dir e
              = match crlw_start [config_dir; "Events"; event; w]%string
                        ("crl-" +:+ event +:+ "-" +:+ w)%string e with
                | (Returns _, e') => (Returns true, e')
                | (Raises ex, e') => (Raises ex, e')
                end
         else cmd_start Env names is_dir Cfg read_yaml cfg_truthy ctf_external_url
                crlw_start event worlds config_dir e
              = (Returns true, e)
     | _ => True
     end.
Proof.
  split; [|split; [|split]].
  - unfold cmd_start. destruct (negb (nonempty worlds)).
    + destruct (event_op _ _ _ _ _ _ _ _ _) as [[cfg| |ex] e']; simpl; try discriminate.
      destruct (ctf_external_url cfg); discriminate.
    + destruct (world_op _ _ _ _ _ _ _ _) as [[res|ex] e']; discriminate.
  - unfold cmd_stop. destruct (negb (nonempty worlds)).
    + destruct (event_op _ _ _ _ _ _ _ _ _) as [[cfg| |ex] e']; discriminate.
    + destruct (world_op _ _ _ _ _ _ _ _) as [[res|ex] e']; discriminate.
  - unfold cmd_delete. destruct (negb (nonempty worlds)).
    + destruct (event_op _ _ _ _ _ _ _ _ _) as [[cfg| |ex] e']; simpl; try discriminate;
        destruct (rmtree _ e') as [[ex'|] e'']; discriminate.
    + destruct (world_op _ _ _ _ _ _ _ _) as [[res|ex] e']; discriminate.
  - destruct worlds as [|w [|w' ws]]; try exact I.
    unfold cmd_start, world_op. cbn [nonempty negb world_op_loop app].
    destruct (is_dir e _); cbn [negb]; [|reflexivity].
    destruct (crlw_start _ _ e) as [[res|ex] e']; reflexivity.
Qed.

(** X19: on top of the commands of [crl.py], a start that fails without
    raising goes unnoticed.  A [start] dispatched for a [stopped] world
    leaves it [running] when its directory is missing (nothing is started)
    and when [crlw.start] returns, be it true or false; only an exception
    of [crlw.start] takes the world back to [stopped]. *)
Theorem daemon_start_hides_failure (n : nat) (e u : string)
    (w : World (outside := the_daemon)) :
  state_of w e u = stopped ->
  exists w',
    user_fsm (enough_fuel + n) e u start w = Done tt w'
    /\ state_of w' e u =
       if is_dir (env w) [running_configdir w; "Events"; e; u]%string
       then match fst (crlw_start [running_configdir w; "Events"; e; u]%string
                         ("crl-" +:+ e +:+ "-" +:+ u)%string (env w)) with
            | Returns _ => running
            | Raises _ => stopped
            end
       else running.
Proof.
  intros Hs. change (enough_fuel + n) with (S (S n)).
  rewrite (user_fsm_eq (H := the_daemon)). eexists. split; [reflexivity|].
  unfold dispatched. rewrite Hs. cbn zeta.
  rewrite (succeeded_eq (H := the_daemon)).
  cbn [Crld.cmd_start daemon running_configdir env write].
  pose proof (commands_never_return_false e (running_configdir w) [u] (env w))
    as (_ & _ & _ & Hone). cbn iota in Hone.
  destruct (is_dir (env w) _).
  - rewrite Hone.
    destruct (crlw_start _ _ (env w)) as [[res|ex] e']; cbn [fst truthy_result];
      now rewrite state_of_write.
  - rewrite Hone. cbn [fst truthy_result]. now rewrite state_of_write.
Qed.

(** *** Start-up *)

Lemma reconciled_congr (e u : string) (w1 w2 : World (outside := the_daemon)) :
  env w1 = env w2 -> running_configdir w1 = running_configdir w2 ->
  reconciled e u w1 = reconciled e u w2.
Proof.
  intros He Hd. unfold reconciled, determine_world_health, get_world_path.
  now rewrite He, Hd.
Qed.

Lemma hydrated_congr (e u : string) (w1 w2 : World (outside := the_daemon)) :
  env w1 = env w2 -> running_configdir w1 = running_configdir w2 ->
  hydrated Env names is_dir Cfg read_yaml cfg_truthy ctf_external_url
    crlw_start crlw_stop crlw_delete rmtree read_file inspect cmd_create
    wireguard_vips e u w1
  = hydrated Env names is_dir Cfg read_yaml cfg_truthy ctf_external_url
      crlw_start crlw_stop crlw_delete rmtree read_file inspect cmd_create
      wireguard_vips e u w2.
Proof.
  intros He Hd. unfold hydrated, path_exists, get_config_path, get_world_path.
  rewrite He, Hd, (reconciled_congr e u w1 w2 He Hd). reflexivity.
Qed.

#[local] Notation "'the_hydrated'" :=
  (hydrated Env names is_dir Cfg read_yaml cfg_truthy ctf_external_url
     crlw_start crlw_stop crlw_delete rmtree read_file inspect cmd_create
     wireguard_vips).

#[local] Notation "'hydrating'" :=
  (Crl.hydrating Env names is_dir Cfg read_yaml cfg_truthy ctf_external_url
     crlw_start crlw_stop crlw_delete rmtree read_file inspect cmd_create
     wireguard_vips).

Lemma hydrated_settled (e u : string) (w : World (outside := the_daemon)) :
  path_exists (get_config_path e u w) w = true ->
  the_hydrated e u w <> notfound.
Proof.
  intros Hcfg. unfold hydrated. rewrite Hcfg.
  destruct (reconciled_settled (H := the_daemon) e u w) as [-> | ->]; discriminate.
Qed.

Lemma hydrating_step (w0 w : World (outside := the_daemon)) (e u : string) :
  hydrating w0 w ->
  hydrating w0 (integrity_checked e u w)
  /\ state_of (integrity_checked e u w) e u = the_hydrated e u w0.
Proof.
  intros (He & Hd & Hst).
  assert (Hhyd : the_hydrated e u w = the_hydrated e u w0)
    by (now apply hydrated_congr).
  assert (Hhere : state_of (integrity_checked e u w) e u = the_hydrated e u w0).
  { rewrite <- Hhyd. unfold integrity_checked.
    destruct (path_exists (get_config_path e u w) w) eqn:Hcfg; cbn [negb andb orb].
    - rewrite orb_false_r.
      destruct (bool_decide (state_of w e u = notfound)) eqn:Hnf.
      + apply bool_decide_eq_true in Hnf. unfold dispatched. rewrite Hnf. cbn zeta.
        rewrite (state_of_write (H := the_daemon)). unfold hydrated. rewrite Hcfg.
        reflexivity.
      + apply bool_decide_eq_false in Hnf. rewrite (state_of_touch (H := the_daemon)).
        destruct (Hst e u) as [Hn|Hh]; [contradiction|]. now rewrite Hh, Hhyd.
    - assert (Hn : state_of w e u = notfound).
      { destruct (Hst e u) as [Hn|Hh]; [exact Hn|].
        rewrite Hh, <- Hhyd. unfold hydrated. now rewrite Hcfg. }
      rewrite bool_decide_eq_false_2 by (intros Hc; exact (Hc Hn)).
      rewrite (state_of_touch (H := the_daemon)), Hn. unfold hydrated. now rewrite Hcfg. }
  split; [|exact Hhere].
  split; [now rewrite (env_integrity_checked (H := the_daemon))|].
  split; [now rewrite (configdir_integrity_checked (H := the_daemon))|].
  intros e' u'. destruct (decide ((e', u') = (e, u))) as [[= -> ->]|Hne].
  - right. exact Hhere.
  - destruct (evolves_integrity_checked (H := the_daemon) e u w) as (_ & Hother & _).
    rewrite Hother by assumption. apply Hst.
Qed.

Lemma gather_hydrates (n : nat) (w0 : World (outside := the_daemon))
    (l : list (string * string)) :
  forall w,
    hydrating w0 w ->
    exists w',
      gather Env names is_dir Cfg read_yaml cfg_truthy ctf_external_url
        crlw_start crlw_stop crlw_delete rmtree read_file inspect cmd_create
        wireguard_vips
        (map (fun eu => check_fsm_integrity (user_fsm (S (S n))) (fst eu) (snd eu)) l) w
      = Done tt w'
      /\ hydrating w0 w'
      /\ (forall e u, In (e, u) l -> state_of w' e u = the_hydrated e u w0)
      /\ (forall e u, ~ In (e, u) l -> state_of w' e u = state_of w e u).
Proof.
  induction l as [|[e u] l IH]; intros w Hw; cbn [gather map fst snd].
  - exists w. repeat split; try apply Hw. intros e u [].
  - unfold bind. rewrite (check_fsm_integrity_eq (H := the_daemon)).
    destruct (hydrating_step w0 w e u Hw) as (Hw1 & Hhere).
    destruct (IH _ Hw1) as (w' & Hrun & Hw' & Hin & Hout).
    exists w'. split; [exact Hrun|]. split; [exact Hw'|]. split.
    + intros e' u' [[= <- <-]|Hl]; [|now apply Hin].
      destruct (in_dec (fun x y : string * string => decide (x = y)) (e, u) l)
        as [Hl|Hl]; [now apply Hin|].
      rewrite (Hout e u Hl). exact Hhere.
    + intros e' u' Hnot. rewrite Hout by (intros Hl; apply Hnot; now right).
      destruct (evolves_integrity_checked (H := the_daemon) e u w) as (_ & Hother & _).
      apply Hother. intros [= -> ->]. apply Hnot. now left.
Qed.

(** X20: start-up, from the empty state map, runs no blocking operation and
    leaves every world directory found on disk in the state that its peer
    config and its stack give it: [notfound] without a peer config,
    otherwise [running] when a service other than the VPN gateway is up and
    [stopped] when none is.  Every other world reads as [notfound]. *)
Theorem init_fsm_hydrates (n : nat) (w : World (outside := the_daemon)) :
  world_state w = ∅ ->
  exists w',
    init_fsm Env names is_dir Cfg read_yaml cfg_truthy ctf_external_url
      crlw_start crlw_stop crlw_delete rmtree read_file inspect cmd_create
      wireguard_vips (enough_fuel + n) w = Done tt w'
    /\ env w' = env w
    /\ (forall e u,
          In (e, u) (get_worlds Env names is_dir Cfg read_yaml cfg_truthy
                       ctf_external_url crlw_start crlw_stop crlw_delete rmtree
                       read_file inspect cmd_create wireguard_vips w) ->
          state_of w' e u =
          if path_exists (get_config_path e u w) w
          then (if any (services_status
                          (inspect (env w) (get_world_path e u w)
                             ("crl-" +:+ e +:+ "-" +:+ u)%string))
                then running else stopped)
          else notfound)
    /\ (forall e u,
          ~ In (e, u) (get_worlds Env names is_dir Cfg read_yaml cfg_truthy
                         ctf_external_url crlw_start crlw_stop crlw_delete rmtree
                         read_file inspect cmd_create wireguard_vips w) ->
          state_of w' e u = notfound).
Proof.
  intros Hempty. change (enough_fuel + n) with (S (S n)). unfold init_fsm.
  assert (Hw : hydrating w w).
  { split; [reflexivity|]. split; [reflexivity|]. intros e u. left.
    unfold state_of. now rewrite Hempty, lookup_empty. }
  destruct (gather_hydrates n w (get_worlds _ _ _ _ _ _ _ _ _ _ _ _ _ _ _ w) w Hw)
    as (w' & Hrun & (He & _) & Hin & Hout).
  exists w'. split; [exact Hrun|]. split; [exact He|]. split.
  - intros e u Hl. rewrite (Hin e u Hl). unfold hydrated.
    now rewrite (reconciled_any (H := the_daemon)).
  - intros e u Hl. rewrite (Hout e u Hl). unfold state_of.
    now rewrite Hempty, lookup_empty.
Qed.

End CommandFacts.

End CrlExtras.

Module CrlExtrasDemo.

Import Crld CrldRuns Crl CrlExtras.

#[local] Open Scope list_scope.

Example get_worlds_of_disk0 :
  get_worlds DemoCrl.disk DemoCrl.names DemoCrl.is_dir unit (fun _ _ => None)
    (fun _ => true) (fun _ => None) DemoCrl.fine DemoCrl.fine DemoCrl.fine
    (fun _ e => (None, e)) DemoCrl.read_file DemoCrl.inspect
    (fun _ _ _ e => (Returns true, e)) (fun _ _ _ => None) (DemoCrl.boot DemoCrl.fine)
  = [("demo", "alice"); ("demo", "bobby")]%string.
Proof. vm_compute. reflexivity. Qed.

Example startup_of_disk0 :
  match init_fsm DemoCrl.disk DemoCrl.names DemoCrl.is_dir unit (fun _ _ => None)
          (fun _ => true) (fun _ => None) DemoCrl.fine DemoCrl.fine DemoCrl.fine
          (fun _ e => (None, e)) DemoCrl.read_file DemoCrl.inspect
          (fun _ _ _ e => (Returns true, e)) (fun _ _ _ => None) enough_fuel
          (DemoCrl.boot DemoCrl.fine) with
  | Done _ w' =>
      state_of w' "demo" "alice" = running
      /\ state_of w' "demo" "bobby" = notfound
      /\ transitions (log w') =
         [("demo", "alice", notfound, checking, check);
          ("demo", "alice", checking, running, up)]%string
  | _ => False
  end.
Proof. vm_compute. repeat split. Qed.

Lemma world_op_skips_missing_worlds_witness :
  let e := DemoCrl.disk0 in
  (["carol"]%string <> []
   /\ forall w, In w ["carol"]%string ->
                DemoCrl.is_dir e ["/srv"; "Events"; "demo"; w]%string = false)
  /\ world_op DemoCrl.disk DemoCrl.names DemoCrl.is_dir DemoCrl.loud_failure
       "demo" ["carol"]%string "/srv" e = (Returns true, e).
Proof.
  intros e.
  assert (Hne : ["carol"]%string <> []) by discriminate.
  assert (Hmiss : forall w, In w ["carol"]%string ->
                            DemoCrl.is_dir e ["/srv"; "Events"; "demo"; w]%string = false).
  { intros w [<-|[]]. vm_compute. reflexivity. }
  split; [split; assumption|].
  exact (world_op_skips_missing_worlds DemoCrl.disk DemoCrl.names DemoCrl.is_dir
           DemoCrl.loud_failure "demo" "/srv" ["carol"]%string e Hne Hmiss).
Defined.

Lemma daemon_start_hides_failure_witness :
  let w := DemoCrl.stopped_alice DemoCrl.quiet_failure in
  state_of w "demo" "alice" = stopped
  /\ exists w',
      user_fsm (enough_fuel + 0) "demo" "alice" start w = Done tt w'
      /\ state_of w' "demo" "alice" = running.
Proof.
  intros w.
  assert (Hs : state_of w "demo" "alice" = stopped) by (vm_compute; reflexivity).
  split; [exact Hs|].
  destruct (daemon_start_hides_failure DemoCrl.disk DemoCrl.names DemoCrl.is_dir unit
              (fun _ _ => None) (fun _ => true) (fun _ => None)
              DemoCrl.quiet_failure DemoCrl.fine DemoCrl.fine (fun _ e => (None, e))
              DemoCrl.read_file DemoCrl.inspect (fun _ _ _ e => (Returns true, e))
              (fun _ _ _ => None) 0 "demo" "alice" w Hs) as (w' & Hrun & Hst).
  exists w'. split; [exact Hrun|].
  etransitivity; [exact Hst|]. vm_compute. reflexivity.
Defined.

Lemma init_fsm_hydrates_witness :
  let w := DemoCrl.boot DemoCrl.fine in
  world_state w = ∅
  /\ exists w',
      init_fsm DemoCrl.disk DemoCrl.names DemoCrl.is_dir unit (fun _ _ => None)
        (fun _ => true) (fun _ => None) DemoCrl.fine DemoCrl.fine DemoCrl.fine
        (fun _ e => (None, e)) DemoCrl.read_file DemoCrl.inspect
        (fun _ _ _ e => (Returns true, e)) (fun _ _ _ => None) (enough_fuel + 0) w
      = Done tt w'
      /\ env w' = env w.
Proof.
  intros w.
  assert (Hempty : world_state w = ∅) by reflexivity.
  split; [exact Hempty|].
  destruct (init_fsm_hydrates DemoCrl.disk DemoCrl.names DemoCrl.is_dir unit
              (fun _ _ => None) (fun _ => true) (fun _ => None)
              DemoCrl.fine DemoCrl.fine DemoCrl.fine (fun _ e => (None, e))
              DemoCrl.read_file DemoCrl.inspect (fun _ _ _ e => (Returns true, e))
              (fun _ _ _ => None) 0 w Hempty) as (w' & Hrun & He & _).
  exists w'. split; assumption.
Defined.

End CrlExtrasDemo.

(** ** Stripping a compose file *)

Module ComposeExtras.

Import Compose.

#[local] Open Scope list_scope.

Section StripFacts.

Variable V : Type.
Variable truthy : V -> bool.

Lemma pop_invalid_lookup (service : gmap string V) (k : string) :
  pop_invalid V service !! k =
  if bool_decide (k ∈ invalid_keys) then None else service !! k.
Proof.
  unfold pop_invalid. generalize invalid_keys. intros keys. revert service.
  induction keys as [|k0 keys IH]; intros service; simpl; [reflexivity|].
  rewrite IH. destruct (decide (k = k0)) as [->|Hne].
  - rewrite lookup_delete_eq. rewrite (bool_decide_eq_true_2 (k0 ∈ k0 :: keys))
      by apply list_elem_of_here.
    now destruct (bool_decide (k0 ∈ keys)).
  - rewrite lookup_delete_ne by congruence.
    destruct (decide (k ∈ keys)) as [Hin|Hnin].
    + rewrite !bool_decide_eq_true_2;
        [reflexivity | now apply list_elem_of_further | assumption].
    + rewrite !bool_decide_eq_false_2; [reflexivity | | assumption].
      intros [?|?]%elem_of_cons; contradiction.
Qed.

Lemma drop_falsy_loop_lookup (keys : list string) :
  forall (service : gmap string V) (k : string),
    drop_falsy_loop V truthy keys service !! k =
    match service !! k with
    | Some v => if bool_decide (k ∈ keys) && negb (truthy v) then None else Some v
    | None => None
    end.
Proof.
  unfold drop_falsy_loop.
  induction keys as [|k0 keys IH]; intros service k; simpl.
  - now destruct (service !! k).
  - rewrite IH. destruct (decide (k = k0)) as [->|Hne].
    + rewrite (bool_decide_eq_true_2 (k0 ∈ k0 :: keys)) by apply list_elem_of_here.
      destruct (service !! k0) as [v|] eqn:Hk0.
      * destruct (truthy v) eqn:Hv.
        -- rewrite Hk0, Hv. simpl. now rewrite andb_false_r.
        -- now rewrite lookup_delete_eq.
      * now rewrite Hk0.
    + assert (Hsame : (match service !! k0 with
                       | Some v => if truthy v then service else delete k0 service
                       | None => service
                       end) !! k = service !! k).
      { destruct (service !! k0) as [v|]; [|reflexivity].
        destruct (truthy v); [reflexivity|]. apply lookup_delete_ne. congruence. }
      rewrite Hsame. destruct (service !! k) as [v|]; [|reflexivity].
      destruct (decide (k ∈ keys)) as [Hin|Hnin].
      * rewrite !bool_decide_eq_true_2;
          [reflexivity | now apply list_elem_of_further | assumption].
      * rewrite !bool_decide_eq_false_2; [reflexivity | | assumption].
        intros [?|?]%elem_of_cons; contradiction.
Qed.

Lemma elem_of_keys {A} (m : gmap string A) (k : string) :
  k ∈ map fst (map_to_list m) <-> is_Some (m !! k).
Proof.
  rewrite list_elem_of_In, in_map_iff. split.
  - intros ([k' a] & <- & Hin%list_elem_of_In%elem_of_map_to_list). simpl. eauto.
  - intros [a Ha]. exists (k, a). split; [reflexivity|].
    now apply list_elem_of_In, elem_of_map_to_list.
Qed.

(** One service after the loop body: an option is kept exactly when its key
    is not one of the six and its value is truthy. *)
Lemma strip_service_lookup (service : gmap string V) (k : string) :
  strip_service V truthy service !! k =
  match service !! k with
  | Some v => if bool_decide (k ∈ invalid_keys) || negb (truthy v) then None else Some v
  | None => None
  end.
Proof.
  unfold strip_service. rewrite drop_falsy_loop_lookup, pop_invalid_lookup.
  destruct (bool_decide (k ∈ invalid_keys)) eqn:Hinv.
  - now destruct (service !! k).
  - destruct (service !! k) as [v|] eqn:Hk; [|reflexivity].
    rewrite bool_decide_eq_true_2; [reflexivity|].
    apply elem_of_keys. rewrite pop_invalid_lookup, Hinv, Hk. eauto.
Qed.

Lemma strip_services_loop_lookup (names : list string) :
  forall (svcs : gmap string (gmap string V)) (name : string),
    NoDup names ->
    strip_services_loop V truthy names svcs !! name =
    if bool_decide (name ∈ names)
    then match svcs !! name with
         | Some s => if decide (strip_service V truthy s = ∅) then None
                     else Some (strip_service V truthy s)
         | None => None
         end
    else svcs !! name.
Proof.
  unfold strip_services_loop.
  induction names as [|n0 names IH]; intros svcs name Hnd; simpl; [reflexivity|].
  apply NoDup_cons in Hnd as [Hn0 Hnd]. rewrite IH by assumption.
  destruct (decide (name = n0)) as [->|Hne].
  - rewrite (bool_decide_eq_true_2 (n0 ∈ n0 :: names)) by apply list_elem_of_here.
    rewrite bool_decide_eq_false_2 by assumption.
    destruct (svcs !! n0) as [s|] eqn:Hs; [|exact Hs].
    destruct (decide (strip_service V truthy s = ∅)).
    + apply lookup_delete_eq.
    + apply lookup_insert_eq.
  - assert (Hsame : (match svcs !! n0 with
                     | Some service =>
                         if decide (strip_service V truthy service = ∅)
                         then delete n0 svcs
                         else <[n0 := strip_service V truthy service]> svcs
                     | None => svcs
                     end) !! name = svcs !! name).
    { destruct (svcs !! n0) as [s|]; [|reflexivity].
      destruct (decide _); [apply lookup_delete_ne | apply lookup_insert_ne];
        congruence. }
    rewrite Hsame.
    destruct (decide (name ∈ names)) as [Hin|Hnin].
    + rewrite !bool_decide_eq_true_2;
        [reflexivity | now apply list_elem_of_further | assumption].
    + rewrite !bool_decide_eq_false_2; [reflexivity | | assumption].
      intros [?|?]%elem_of_cons; contradiction.
Qed.

Lemma strip_services_lookup (svcs : gmap string (gmap string V)) (name : string) :
  strip_services V truthy svcs !! name =
  match svcs !! name with
  | Some s => if decide (strip_service V truthy s = ∅) then None
              else Some (strip_service V truthy s)
  | None => None
  end.
Proof.
  unfold strip_services. rewrite strip_services_loop_lookup.
  - destruct (svcs !! name) as [s|] eqn:Hs.
    + rewrite bool_decide_eq_true_2; [reflexivity|]. apply elem_of_keys. eauto.
    + now destruct (bool_decide _).
  - apply NoDup_fst_map_to_list.
Qed.

(** X21: after [strip_docker_compose_options], an option of a service is
    there exactly when it was there before, its key is none of [build],
    [include], [env_file], [restart], [depends_on], [links], and its value
    is truthy; no service is left without options; and what is outside the
    [services] section is untouched. *)
Theorem strip_keeps_valid_truthy_options {R} (c : config V R)
    (svcs : gmap string (gmap string V)) :
  services c = Some svcs ->
  exists svcs',
    strip_docker_compose_options V truthy c
    = {| services := Some svcs'; rest := rest c |}
    /\ (forall name k v,
           (exists s', svcs' !! name = Some s' /\ s' !! k = Some v)
           <-> (exists s, svcs !! name = Some s /\ s !! k = Some v
                          /\ (k ∉ invalid_keys) /\ truthy v = true))
    /\ (forall name s', svcs' !! name = Some s' -> s' <> ∅).
Proof.
  intros Hc. unfold strip_docker_compose_options. rewrite Hc.
  eexists. split; [reflexivity|]. split.
  - intros name k v. rewrite strip_services_lookup. split.
    + intros (s' & Hs' & Hk). destruct (svcs !! name) as [s|]; [|discriminate].
      destruct (decide _); [discriminate|]. injection Hs' as <-.
      rewrite strip_service_lookup in Hk.
      destruct (s !! k) as [v0|] eqn:Hsk; [|discriminate].
      destruct (bool_decide (k ∈ invalid_keys)) eqn:Hinv; [discriminate|].
      destruct (truthy v0) eqn:Hv; [|discriminate]. injection Hk as <-.
      apply bool_decide_eq_false in Hinv. eauto.
    + intros (s & Hs & Hk & Hinv & Hv). rewrite Hs.
      assert (Hkept : strip_service V truthy s !! k = Some v).
      { rewrite strip_service_lookup, Hk, Hv.
        now rewrite bool_decide_eq_false_2 by assumption. }
      destruct (decide (strip_service V truthy s = ∅)) as [Hempty|].
      * rewrite Hempty, lookup_empty in Hkept. discriminate.
      * eauto.
  - intros name s'. rewrite strip_services_lookup.
    destruct (svcs !! name) as [s|]; [|discriminate].
    destruct (decide _); [discriminate|]. now intros [= <-].
Qed.

Lemma strip_service_idem (s : gmap string V) :
  strip_service V truthy (strip_service V truthy s) = strip_service V truthy s.
Proof.
  apply map_eq. intros k. rewrite !strip_service_lookup.
  destruct (s !! k) as [v|]; [|reflexivity].
  destruct (bool_decide (k ∈ invalid_keys)) eqn:Hinv; [reflexivity|].
  destruct (truthy v) eqn:Hv; [|reflexivity]. simpl. now rewrite Hv.
Qed.

(** X22: stripping is idempotent: a compose file that has been stripped is
    left as it is by stripping it again. *)
Theorem strip_is_idempotent {R} (c : config V R) :
  strip_docker_compose_options V truthy (strip_docker_compose_options V truthy c)
  = strip_docker_compose_options V truthy c.
Proof.
  unfold strip_docker_compose_options.
  destruct (services c) as [svcs|] eqn:Hc; [|now rewrite Hc].
  cbn [services rest]. f_equal. f_equal.
  apply map_eq. intros name. rewrite !strip_services_lookup.
  destruct (svcs !! name) as [s|]; [|reflexivity].
  destruct (decide (strip_service V truthy s = ∅)) as [He|Hne]; [reflexivity|].
  rewrite strip_service_idem. now destruct (decide _).
Qed.

End StripFacts.

Lemma strip_keeps_valid_truthy_options_witness :
  let c := {| services := Some {[ "web"%string :=
                                   ({[ "image"%string := true;
                                       "build"%string := true;
                                       "ports"%string := false ]} : gmap string bool) ]};
              rest := tt |} in
  services c = Some {[ "web"%string :=
                        ({[ "image"%string := true; "build"%string := true;
                            "ports"%string := false ]} : gmap string bool) ]}
  /\ exists svcs',
      strip_docker_compose_options bool id c
      = {| services := Some svcs'; rest := rest c |}
      /\ (forall name s', svcs' !! name = Some s' -> s' <> ∅).
Proof.
  intros c. split; [reflexivity|].
  destruct (strip_keeps_valid_truthy_options bool id c _ eq_refl)
    as (svcs' & Hrun & _ & Hne).
  exists svcs'. split; assumption.
Defined.

Example strip_example :
  strip_services bool id
    {[ "web"%string := ({[ "image"%string := true; "build"%string := true;
                           "ports"%string := false ]} : gmap string bool);
       "job"%string := ({[ "restart"%string := true ]} : gmap string bool) ]}
  = {[ "web"%string := {[ "image"%string := true ]} ]}.
Proof. vm_compute. reflexivity. Qed.

End ComposeExtras.
